(** * ClawShield: risk scanner and runtime guards

    A shallow embedding of the risk scanner (the RiskScannerService with
    its four detectors and its scoring, the constants it shares, and the
    file listing of the discovery service) and of the two runtime guards
    (node-guard.ts and the Python guard shipped as PY_GUARD), followed by
    the properties of the specification, stated and settled against them.

    The file system, the glob, regular-expression, JSON and Babel
    libraries enter the scanner through a record of functions, [Env]; a
    guarded process is a state ([World]) threaded through a monad with
    exceptions.  JavaScript numbers are rationals [Q]: every number the
    scorer builds is a multiple of 1/4 far below 2^53, so the doubles are
    exact.  Strings are [string], one character per code unit: the texts
    covered are those over the first 256 code points, with the case mapping
    and the white space the two runtimes give these.

    After these come the services around the scanner and the guards:
    the ids and descriptions of the discovery service, the policy manager
    with its configuration file, the audit logger, the run command that
    starts a guard and the install decision of the preflight route, each
    with the laws its code shows. *)

From Stdlib Require Import ZArith QArith Qround Qminmax Lia Ascii String DecimalString.
From stdpp Require Import base tactics option list strings gmap.

Close Scope Q_scope.
Open Scope Z_scope.

(** ** String primitives of the two runtimes *)

Module Str.

(** The lower case of a code unit below 256: A..Z and the letters from
    U+00C0 to U+00DE, the multiplication sign U+00D7 apart, move up by 32. *)
Definition lower_ascii (c : ascii) : ascii :=
  let n := nat_of_ascii c in
  if (((65 <=? n)%nat && (n <=? 90)%nat)
      || ((192 <=? n)%nat && (n <=? 222)%nat && negb (n =? 215)%nat))%bool
  then ascii_of_nat (n + 32) else c.

(** [s.toLowerCase()] / [s.lower()] *)
Fixpoint toLowerCase (s : string) : string :=
  match s with
  | EmptyString => EmptyString
  | String c s' => String (lower_ascii c) (toLowerCase s')
  end.

(** [s.startsWith(p)] *)
Fixpoint startsWith (s p : string) : bool :=
  match p, s with
  | EmptyString, _ => true
  | String a p', String b s' => if Ascii.eqb a b then startsWith s' p' else false
  | String _ _, EmptyString => false
  end.

(** [s.endsWith(p)] *)
Fixpoint endsWith (s p : string) : bool :=
  if String.eqb s p then true
  else match s with
       | EmptyString => false
       | String _ s' => endsWith s' p
       end.

(** [s.includes(p)] *)
Fixpoint includes (s p : string) : bool :=
  if startsWith s p then true
  else match s with
       | EmptyString => false
       | String _ s' => includes s' p
       end.

(** Splitting at every character that satisfies [p]: never the empty list. *)
Fixpoint splitBy (p : ascii → bool) (s : string) : list string :=
  match s with
  | EmptyString => [EmptyString]
  | String a s' =>
      if p a then EmptyString :: splitBy p s'
      else match splitBy p s' with
           | [] => [String a EmptyString]
           | w :: ws => String a w :: ws
           end
  end.

(** [s.split(c)] for a one-character separator. *)
Definition split (c : ascii) (s : string) : list string := splitBy (Ascii.eqb c) s.

(** [s.split(c)[0]] *)
Fixpoint before (c : ascii) (s : string) : string :=
  match s with
  | EmptyString => EmptyString
  | String a s' => if Ascii.eqb a c then EmptyString else String a (before c s')
  end.

Fixpoint dropWhile (p : ascii -> bool) (s : string) : string :=
  match s with
  | EmptyString => EmptyString
  | String a s' => if p a then dropWhile p s' else s
  end.

Fixpoint dropWhileEnd (p : ascii -> bool) (s : string) : string :=
  match s with
  | EmptyString => EmptyString
  | String a s' =>
      match dropWhileEnd p s' with
      | EmptyString => if p a then EmptyString else String a EmptyString
      | r => String a r
      end
  end.

Definition strip (ws : ascii -> bool) (s : string) : string :=
  dropWhileEnd ws (dropWhile ws s).

(** White space removed by JavaScript's [trim], among the code units below
    256: TAB, LF, VT, FF, CR, SP and the no-break space U+00A0. *)
Definition js_ws (c : ascii) : bool :=
  let n := nat_of_ascii c in
  (((9 <=? n)%nat && (n <=? 13)%nat) || (n =? 32)%nat || (n =? 160)%nat)%bool.

(** White space removed by Python's [str.strip], among the code points
    below 256: the above, FS..US and the next-line control U+0085. *)
Definition py_ws (c : ascii) : bool :=
  let n := nat_of_ascii c in
  (((9 <=? n)%nat && (n <=? 13)%nat) || ((28 <=? n)%nat && (n <=? 32)%nat)
   || (n =? 133)%nat || (n =? 160)%nat)%bool.

Definition trim : string -> string := strip js_ws.
Definition py_strip : string -> string := strip py_ws.

(** [s.slice(0, n)] *)
Definition slice0 (n : nat) (s : string) : string := String.substring 0 n s.

(** [l.join(sep)] *)
Fixpoint join (sep : string) (l : list string) : string :=
  match l with
  | [] => EmptyString
  | [x] => x
  | x :: l' => x +:+ sep +:+ join sep l'
  end.

(** [l.slice(-n)]: the last [n] elements. *)
Definition lastN {A} (n : nat) (l : list A) : list A :=
  drop (length l - n)%nat l.

Definition nonempty (s : string) : bool :=
  match s with EmptyString => false | _ => true end.

End Str.

(** ** Values of the host language *)

Module JS.

(** What [JSON.parse] returns.  A [JObj] lists the own properties of the
    object, each key once, in the order [Object.entries] reports them. *)
#[warnings="-register-all"] Inductive json : Type :=
| JNull
| JBool (b : bool)
| JNum (q : Q)
| JStr (s : string)
| JArr (l : list json)
| JObj (l : list (string * json)).

(** A possibly [undefined] value. *)
Definition value : Type := option json.

Fixpoint assoc {A} (k : string) (l : list (string * A)) : option A :=
  match l with
  | [] => None
  | (k', v) :: l' => if String.eqb k' k then Some v else assoc k l'
  end.

(** Truthiness, as tested by [!v] and [v || w]. *)
Definition truthy (v : value) : bool :=
  match v with
  | None | Some JNull => false
  | Some (JBool b) => b
  | Some (JNum q) => negb (Qeq_bool q 0)
  | Some (JStr s) => Str.nonempty s
  | Some (JArr _) | Some (JObj _) => true
  end.

(** [v.k] for a parsed [v] other than [null] (reading a property of [null]
    throws) and a key [k] that no prototype defines, as are all the keys the
    scanner reads. *)
Definition prop (v : json) (k : string) : value :=
  match v with
  | JObj l => assoc k l
  | _ => None
  end.

(** [v || {}] *)
Definition orEmpty (v : value) : json :=
  match v with
  | Some j => if truthy v then j else JObj []
  | None => JObj []
  end.

(** [v === s] for a string [s]. *)
Definition is_string (v : value) (s : string) : bool :=
  match v with
  | Some (JStr s') => String.eqb s' s
  | _ => false
  end.

Definition index_key (i : nat) : string :=
  NilEmpty.string_of_uint (Nat.to_uint i).

Fixpoint chars (s : string) : list json :=
  match s with
  | EmptyString => []
  | String c s' => JStr (String c EmptyString) :: chars s'
  end.

(** [Object.entries(v)] for a parsed, non-null [v]. *)
Definition Object_entries (v : json) : list (string * json) :=
  match v with
  | JObj l => l
  | JArr l => imap (λ i x, (index_key i, x)) l
  | JStr s => imap (λ i x, (index_key i, x)) (chars s)
  | _ => []
  end.

(** All the texts of a list, when none is missing. *)
Fixpoint allSome {A} (l : list (option A)) : option (list A) :=
  match l with
  | [] => Some []
  | Some x :: l' =>
      match allSome l' with
      | Some xs => Some (x :: xs)
      | None => None
      end
  | None :: _ => None
  end.

(** [String(v)] for a parsed [v], given the printer of numbers; [None]
    when the conversion throws a TypeError.  An object is converted by its
    [toString], then by its [valueOf]: a parsed object that has a key
    [toString] of its own hides the inherited method behind a value that
    cannot be called, and its [valueOf], its own or the inherited one,
    gives no primitive either, so the conversion throws; without that key
    the inherited method answers.  An array joins the texts of its
    elements, a [null] among them giving the empty text. *)
Fixpoint String_of (num : Q → string) (v : json) : option string :=
  match v with
  | JNull => Some "null"
  | JBool true => Some "true"
  | JBool false => Some "false"
  | JNum q => Some (num q)
  | JStr s => Some s
  | JArr l =>
      match allSome (map (λ x, match x with
                               | JNull => Some EmptyString
                               | _ => String_of num x
                               end) l) with
      | Some texts => Some (Str.join "," texts)
      | None => None
      end
  | JObj l =>
      match assoc "toString" l with
      | Some _ => None
      | None => Some "[object Object]"
      end
  end.

(** A regular expression literal: its source and its flags. *)
Record RegExp := mkRegExp { pattern : string; reflags : string }.
Definition re (s : string) : RegExp := mkRegExp s "".
Definition rei (s : string) : RegExp := mkRegExp s "i".

Definition dq : string := String (ascii_of_nat 34) EmptyString.

Definition has (l : list string) (x : string) : bool := bool_decide (x ∈ l).

End JS.

(** ** constants.ts *)

Module Shared.

Inductive RiskRecommendation := allow | sandbox | block.

Definition SAFE_MAX : Z := 30.
Definition WARNING_MAX : Z := 60.
Definition DANGER_MIN : Z := 61.

Definition SHELL_EXECUTION : Q := 25%Q.
Definition FILESYSTEM_WRITE : Q := 15%Q.
Definition FILESYSTEM_DELETE : Q := 20%Q.
Definition NETWORK_CALL : Q := 20%Q.
Definition REMOTE_SCRIPT_FETCH : Q := 30%Q.
Definition OBFUSCATION : Q := 25%Q.
Definition CREDENTIAL_ACCESS : Q := 20%Q.
Definition EVAL_USAGE : Q := 25%Q.
Definition DEPENDENCY_RISK : Q := 20%Q.
Definition AST_RISK : Q := 10%Q.
Definition RUNTIME_BEHAVIOR : Q := 15%Q.

(** The scanner passes the rounded total, an integer. *)
Definition getRecommendation (score : Z) : RiskRecommendation :=
  if score <=? SAFE_MAX then allow
  else if score <=? WARNING_MAX then sandbox
  else block.

Definition AUDIT_FILE : string := "audit.jsonl".

(** RISK_PATTERNS: per category, the patterns of each language key. *)
Definition PatternTable : Type := list (string * list JS.RegExp).

Definition SHELL : PatternTable :=
  [ ("js", [ JS.re "child_process"; JS.re "\bexec\s*\("; JS.re "\bexecSync\s*\(";
             JS.re "\bspawn\s*\("; JS.re "\bspawnSync\s*\("; JS.re "\bexecFile\s*\(";
             JS.re "\bfork\s*\(" ]);
    ("python", [ JS.re "subprocess\."; JS.re "os\.system\s*\("; JS.re "os\.popen\s*\(";
                 JS.re "commands\.(getoutput|getstatusoutput)"; JS.re "\bpopen\s*\(" ]);
    ("bash", [ JS.re "\beval\s+"; JS.re "\$\(.*\)"; JS.re "`.*`" ]) ].

Definition FILESYSTEM_WRITE_PATTERNS : PatternTable :=
  [ ("js", [ JS.re "fs\.writeFile"; JS.re "fs\.writeFileSync"; JS.re "fs\.appendFile";
             JS.re "fs\.createWriteStream"; JS.re "fsPromises\.writeFile" ]);
    ("python", [ JS.re ("open\s*\([^)]*['" +:+ JS.dq +:+ "][wa]['" +:+ JS.dq +:+ "][^)]*\)");
                 JS.re "\.write\s*\("; JS.re "shutil\.(copy|move|rmtree)" ]) ].

Definition FILESYSTEM_DELETE_PATTERNS : PatternTable :=
  [ ("js", [ JS.re "fs\.unlink"; JS.re "fs\.rmdir"; JS.re "fs\.rm\s*\(";
             JS.re "fs\.rmdirSync"; JS.re "rimraf" ]);
    ("python", [ JS.re "os\.remove\s*\("; JS.re "os\.unlink\s*\("; JS.re "os\.rmdir\s*\(";
                 JS.re "shutil\.rmtree" ]) ].

Definition NETWORK : PatternTable :=
  [ ("js", [ JS.re "\bfetch\s*\("; JS.re "\baxios\b"; JS.re "\bhttp\.request";
             JS.re "\bhttps\.request"; JS.re "\bnode-fetch\b"; JS.re "\bgot\s*\(" ]);
    ("python", [ JS.re "requests\.(get|post|put|delete|patch)"; JS.re "urllib\.(request|urlopen)";
                 JS.re "httplib\."; JS.re "aiohttp\." ]);
    ("bash", [ JS.re "\bcurl\b"; JS.re "\bwget\b"; JS.re "\bnc\b"; JS.re "\bnetcat\b" ]) ].

Definition REMOTE_EXEC : PatternTable :=
  [ ("all", [ JS.re "curl.*\|\s*(bash|sh|python)"; JS.re "wget.*\|\s*(bash|sh|python)";
              JS.re "curl.*-o.*&&.*\.(sh|py|js)" ]) ].

Definition OBFUSCATION_PATTERNS : PatternTable :=
  [ ("js", [ JS.re "\beval\s*\("; JS.re "new\s+Function\s*\("; JS.re "atob\s*\(.*\)";
             JS.re ("Buffer\.from\s*\([^)]+,\s*['" +:+ JS.dq +:+ "]base64['" +:+ JS.dq +:+ "]\)") ]);
    ("python", [ JS.re "\beval\s*\("; JS.re "\bexec\s*\("; JS.re "base64\.b64decode";
                 JS.re "compile\s*\([^)]+\)\s*.*exec" ]) ].

Definition CREDENTIALS : PatternTable :=
  [ ("js", [ JS.re "process\.env\["; JS.re "process\.env\."; JS.re "dotenv" ]);
    ("python", [ JS.re "os\.environ"; JS.re "os\.getenv"; JS.re "dotenv" ]);
    ("all", [ JS.rei "API[_-]?KEY"; JS.rei "SECRET[_-]?KEY"; JS.rei "PASSWORD";
              JS.rei "TOKEN"; JS.rei "CREDENTIAL" ]) ].

End Shared.


(** ** risk-scanner.ts, with [listSkillFiles] of the discovery service *)

Module Scanner.
Import JS Shared.

Inductive Severity := low | medium | high | critical.
Inductive Source := regex | ast | dependency | behavior.

#[export] Instance Severity_eq_dec : EqDecision Severity.
Proof. solve_decision. Defined.
#[export] Instance Source_eq_dec : EqDecision Source.
Proof. solve_decision. Defined.

Record RiskFlag := mkFlag {
  type : string;
  severity : Severity;
  description : string;
  location : option string;
  line : option nat;
  source : option Source;
  evidence : option string;
}.

(** The fields of a [Skill] the scanner reads. *)
Record Skill := mkSkill { id : string; name : string; path : string }.

(** A [RiskScanResult] without its display text and its time stamp. *)
Record RiskScanResult := mkResult {
  score : Z;
  flags : list RiskFlag;
  recommendation : RiskRecommendation;
  dependencyCount : nat;
  astCount : nat;
  behaviorCount : nat;
}.

(** The expressions and statements the syntax-tree visitors inspect. *)
Inductive Expr :=
| Identifier (ident : string)
| MemberExpr (object property : Expr)
| ImportKw
| StringLiteral (text : string)
| OtherExpr.

Inductive Node :=
| ImportDeclaration (module : string) (loc : option nat)
| CallExpression (callee : Expr) (arguments : list Expr) (loc : option nat)
| MemberExpression (object property : Expr) (loc : option nat).

(** What the scanner asks of the file system and of its libraries.  A read
    or a glob that fails is [None]; [babel] gives the nodes on which
    [traverse] calls a visitor, in call order, and [None] when parsing or
    the traversal throws. *)
Record Env := mkEnv {
  glob : string → option (list string);
  glob_cwd : string → string → option (list string);
  existsSync : string → bool;
  readFile : string → option string;
  path_join : string → string → string;
  path_extname : string → string;
  regex_test : RegExp → string → bool;
  babel : string → option (list Node);
  JSON_parse : string → option json;
  Number_toString : Q → string;
  DEFAULT_CLAWSHIELD_PATH : string;
}.

Definition LF : ascii := ascii_of_nat 10.

(** *** SkillDiscoveryService.listSkillFiles *)

Definition extensions : list string :=
  ["js"; "ts"; "jsx"; "tsx"; "py"; "sh"; "bash"; "ps1"].

Fixpoint globAll (env : Env) (patterns : list string) : option (list string) :=
  match patterns with
  | [] => Some []
  | pattern :: rest =>
      match glob env pattern, globAll env rest with
      | Some matches, Some files => Some (matches ++ files)
      | _, _ => None
      end
  end.

Definition listSkillFiles (env : Env) (skillPath : string) : option (list string) :=
  globAll env (map (λ ext, skillPath +:+ "/**/*." +:+ ext) extensions).

(** *** getLanguageCategory *)

Definition getLanguageCategory (ext : string) : string :=
  if has [".js"; ".ts"; ".jsx"; ".tsx"; ".mjs"; ".cjs"] ext then "js"
  else if has [".py"; ".pyw"] ext then "python"
  else if has [".sh"; ".bash"; ".zsh"; ".ps1"] ext then "bash"
  else "all".

(** *** checkPatterns *)

Definition patternsToCheck (langCategory : string) (patterns : PatternTable) : list RegExp :=
  default [] (assoc langCategory patterns) ++ default [] (assoc "all" patterns).

(** One line of the loop: the first matching pattern flags the line, unless
    a flag of this type, line and file is already there. *)
Definition checkLine (env : Env) (filePath : string) (toCheck : list RegExp)
    (flagType description : string) (severity : Severity) (source : option Source)
    (flags : list RiskFlag) (il : nat * string) : list RiskFlag :=
  let '(i, text) := il in
  if existsb (λ pattern, regex_test env pattern text) toCheck then
    if existsb (λ f, bool_decide (type f = flagType ∧ line f = Some (i + 1)%nat
                                  ∧ location f = Some filePath)) flags
    then flags
    else flags ++ [mkFlag flagType severity description (Some filePath)
                          (Some (i + 1)%nat) source None]
  else flags.

Definition checkPatterns (env : Env) (lines : list string) (filePath langCategory : string)
    (patterns : PatternTable) (flagType description : string) (severity : Severity)
    (source : option Source) : list RiskFlag :=
  foldl (checkLine env filePath (patternsToCheck langCategory patterns)
           flagType description severity source)
        [] (imap pair lines).

(** *** scanAst *)

Definition nat_to_string (n : nat) : string := NilEmpty.string_of_uint (Nat.to_uint n).

(** The arguments of one call of the local [addFlag]. *)
Record AstCall := mkAstCall {
  a_type : string;
  a_severity : Severity;
  a_description : string;
  a_line : option nat;
  a_evidence : option string;
}.

Definition astKey (filePath : string) (c : AstCall) : string :=
  a_type c +:+ ":" +:+ filePath +:+ ":" +:+ nat_to_string (default 0%nat (a_line c))
    +:+ ":" +:+ default "" (a_evidence c).

Definition addAstFlag (filePath : string) (st : list RiskFlag * gset string) (c : AstCall)
    : list RiskFlag * gset string :=
  let key := astKey filePath c in
  if bool_decide (key ∈ st.2) then st
  else (st.1 ++ [mkFlag (a_type c) (a_severity c) (a_description c) (Some filePath)
                        (a_line c) (Some ast) (a_evidence c)],
        {[key]} ∪ st.2).

Definition shellCallees : list string :=
  ["exec"; "execSync"; "spawn"; "spawnSync"; "execFile"; "execFileSync"; "fork"].
Definition fsWriteCallees : list string :=
  ["writeFile"; "writeFileSync"; "appendFile"; "appendFileSync"; "createWriteStream";
   "rm"; "rmSync"; "unlink"; "unlinkSync"; "rmdir"; "rmdirSync"; "rename"; "renameSync";
   "copyFile"; "copyFileSync"; "chmod"; "chmodSync"; "chown"; "chownSync";
   "truncate"; "truncateSync"].
Definition fsDeleteCallees : list string :=
  ["rm"; "rmSync"; "unlink"; "unlinkSync"; "rmdir"; "rmdirSync"].
Definition networkObjects : list string := ["http"; "https"; "net"; "tls"; "dns"; "dgram"].
Definition networkMethods : list string := ["request"; "get"; "connect"; "createConnection"].
Definition obfuscationCallees : list string := ["eval"; "Function"].
Definition sensitiveImports : list string :=
  ["child_process"; "fs"; "net"; "http"; "https"; "dns"; "tls"; "dgram";
   "worker_threads"; "vm"].

(** [t.isIdentifier(e, { name })] *)
Definition isIdentifierNamed (e : Expr) (n : string) : bool :=
  match e with Identifier x => String.eqb x n | _ => false end.

Definition visitCall (callee : Expr) (arguments : list Expr) (loc : option nat) : list AstCall :=
  match callee with
  | Identifier n =>
      if has shellCallees n then
        [mkAstCall "shell_execution" high "Executes shell commands (AST)" loc (Some n)]
      else if has obfuscationCallees n then
        [mkAstCall "obfuscation" high "Uses eval/Function for dynamic execution (AST)" loc (Some n)]
      else if String.eqb n "fetch" then
        [mkAstCall "network_call" medium "Makes network requests (AST)" loc (Some n)]
      else if String.eqb n "require" then
        match arguments with
        | StringLiteral _ :: _ => []
        | _ => [mkAstCall "dynamic_require" medium "Uses dynamic require (AST)" loc None]
        end
      else []
  | MemberExpr (Identifier objName) (Identifier propName) =>
      let ev := Some (objName +:+ "." +:+ propName) in
      if String.eqb objName "child_process" && has shellCallees propName then
        [mkAstCall "shell_execution" high "Executes shell commands (AST)" loc ev]
      else if String.eqb objName "fs" && has fsWriteCallees propName then
        if has fsDeleteCallees propName then
          [mkAstCall "filesystem_delete" high "Deletes files or directories (AST)" loc ev]
        else
          [mkAstCall "filesystem_write" medium "Writes to filesystem (AST)" loc ev]
      else if String.eqb objName "axios" then
        [mkAstCall "network_call" medium "Makes network requests (AST)" loc ev]
      else if has networkObjects objName && has networkMethods propName then
        [mkAstCall "network_call" medium "Makes network requests (AST)" loc ev]
      else []
  | MemberExpr _ _ => []
  | ImportKw => [mkAstCall "dynamic_import" medium "Uses dynamic import (AST)" loc None]
  | _ => []
  end.

Definition visitMember (object property : Expr) (loc : option nat) : list AstCall :=
  if isIdentifierNamed object "process" && isIdentifierNamed property "env" then
    [mkAstCall "credential_access" medium "Accesses environment variables (AST)" loc
       (Some "process.env")]
  else match object with
       | MemberExpr o p =>
           if isIdentifierNamed o "process" && isIdentifierNamed p "env" then
             [mkAstCall "credential_access" medium "Accesses environment variables (AST)" loc
                (Some "process.env.*")]
           else []
       | _ => []
       end.

(** The calls of [addFlag] a visited node leads to. *)
Definition visit (node : Node) : list AstCall :=
  match node with
  | ImportDeclaration module loc =>
      if has sensitiveImports module then
        [mkAstCall "sensitive_import" low
           ("Imports sensitive module " +:+ dq +:+ module +:+ dq) loc (Some module)]
      else []
  | CallExpression callee arguments loc => visitCall callee arguments loc
  | MemberExpression object property loc => visitMember object property loc
  end.

Definition jsExts : list string := [".js"; ".ts"; ".jsx"; ".tsx"; ".mjs"; ".cjs"].

Definition scanAst (env : Env) (filePath content : string) : list RiskFlag :=
  let ext := Str.toLowerCase (path_extname env filePath) in
  if negb (has jsExts ext) then []
  else match babel env content with
       | None => []
       | Some nodes => (foldl (addAstFlag filePath) ([], ∅) (nodes ≫= visit)).1
       end.

(** *** scanFile *)

Definition longLines (filePath : string) (lines : list string) : list RiskFlag :=
  mjoin (imap (λ i text,
    if (500 <? String.length text)%nat && negb (Str.includes text "//")
       && negb (Str.includes text "#")
    then [mkFlag "suspicious_long_line" medium
            "Contains suspiciously long line (potential obfuscation)"
            (Some filePath) (Some (i + 1)%nat) (Some regex) None]
    else []) lines).

Definition scanFile (env : Env) (filePath : string) : list RiskFlag :=
  let ext := Str.toLowerCase (path_extname env filePath) in
  match readFile env filePath with
  | None => []
  | Some content =>
      let lines := Str.split LF content in
      let langCategory := getLanguageCategory ext in
      checkPatterns env lines filePath langCategory SHELL
        "shell_execution" "Executes shell commands" high (Some regex)
      ++ checkPatterns env lines filePath langCategory FILESYSTEM_WRITE_PATTERNS
        "filesystem_write" "Writes to filesystem" medium (Some regex)
      ++ checkPatterns env lines filePath langCategory FILESYSTEM_DELETE_PATTERNS
        "filesystem_delete" "Deletes files or directories" high (Some regex)
      ++ checkPatterns env lines filePath langCategory NETWORK
        "network_call" "Makes network requests" medium (Some regex)
      ++ checkPatterns env lines filePath "all" REMOTE_EXEC
        "remote_script_exec" "Downloads and executes remote scripts" critical (Some regex)
      ++ checkPatterns env lines filePath langCategory OBFUSCATION_PATTERNS
        "obfuscation" "Uses code obfuscation or dynamic execution" high (Some regex)
      ++ checkPatterns env lines filePath langCategory CREDENTIALS
        "credential_access" "Accesses environment variables or credentials" medium (Some regex)
      ++ longLines filePath lines
      ++ scanAst env filePath content
  end.


(** *** scanDependencies *)

(** The arguments of one call of the local [addFlag]. *)
Record DepCall := mkDepCall {
  d_type : string;
  d_severity : Severity;
  d_description : string;
  d_location : option string;
  d_evidence : option string;
}.

Definition depKey (c : DepCall) : string :=
  d_type c +:+ ":" +:+ default "" (d_location c) +:+ ":" +:+ default "" (d_evidence c).

Definition addDepFlag (st : list RiskFlag * gset string) (c : DepCall)
    : list RiskFlag * gset string :=
  let key := depKey c in
  if bool_decide (key ∈ st.2) then st
  else (st.1 ++ [mkFlag (d_type c) (d_severity c) (d_description c) (d_location c)
                        None (Some dependency) (d_evidence c)],
        {[key]} ∪ st.2).

Definition scriptKeys : list string :=
  ["preinstall"; "install"; "postinstall"; "prepare"; "prepublish"; "prepack"].

Definition riskyScriptPattern : RegExp :=
  rei "(curl|wget|bash|sh|powershell|invoke-webrequest|chmod\s+\+x|node\s+-e|python\s+-c|perl\s+-e)".

Definition scriptCalls (env : Env) (packageJsonPath : string) (scripts : json) : list DepCall :=
  scriptKeys ≫= λ key,
    match prop scripts key with
    | Some (JStr value) =>
        if regex_test env riskyScriptPattern value then
          [mkDepCall "dependency_script" high
             ("Install script " +:+ dq +:+ key +:+ dq +:+ " executes shell commands")
             (Some packageJsonPath) (Some (Str.slice0 120 value))]
        else []
    | _ => []
    end.

Definition depGroupCalls (env : Env) (packageJsonPath : string) (deps : json) : list DepCall :=
  Object_entries deps ≫= λ '(name, spec),
    match spec with
    | JStr spec =>
        let trimmed := Str.trim spec in
        (if String.eqb trimmed "*" || String.eqb trimmed "latest" then
           [mkDepCall "dependency_unpinned" low "Unpinned dependency version"
              (Some packageJsonPath) (Some (name +:+ "@" +:+ trimmed))]
         else [])
        ++
        (if regex_test env
              (rei "^(git\+|github:|git@|https?:|file:|link:|workspace:|path:)") trimmed
            || Str.startsWith trimmed ".." then
           [mkDepCall "dependency_url" medium "Dependency uses non-registry source"
              (Some packageJsonPath) (Some (name +:+ "@" +:+ trimmed))]
         else [])
    | _ => []
    end.

Definition packageJsonCalls (env : Env) (skillPath : string) : list DepCall :=
  let packageJsonPath := path_join env skillPath "package.json" in
  if existsSync env packageJsonPath then
    match readFile env packageJsonPath with
    | None => []
    | Some content =>
        match JSON_parse env content with
        | None => []
        | Some JNull => []
        | Some pkg =>
            scriptCalls env packageJsonPath (orEmpty (prop pkg "scripts"))
            ++ ([ orEmpty (prop pkg "dependencies"); orEmpty (prop pkg "devDependencies");
                  orEmpty (prop pkg "optionalDependencies");
                  orEmpty (prop pkg "peerDependencies") ]
                ≫= depGroupCalls env packageJsonPath)
        end
    end
  else [].

Definition lockFiles : list string :=
  ["package-lock.json"; "npm-shrinkwrap.json"; "pnpm-lock.yaml"; "yarn.lock"].

Definition lockfileCalls (env : Env) (skillPath : string) : list DepCall :=
  lockFiles ≫= λ file,
    let lockPath := path_join env skillPath file in
    if negb (existsSync env lockPath) then []
    else match readFile env lockPath with
         | None => []
         | Some content =>
             take (Z.to_nat 20000) (Str.split LF content) ≫= λ text,
               if regex_test env (rei "resolved") text
                  || regex_test env (re "https?:\/\/") text then
                 if regex_test env
                      (rei "git\+|github:|git@|file:|https?:\/\/(?!registry\.npmjs\.org)") text
                 then [mkDepCall "dependency_url" medium
                         "Lockfile contains non-registry dependency source"
                         (Some lockPath) (Some (Str.slice0 140 (Str.trim text)))]
                 else []
               else []
         end.

Definition requirementsCalls (env : Env) (skillPath : string) : list DepCall :=
  let requirementsPath := path_join env skillPath "requirements.txt" in
  if existsSync env requirementsPath then
    match readFile env requirementsPath with
    | None => []
    | Some content =>
        Str.split LF content ≫= λ text,
          let trimmed := Str.trim text in
          let ev := Some (Str.slice0 140 trimmed) in
          if negb (Str.nonempty trimmed) || Str.startsWith trimmed "#" then []
          else
            (if regex_test env (rei "git\+|https?:\/\/") trimmed then
               [mkDepCall "dependency_url" medium "Requirements include URL/git dependency"
                  (Some requirementsPath) ev]
             else [])
            ++ (if regex_test env (rei "\s-e\s+|--editable") trimmed then
                  [mkDepCall "dependency_url" medium "Editable requirements entry"
                     (Some requirementsPath) ev]
                else [])
            ++ (if regex_test env
                     (rei "--index-url|--extra-index-url|--trusted-host|--find-links") trimmed
                then [mkDepCall "dependency_index" medium "Custom package index in requirements"
                        (Some requirementsPath) ev]
                else [])
            ++ (if negb (regex_test env (re "==") trimmed)
                   && regex_test env (re "^[A-Za-z0-9_.-]+") trimmed
                then [mkDepCall "dependency_unpinned" low "Unpinned dependency version"
                        (Some requirementsPath) ev]
                else [])
    end
  else [].

Definition textManifests : list string :=
  ["pyproject.toml"; "Pipfile"; "Pipfile.lock"; "poetry.lock"; "setup.py"; "setup.cfg"].

Definition manifestCalls (env : Env) (skillPath : string) : list DepCall :=
  textManifests ≫= λ file,
    let manifestPath := path_join env skillPath file in
    if negb (existsSync env manifestPath) then []
    else match readFile env manifestPath with
         | None => []
         | Some content =>
             if regex_test env (rei "git\s*=\s*|url\s*=\s*|path\s*=\s*|https?:\/\/") content
             then [mkDepCall "dependency_url" medium "Manifest includes git/url/path dependency"
                     (Some manifestPath) None]
             else []
         end.

Definition binaryCalls (env : Env) (skillPath : string) : list DepCall :=
  match glob_cwd env "**/*.{node,so,dylib,dll}" skillPath with
  | None => []
  | Some binaries =>
      map (λ bin, mkDepCall "native_binary" high "Skill bundles native binary"
                    (Some (path_join env skillPath bin)) None) binaries
  end.

(** Every block acts on [flags] and [seen] through [addFlag] only, and each
    throw is caught before the block has called it: the scan replays the
    calls of the five blocks in order. *)
Definition depCalls (env : Env) (skillPath : string) : list DepCall :=
  packageJsonCalls env skillPath ++ lockfileCalls env skillPath
  ++ requirementsCalls env skillPath ++ manifestCalls env skillPath
  ++ binaryCalls env skillPath.

Definition scanDependencies (env : Env) (skillPath : string) : list RiskFlag :=
  (foldl addDepFlag ([], ∅) (depCalls env skillPath)).1.

(** *** scanBehavior *)

Definition auditPath (env : Env) : string :=
  path_join env (DEFAULT_CLAWSHIELD_PATH env) AUDIT_FILE.

(** The severity assignments, in the order of the source. *)
Definition behaviorSeverity (kind : string) : Severity :=
  let severity := medium in
  let severity := if String.eqb kind "shell" then high else severity in
  let severity := if String.eqb kind "network" then high else severity in
  let severity :=
    if String.eqb kind "env" || String.eqb kind "env_set" then medium else severity in
  let severity := if String.eqb kind "fs_write" then medium else severity in
  severity.

(** The body of the loop for one line: the flag it pushes, or [None] when
    it leaves by [continue] or through the inner [catch], which a line
    that does not parse, the record [null] and a detail that [String]
    cannot convert all reach. *)
Definition behaviorFlag (env : Env) (skill : Skill) (auditPath text : string)
    : option RiskFlag :=
  match JSON_parse env text with
  | None => None
  | Some JNull => None
  | Some entry =>
      if negb (is_string (prop entry "action") "runtime") then None
      else if negb (truthy (prop entry "skillId"))
              || negb (is_string (prop entry "skillId") (id skill)) then None
      else
        let details := orEmpty (prop entry "details") in
        let kind :=
          match prop details "kind" with Some (JStr k) => k | _ => "runtime" end in
        let result :=
          if truthy (prop entry "result") then prop entry "result"
          else Some (JStr "blocked") in
        if negb (is_string result "blocked") then None
        else
          match allSome (map (λ '(key, v),
                                match String_of (Number_toString env) v with
                                | Some text => Some (key +:+ "=" +:+ text)
                                | None => None
                                end)
                             (Object_entries details)) with
          | None => None
          | Some pairs =>
              let evidence := Str.slice0 180 (Str.join " " pairs) in
              Some (mkFlag "runtime_blocked" (behaviorSeverity kind)
                      ("Runtime guard blocked " +:+ kind +:+ " action")
                      (Some auditPath) None (Some behavior) (Some evidence))
          end
  end.

Definition recentLines (content : string) : list string :=
  Str.lastN (Z.to_nat 2000)
    (filter (λ text, (0 < String.length (Str.trim text))%nat) (Str.split LF content)).

Definition scanBehavior (env : Env) (skill : Skill) : list RiskFlag :=
  let auditPath := auditPath env in
  if negb (existsSync env auditPath) then []
  else match readFile env auditPath with
       | None => []
       | Some content =>
           foldl (λ flags text,
                    match behaviorFlag env skill auditPath text with
                    | Some flag => flags ++ [flag]
                    | None => flags
                    end)
                 [] (recentLines content)
       end.

(** *** calculateScore *)

(** The table is read at the categories of the findings; no detector
    emits a name that [Object.prototype] defines. *)
Definition typeWeights : gmap string Q :=
  list_to_map
    [ ("shell_execution", SHELL_EXECUTION);
      ("filesystem_write", FILESYSTEM_WRITE);
      ("filesystem_delete", FILESYSTEM_DELETE);
      ("network_call", NETWORK_CALL);
      ("remote_script_exec", REMOTE_SCRIPT_FETCH);
      ("obfuscation", OBFUSCATION);
      ("credential_access", CREDENTIAL_ACCESS);
      ("suspicious_long_line", 10%Q);
      ("dependency_script", DEPENDENCY_RISK);
      ("dependency_url", DEPENDENCY_RISK);
      ("dependency_index", DEPENDENCY_RISK);
      ("dependency_unpinned", 10%Q);
      ("native_binary", (DEPENDENCY_RISK + 5)%Q);
      ("dynamic_require", 10%Q);
      ("dynamic_import", 10%Q);
      ("sensitive_import", 5%Q);
      ("runtime_blocked", RUNTIME_BEHAVIOR) ].

(** [Math.round]: the nearest integer, a half going up. *)
Definition Math_round (x : Q) : Z := Qfloor (x + (1 # 2))%Q.

(** [typeCount[flag.type] = (typeCount[flag.type] || 0) + 1] over the
    flags.  The table of the source is a plain object, and the finite map
    is that object at every name that objects do not inherit; at an
    inherited name (constructor, toString, ...) the object answers with
    the inherited member and the score is not a number.  The detectors
    emit the categories of the weight table only. *)
Definition typeCount (flags : list RiskFlag) : gmap string Z :=
  foldl (λ m flag, <[type flag := default 0 (m !! type flag) + 1]> m) ∅ flags.

(** [typeWeights[type] || 5] *)
Definition weightOf (type : string) : Q :=
  match typeWeights !! type with
  | Some w => if Qeq_bool w 0 then 5%Q else w
  | None => 5%Q
  end.

Definition addContribution (score : Q) (entry : string * Z) : Q :=
  let '(type, count) := entry in
  let weight := weightOf type in
  (score + (weight + Qmin (inject_Z (count - 1)) 3 * (weight / 4)))%Q.

Definition calculateScore (flags : list RiskFlag) : Z :=
  Math_round (foldl addContribution 0%Q (map_to_list (typeCount flags))).

(** *** scanSkill *)

(** The promise of [scanSkill] resolves to a result or rejects; only the
    listing of the files is outside every [try]. *)
Inductive Outcome :=
| Returned (r : RiskScanResult)
| Rejected.

Definition countSource (s : Source) (flags : list RiskFlag) : nat :=
  length (filter (λ f, source f = Some s) flags).

Definition staticFlags (env : Env) (skill : Skill) (files : list string) : list RiskFlag :=
  let skillMdPath := path_join env (path skill) "SKILL.md" in
  (files ≫= scanFile env)
  ++ (if existsSync env skillMdPath then scanFile env skillMdPath else [])
  ++ scanDependencies env (path skill).

Definition scanSkill (env : Env) (skill : Skill) : Outcome :=
  match listSkillFiles env (path skill) with
  | None => Rejected
  | Some files =>
      let flags := staticFlags env skill files ++ scanBehavior env skill in
      let totalScore := calculateScore flags in
      let recommendation := getRecommendation totalScore in
      Returned
        {| score := Z.min 100 totalScore;
           flags := flags;
           recommendation := recommendation;
           dependencyCount := countSource dependency flags;
           astCount := countSource ast flags;
           behaviorCount := countSource behavior flags |}
  end.

End Scanner.

(** ** What the two runtime guards share in the model *)

Module Guard.

(** The process a guard is loaded into: its variables at load time, the
    canonicalisation of paths, the platform test, and the audit path under
    the home directory.  A runtime is one process: [resolve] is
    [path.resolve] where the Node guard is loaded and [os.path.abspath]
    where the Python guard is, and the two functions differ (the second
    keeps two leading slashes), so that nothing is stated that compares
    the paths of the two guards. *)
Record Runtime := mkRuntime {
  environ : string → option string;
  resolve : string → string;
  win32 : bool;
  homeAuditPath : string;
}.

(** [path.sep] / [os.sep] *)
Definition sep (rt : Runtime) : string := if win32 rt then "\" else "/".

Record Config := mkConfig {
  blockShell : bool;
  blockNetwork : bool;
  blockFsWrite : bool;
  blockSecrets : bool;
  allowedDirs : list string;
  allowedDomains : list string;
  allowedEnv : list string;
}.

(** What both guards set up when they are loaded. *)
Record Guard := mkGuard {
  rt : Runtime;
  auditPath : string;
  auditLevel : string;
  skillId : option string;
  skillName : option string;
  config : Config;
}.

(** A thrown error: its class, its message and its [code] property. *)
Record Exn := mkExn {
  exn_class : string;
  exn_message : string;
  exn_code : option string;
}.

(** An audit record, without its random id and its time stamp. *)
Record AuditEntry := mkEntry {
  action : string;
  result : string;
  entrySkillId : option string;
  entrySkillName : option string;
  details : list (string * option string);
}.

(** A call that reached an original, unpatched function. *)
Record Call := mkCall { call_fn : string; call_arg : option string }.

(** The state a guarded process acts on: the audit file (absent, or its
    records), the outcomes of the coming writes to it ([true]: the write
    throws), the original calls made so far, and the environment. *)
Record World := mkWorld {
  auditFile : option (list AuditEntry);
  faults : list bool;
  performed : list Call;
  variables : gmap string string;
}.

Inductive Completion (A : Type) : Type :=
| Normal (a : A)
| Throw (e : Exn).
Arguments Normal {A} a.
Arguments Throw {A} e.

Definition M (A : Type) : Type := World → Completion A * World.

Definition ret {A} (a : A) : M A := λ w, (Normal a, w).
Definition throw {A} (e : Exn) : M A := λ w, (Throw e, w).
Definition bind {A B} (m : M A) (k : A → M B) : M B :=
  λ w, match m w with
       | (Normal a, w') => k a w'
       | (Throw e, w') => (Throw e, w')
       end.
(** [try { m } catch (e) { h e }] *)
Definition try_catch {A} (m : M A) (h : Exn → M A) : M A :=
  λ w, match m w with
       | (Normal a, w') => (Normal a, w')
       | (Throw e, w') => h e w'
       end.

Notation "'let!' x ':=' m 'in' k" := (bind m (λ x, k))
  (at level 10, x name, m at level 100, k at level 200).
Notation "m ';;' k" := (bind m (λ _, k)) (at level 100, k at level 200, right associativity).

Definition ioError : Exn := mkExn "Error" "write failed" None.

Definition nextFault : M bool :=
  λ w, match faults w with
       | [] => (Normal false, w)
       | b :: rest => (Normal b, mkWorld (auditFile w) rest (performed w) (variables w))
       end.

(** Creating the empty audit file (with its directory). *)
Definition createAuditFile : M unit :=
  let! fault := nextFault in
  if fault : bool then throw ioError
  else λ w, (Normal (), mkWorld (Some []) (faults w) (performed w) (variables w)).

(** Appending one record to the audit file. *)
Definition appendAuditFile (entry : AuditEntry) : M unit :=
  let! fault := nextFault in
  if fault : bool then throw ioError
  else λ w, (Normal (), mkWorld (Some (default [] (auditFile w) ++ [entry]))
                           (faults w) (performed w) (variables w)).

Definition auditExists : M bool := λ w, (Normal (bool_decide (is_Some (auditFile w))), w).

(** The original function runs. *)
Definition perform {A} (c : Call) (a : A) : M A :=
  λ w, (Normal a, mkWorld (auditFile w) (faults w) (performed w ++ [c]) (variables w)).

Definition readVariable (key : string) : M (option string) :=
  λ w, (Normal (variables w !! key), w).

Definition writeVariable (key value : string) : M unit :=
  λ w, (Normal (), mkWorld (auditFile w) (faults w) (performed w) (<[key := value]> (variables w))).

Definition deleteVariable (key : string) : M unit :=
  λ w, (Normal (), mkWorld (auditFile w) (faults w) (performed w) (delete key (variables w))).

End Guard.

(** ** node-guard.ts *)

Module NodeGuard.
Import Guard.

Definition isSeparator (c : ascii) : bool :=
  Ascii.eqb c (ascii_of_nat 44) || Ascii.eqb c (ascii_of_nat 59).

(** [value.split(/[,;]+/).map(v => v.trim()).filter(Boolean)]: splitting at
    every separator rather than at every run of them only adds empty
    pieces, which the filter drops. *)
Definition parseList (value : option string) : list string :=
  match value with
  | None => []
  | Some v =>
      if negb (Str.nonempty v) then []
      else filter (λ x, x ≠ EmptyString) (map Str.trim (Str.splitBy isSeparator v))
  end.

Definition envBool (rt : Runtime) (key : string) (fallback : bool) : bool :=
  match environ rt key with
  | None => fallback
  | Some value =>
      String.eqb value "1" || String.eqb (Str.toLowerCase value) "true"
      || String.eqb (Str.toLowerCase value) "yes"
  end.

(** [a || b] on strings *)
Definition orElse (a : option string) (b : string) : string :=
  match a with
  | Some v => if Str.nonempty v then v else b
  | None => b
  end.

Definition load (rt : Runtime) : Guard :=
  {| Guard.rt := rt;
     auditPath := orElse (environ rt "CLAWSHIELD_AUDIT_PATH") (homeAuditPath rt);
     auditLevel := Str.toLowerCase (orElse (environ rt "CLAWSHIELD_AUDIT_LEVEL") "blocked");
     skillId := environ rt "CLAWSHIELD_SKILL_ID";
     skillName := environ rt "CLAWSHIELD_SKILL_NAME";
     config :=
       {| blockShell := envBool rt "CLAWSHIELD_BLOCK_SHELL" true;
          blockNetwork := envBool rt "CLAWSHIELD_BLOCK_NETWORK" false;
          blockFsWrite := envBool rt "CLAWSHIELD_BLOCK_FS_WRITE" false;
          blockSecrets := envBool rt "CLAWSHIELD_BLOCK_SECRETS" false;
          allowedDirs := parseList (environ rt "CLAWSHIELD_ALLOWED_DIRS");
          allowedDomains := parseList (environ rt "CLAWSHIELD_ALLOWED_DOMAINS");
          allowedEnv := parseList (environ rt "CLAWSHIELD_ALLOWED_ENV") |} |}.

Definition normalizePath (rt : Runtime) (value : string) : string :=
  let resolved := resolve rt value in
  if win32 rt then Str.toLowerCase resolved else resolved.

Definition allowedDirSet (g : Guard) : gset string :=
  list_to_set (map (normalizePath (rt g)) (allowedDirs (config g))).

(** The audit file is set up inside its own [try].  The writes of the
    guard itself pass its patched functions.  With the filesystem block
    off and an audit level other than [all] these do nothing but call the
    originals, which is what the model follows; otherwise a patched
    function may deny the creation of the directory of the audit file, or
    record the write it lets through, and so enter the audit write again,
    which the model does not follow.  What is stated of the audit write
    for every guard is what holds either way: it throws nothing and
    reaches no original but those of its own file. *)
Definition ensureAuditFile : M unit :=
  try_catch
    (let! there := auditExists in
     if there : bool then ret () else createAuditFile)
    (λ _, ret ()).

(** The record is built and appended inside one [try] whose [catch] is
    empty. *)
Definition writeAudit (g : Guard) (action result : string)
    (details : list (string * option string)) : M unit :=
  try_catch
    (ensureAuditFile ;;
     appendAuditFile (mkEntry action result (skillId g) (skillName g) details))
    (λ _, ret ()).

Definition shouldLogAll (g : Guard) : bool := String.eqb (auditLevel g) "all".

Definition logAllowed (g : Guard) (details : list (string * option string)) : M unit :=
  if shouldLogAll g then writeAudit g "runtime" "success" details else ret ().

Definition logBlocked (g : Guard) (details : list (string * option string)) : M unit :=
  writeAudit g "runtime" "blocked" details.

Definition isPathAllowed (g : Guard) (targetPath : option string) : bool :=
  match targetPath with
  | None => false
  | Some target =>
      if negb (Str.nonempty target) then false
      else
        let resolved := normalizePath (rt g) target in
        let auditResolved := normalizePath (rt g) (auditPath g) in
        if String.eqb resolved auditResolved then true
        else if bool_decide (size (allowedDirSet g) = 0%nat) then false
        else existsb (λ allowed,
                        String.eqb resolved allowed
                        || Str.startsWith resolved (allowed +:+ sep (rt g)))
                     (elements (allowedDirSet g))
  end.

Definition isDomainAllowed (g : Guard) (host : option string) : bool :=
  match host with
  | None => false
  | Some h =>
      if negb (Str.nonempty h) then false
      else
        let hostname := Str.before ":" (Str.toLowerCase h) in
        if bool_decide (length (allowedDomains (config g)) = 0%nat) then false
        else existsb (λ domain,
                        let d := Str.toLowerCase domain in
                        String.eqb hostname d || Str.endsWith hostname ("." +:+ d))
                     (allowedDomains (config g))
  end.

Definition blockedError (message : string) : Exn :=
  mkExn "Error" message (Some "CLAWSHIELD_BLOCKED").

(** *** process.env behind the proxy *)

Definition defaultAllowed (g : Guard) : gset string :=
  list_to_set ["PATH"; "HOME"; "USER"; "SHELL"; "TMPDIR"; "TEMP"; "TMP"; "LANG";
               "NODE_ENV"; "NODE_OPTIONS"]
  ∪ list_to_set (allowedEnv (config g)).

(** [process.env[prop]] *)
Definition envGet (g : Guard) (prop : string) : M (option string) :=
  if blockSecrets (config g) && negb (bool_decide (prop ∈ defaultAllowed g)) then
    logBlocked g [("kind", Some "env"); ("key", Some prop)] ;;
    ret None
  else readVariable prop.

(** The TypeError of the runtime when a property of [process.env] is
    defined by a descriptor that names the value alone; its message is the
    runtime's. *)
Definition defineError : Exn := mkExn "TypeError" "process.env: invalid property descriptor" None.

(** [process.env[prop] = value]; a trap that returns [false] makes the
    assignment throw in [strict] code and is ignored otherwise.  For a
    name that is let through the trap calls [Reflect.set] with the proxy
    as the receiver: a variable that exists is then not assigned but
    defined on the receiver by its value alone, which [process.env]
    refuses, so that the assignment throws and the environment stays as
    it was; a variable that does not exist is created.  Without the proxy
    the assignment is the plain one. *)
Definition envSet (g : Guard) (strict : bool) (prop value : string) : M unit :=
  if blockSecrets (config g) && negb (bool_decide (prop ∈ defaultAllowed g)) then
    logBlocked g [("kind", Some "env_set"); ("key", Some prop)] ;;
    if strict then throw (mkExn "TypeError" "'set' on proxy: trap returned falsish" None)
    else ret ()
  else if blockSecrets (config g) then
    let! current := readVariable prop in
    match current with
    | Some _ => throw defineError
    | None => writeVariable prop value
    end
  else writeVariable prop value.

(** *** child_process *)

Definition blocked : list string :=
  ["exec"; "execSync"; "spawn"; "spawnSync"; "execFile"; "execFileSync"; "fork"].

Definition childProcess (g : Guard) (fn : string) : M unit :=
  if blockShell (config g) && JS.has blocked fn then
    logBlocked g [("kind", Some "shell"); ("fn", Some fn)] ;;
    throw (blockedError ("ClawShield blocked shell execution: " +:+ fn))
  else perform (mkCall fn None) ().

(** *** fs: the function installed by [wrapWrite] (and [wrapWriteAsync]) *)

Definition wrapWrite (g : Guard) (fnName : string) (target : option string) : M unit :=
  if blockFsWrite (config g) && negb (isPathAllowed g target) then
    logBlocked g [("kind", Some "fs_write"); ("fn", Some fnName); ("target", target)] ;;
    throw (blockedError ("ClawShield blocked filesystem write: "
                         +:+ default "undefined" target))
  else
    logAllowed g [("kind", Some "fs_write"); ("fn", Some fnName); ("target", target)] ;;
    perform (mkCall fnName target) ().

(** *** network *)

Definition networkAllowed (g : Guard) (host : option string) : bool :=
  if bool_decide (0 < length (allowedDomains (config g)))%nat then isDomainAllowed g host
  else negb (blockNetwork (config g)).

Definition handleNetwork (g : Guard) (host : option string)
    (details : list (string * option string)) : M unit :=
  let allowed := networkAllowed g host in
  if negb allowed then
    logBlocked g (("kind", Some "network") :: ("host", host) :: details) ;;
    throw (blockedError ("ClawShield blocked network access: " +:+ default "unknown" host))
  else logAllowed g (("kind", Some "network") :: ("host", host) :: details).

(** [http.request], [http.get], [https.request], [https.get], and likewise
    [net.connect] and [tls.connect]: the host is checked, then the original
    runs. *)
Definition wrapRequest (g : Guard) (module fnName : string) (host : option string) : M unit :=
  handleNetwork g host [("fn", Some fnName); ("module", Some module)] ;;
  perform (mkCall (module +:+ "." +:+ fnName) host) ().

(** [globalThis.fetch] *)
Definition fetch (g : Guard) (host : option string) : M unit :=
  handleNetwork g host [("fn", Some "fetch")] ;;
  perform (mkCall "fetch" host) ().

End NodeGuard.

(** ** The Python guard (PY_GUARD) *)

Module PyGuard.
Import Guard.

Definition _parse_list (value : option string) : list string :=
  match value with
  | None => []
  | Some v =>
      if negb (Str.nonempty v) then []
      else filter (λ x, x ≠ EmptyString)
             (map Str.py_strip (Str.splitBy NodeGuard.isSeparator v))
  end.

Definition _env_bool (rt : Runtime) (key : string) (fallback : bool) : bool :=
  match environ rt key with
  | None => fallback
  | Some value => JS.has ["1"; "true"; "yes"; "on"] (Str.toLowerCase value)
  end.

Definition load (rt : Runtime) : Guard :=
  {| Guard.rt := rt;
     auditPath := default (homeAuditPath rt) (environ rt "CLAWSHIELD_AUDIT_PATH");
     auditLevel := Str.toLowerCase (default "blocked" (environ rt "CLAWSHIELD_AUDIT_LEVEL"));
     skillId := environ rt "CLAWSHIELD_SKILL_ID";
     skillName := environ rt "CLAWSHIELD_SKILL_NAME";
     config :=
       {| blockShell := _env_bool rt "CLAWSHIELD_BLOCK_SHELL" true;
          blockNetwork := _env_bool rt "CLAWSHIELD_BLOCK_NETWORK" false;
          blockFsWrite := _env_bool rt "CLAWSHIELD_BLOCK_FS_WRITE" false;
          blockSecrets := _env_bool rt "CLAWSHIELD_BLOCK_SECRETS" false;
          allowedDirs := _parse_list (environ rt "CLAWSHIELD_ALLOWED_DIRS");
          allowedDomains := _parse_list (environ rt "CLAWSHIELD_ALLOWED_DOMAINS");
          allowedEnv := _parse_list (environ rt "CLAWSHIELD_ALLOWED_ENV") |} |}.

(** As in the Node guard: [os.makedirs] and [open] are the patched ones,
    followed here where they do nothing but call the originals. *)
Definition _ensure_audit_file : M unit :=
  try_catch
    (let! there := auditExists in
     if there : bool then ret () else createAuditFile)
    (λ _, ret ()).

Definition _write_audit (g : Guard) (action result : string)
    (details : list (string * option string)) : M unit :=
  try_catch
    (_ensure_audit_file ;;
     appendAuditFile (mkEntry action result (skillId g) (skillName g) details))
    (λ _, ret ()).

Definition _log_allowed (g : Guard) (details : list (string * option string)) : M unit :=
  if String.eqb (auditLevel g) "all" then _write_audit g "runtime" "success" details
  else ret ().

Definition _log_blocked (g : Guard) (details : list (string * option string)) : M unit :=
  _write_audit g "runtime" "blocked" details.

Definition _norm_path (rt : Runtime) (value : string) : string :=
  let resolved := resolve rt value in
  if win32 rt then Str.toLowerCase resolved else resolved.

Definition _is_path_allowed (g : Guard) (value : string) : bool :=
  if negb (Str.nonempty value) then false
  else
    let resolved := _norm_path (rt g) value in
    let audit_resolved := _norm_path (rt g) (auditPath g) in
    if String.eqb resolved audit_resolved then true
    else if bool_decide (allowedDirs (config g) = []) then false
    else existsb (λ base,
                    let base_resolved := _norm_path (rt g) base in
                    String.eqb resolved base_resolved
                    || Str.startsWith resolved (base_resolved +:+ sep (rt g)))
                 (allowedDirs (config g)).

Definition _is_domain_allowed (g : Guard) (host : option string) : bool :=
  match host with
  | None => false
  | Some h =>
      if negb (Str.nonempty h) then false
      else
        let hostname := Str.toLowerCase (Str.before ":" h) in
        if bool_decide (allowedDomains (config g) = []) then false
        else existsb (λ domain,
                        let d := Str.toLowerCase domain in
                        String.eqb hostname d || Str.endsWith hostname ("." +:+ d))
                     (allowedDomains (config g))
  end.

Definition permissionError (message : string) : Exn := mkExn "PermissionError" message None.
Definition keyError (key : string) : Exn := mkExn "KeyError" key None.

(** *** _EnvironProxy, installed when BLOCK_SECRETS is set *)

Definition _default_allowed (g : Guard) : gset string :=
  list_to_set ["PATH"; "HOME"; "USER"; "SHELL"; "TMPDIR"; "TEMP"; "TMP"; "LANG"; "LC_ALL";
               "PYTHONPATH"; "VIRTUAL_ENV"; "NODE_ENV"; "PWD"]
  ∪ list_to_set (allowedEnv (config g)).

(** [os.environ[key]] *)
Definition environ_getitem (g : Guard) (key : string) : M string :=
  if blockSecrets (config g) && negb (bool_decide (key ∈ _default_allowed g)) then
    _log_blocked g [("kind", Some "env"); ("key", Some key)] ;;
    throw (keyError key)
  else
    let! v := readVariable key in
    match v with
    | Some x => ret x
    | None => throw (keyError key)
    end.

(** [os.environ.get(key, default)], which [os.getenv] becomes *)
Definition environ_get (g : Guard) (key : string) (dflt : option string) : M (option string) :=
  if blockSecrets (config g) && negb (bool_decide (key ∈ _default_allowed g)) then
    _log_blocked g [("kind", Some "env"); ("key", Some key)] ;;
    ret dflt
  else
    let! v := readVariable key in
    ret (match v with Some x => Some x | None => dflt end).

(** [os.environ[key] = value] *)
Definition environ_setitem (g : Guard) (key value : string) : M unit :=
  if blockSecrets (config g) && negb (bool_decide (key ∈ _default_allowed g)) then
    _log_blocked g [("kind", Some "env_set"); ("key", Some key)] ;;
    throw (permissionError "ClawShield blocked env set")
  else writeVariable key value.

(** [del os.environ[key]] *)
Definition environ_delitem (g : Guard) (key : string) : M unit :=
  if blockSecrets (config g) && negb (bool_decide (key ∈ _default_allowed g)) then
    _log_blocked g [("kind", Some "env_delete"); ("key", Some key)] ;;
    throw (permissionError "ClawShield blocked env delete")
  else
    let! v := readVariable key in
    match v with
    | Some _ => deleteVariable key
    | None => throw (keyError key)
    end.

(** [os.putenv(key, value)] *)
Definition putenv (g : Guard) (key value : string) : M unit :=
  if blockSecrets (config g) then
    _log_blocked g [("kind", Some "env_set"); ("key", Some key)]
  else perform (mkCall "putenv" (Some key)) ().

(** *** Shell guard: [os.system], [os.popen], [subprocess.*] *)

Definition _block_shell (g : Guard) (fn : string) : M unit :=
  if blockShell (config g) then
    _log_blocked g [("kind", Some "shell"); ("fn", Some fn)] ;;
    throw (permissionError "ClawShield blocked shell execution")
  else perform (mkCall fn None) ().

(** *** Filesystem write guard *)

Definition _guard_path_write (g : Guard) (target fn : string) : M unit :=
  if blockFsWrite (config g) && negb (_is_path_allowed g target) then
    _log_blocked g [("kind", Some "fs_write"); ("fn", Some fn); ("target", Some target)] ;;
    throw (permissionError "ClawShield blocked filesystem write")
  else _log_allowed g [("kind", Some "fs_write"); ("fn", Some fn); ("target", Some target)].

(** [open] in a writing mode, [os.open] with a writing flag, the wrapped
    functions of [os] and [shutil]: guard, then original. *)
Definition guarded_write (g : Guard) (fn_name path_value : string) : M unit :=
  _guard_path_write g path_value fn_name ;;
  perform (mkCall fn_name (Some path_value)) ().

(** *** Network guard *)

Definition network_allowed (g : Guard) (host : option string) : bool :=
  negb (blockNetwork (config g)) || _is_domain_allowed g host.

Definition _handle_network (g : Guard) (host : option string) (fn : string) : M unit :=
  let allowed := network_allowed g host in
  if negb allowed then
    _log_blocked g [("kind", Some "network"); ("fn", Some fn); ("host", host)] ;;
    throw (permissionError "ClawShield blocked network access")
  else _log_allowed g [("kind", Some "network"); ("fn", Some fn); ("host", host)].

(** [socket.connect] and [socket.create_connection]: the host is checked,
    then the original runs.  The original of [create_connection] itself
    calls the guarded [connect] with each address of the host, a call that
    is checked and may be denied in its turn; the model stops at the call
    of the original. *)
Definition guarded_connect (g : Guard) (fn : string) (host : option string) : M unit :=
  _handle_network g host fn ;;
  perform (mkCall fn host) ().

End PyGuard.

(** ** The properties, as the specification words them *)

Module Spec.
Import JS Shared Scanner.

(** *** Risk score *)

(** [count[c]]: the number of findings of category [c]. *)
Definition count (c : string) (findings : list RiskFlag) : Z :=
  Z.of_nat (length (filter (λ f, type f = c) findings)).

(** The distinct categories present. *)
Definition categories (findings : list RiskFlag) : list string :=
  remove_dups (type <$> findings).

(** The fixed weight table, unknown categories weighing 5. *)
Definition weight (c : string) : Q := default 5%Q (typeWeights !! c).

(** [weight[c] + min(count[c]-1, 3) * weight[c]/4] *)
Definition contribution (findings : list RiskFlag) (c : string) : Q :=
  (weight c + Qmin (inject_Z (count c findings - 1)) 3 * (weight c / 4))%Q.

Definition sumQ (l : list Q) : Q := foldr Qplus 0%Q l.

Definition total (findings : list RiskFlag) : Q :=
  sumQ (contribution findings <$> categories findings).

(** *** Uniqueness key of a finding *)

Definition key (f : RiskFlag) : string * option string * option nat * option string :=
  (type f, location f, line f, evidence f).

(** Uniqueness across all detectors, in every result of a scan. *)
Definition unique_findings (r : RiskScanResult) : Prop := NoDup (key <$> flags r).

Definition scan_unique (env : Env) (skill : Skill) : Prop :=
  ∀ r, scanSkill env skill = Returned r → unique_findings r.

(** *** Behaviour scan *)

(** The operation kind an audit record carries, [runtime] when it has none. *)
Definition kindOf (entry : json) : string :=
  match prop (orEmpty (prop entry "details")) "kind" with
  | Some (JStr k) => k
  | _ => "runtime"
  end.

(** A line that parses as JSON with action [runtime], the skill's id and
    result [blocked]. *)
Definition blockedLine (env : Env) (skill : Skill) (text : string) : bool :=
  match JSON_parse env text with
  | Some entry =>
      is_string (prop entry "action") "runtime"
      && is_string (prop entry "skillId") (id skill)
      && is_string (prop entry "result") "blocked"
  | None => false
  end.

(** Whether every value among the details of a record has a text: the
    one that does not is an object with a key [toString] of its own, alone
    or inside arrays. *)
Definition printable (env : Env) (entry : json) : bool :=
  forallb (λ '(k, v), bool_decide (is_Some (String_of (Number_toString env) v)))
          (Object_entries (orEmpty (prop entry "details"))).

(** The same with the defaults of the source: a result that is missing (or
    falsy) counts as [blocked], an empty id matches nothing, and the
    details must have a text. *)
Definition countedLine (env : Env) (skill : Skill) (text : string) : bool :=
  match JSON_parse env text with
  | Some entry =>
      is_string (prop entry "action") "runtime"
      && Str.nonempty (id skill)
      && is_string (prop entry "skillId") (id skill)
      && (is_string (prop entry "result") "blocked" || negb (truthy (prop entry "result")))
      && printable env entry
  | None => false
  end.

(** High for shell and network, medium otherwise. *)
Definition severityOf (kind : string) : Severity :=
  if bool_decide (kind = "shell" ∨ kind = "network") then high else medium.

Definition evidenceOf (env : Env) (entry : json) : string :=
  Str.slice0 180
    (Str.join " "
       (map (λ '(k, v), k +:+ "=" +:+ default "" (String_of (Number_toString env) v))
            (Object_entries (orEmpty (prop entry "details"))))).

(** The finding of one counted line. *)
Definition finding (env : Env) (text : string) : RiskFlag :=
  let entry := default JNull (JSON_parse env text) in
  mkFlag "runtime_blocked" (severityOf (kindOf entry))
    ("Runtime guard blocked " +:+ kindOf entry +:+ " action")
    (Some (auditPath env)) None (Some behavior) (Some (evidenceOf env entry)).

(** A line with a character that is not white space. *)
Definition nonBlank (text : string) : bool :=
  existsb (λ c, negb (Str.js_ws c)) (list_ascii_of_string text).

(** The non-blank lines of the audit trail, in the order of the file. *)
Definition trailLines (content : string) : list string :=
  filter (λ text, nonBlank text = true) (Str.split LF content).

(** One finding for exactly the blocked lines of the window. *)
Definition behavior_as_stated (env : Env) (skill : Skill) : Prop :=
  ∀ content,
    existsSync env (auditPath env) = true →
    readFile env (auditPath env) = Some content →
    scanBehavior env skill
    = finding env <$> filter (λ text, blockedLine env skill text = true)
                        (recentLines content).



End Spec.

Module GuardSpec.
Import Guard.

(** *** Path and domain allow-lists *)

(** [t] equals [d] or extends it followed by the separator. *)
Definition within (separator d t : string) : Prop :=
  t = d ∨ ∃ rest, t = d +:+ separator +:+ rest.

(** The host name compared: lower case, without what follows a colon. *)
Definition hostname (host : string) : string := Str.toLowerCase (Str.before ":" host).

(** [h] equals [d] or ends with a dot followed by [d]. *)
Definition subdomain (d h : string) : Prop :=
  h = d ∨ ∃ label, h = label +:+ "." +:+ d.

(** *** Guarded operations *)

(** The operations the Node guard intercepts. *)
Inductive NodeOp :=
| ChildProcess (fn : string)
| FsWrite (fnName : string) (target : option string)
| Request (module fnName : string) (host : option string)
| Fetch (host : option string)
| EnvGet (key : string)
| EnvSet (strict : bool) (key value : string).

(** The operations the Python guard intercepts. *)
Inductive PyOp :=
| PyShell (fn : string)
| PyWrite (fn target : string)
| PyConnect (fn : string) (host : option string)
| PyEnvGetItem (key : string)
| PyEnvGet (key : string) (dflt : option string)
| PyEnvSetItem (key value : string)
| PyEnvDelItem (key : string)
| PyPutenv (key value : string).

(** The wrapper an operation goes through. *)
Definition node_run (g : Guard) (op : NodeOp) : M (option string) :=
  match op with
  | ChildProcess fn => NodeGuard.childProcess g fn ;; ret None
  | FsWrite fnName target => NodeGuard.wrapWrite g fnName target ;; ret None
  | Request module fnName host => NodeGuard.wrapRequest g module fnName host ;; ret None
  | Fetch host => NodeGuard.fetch g host ;; ret None
  | EnvGet key => NodeGuard.envGet g key
  | EnvSet strict key value => NodeGuard.envSet g strict key value ;; ret None
  end.

(** The guard denies the operation: it takes the branch that logs
    [blocked]. *)
Definition node_denies (g : Guard) (op : NodeOp) : bool :=
  match op with
  | ChildProcess fn => blockShell (config g) && JS.has NodeGuard.blocked fn
  | FsWrite _ target => blockFsWrite (config g) && negb (NodeGuard.isPathAllowed g target)
  | Request _ _ host | Fetch host => negb (NodeGuard.networkAllowed g host)
  | EnvGet key | EnvSet _ key _ =>
      blockSecrets (config g) && negb (bool_decide (key ∈ NodeGuard.defaultAllowed g))
  end.

Definition py_run (g : Guard) (op : PyOp) : M (option string) :=
  match op with
  | PyShell fn => PyGuard._block_shell g fn ;; ret None
  | PyWrite fn target => PyGuard.guarded_write g fn target ;; ret None
  | PyConnect fn host => PyGuard.guarded_connect g fn host ;; ret None
  | PyEnvGetItem key => let! v := PyGuard.environ_getitem g key in ret (Some v)
  | PyEnvGet key dflt => PyGuard.environ_get g key dflt
  | PyEnvSetItem key value => PyGuard.environ_setitem g key value ;; ret None
  | PyEnvDelItem key => PyGuard.environ_delitem g key ;; ret None
  | PyPutenv key value => PyGuard.putenv g key value ;; ret None
  end.

Definition py_denies (g : Guard) (op : PyOp) : bool :=
  match op with
  | PyShell _ => blockShell (config g)
  | PyWrite _ target => blockFsWrite (config g) && negb (PyGuard._is_path_allowed g target)
  | PyConnect _ host => negb (PyGuard.network_allowed g host)
  | PyEnvGetItem key | PyEnvGet key _ | PyEnvSetItem key _ | PyEnvDelItem key =>
      blockSecrets (config g) && negb (bool_decide (key ∈ PyGuard._default_allowed g))
  | PyPutenv _ _ => blockSecrets (config g)
  end.

(** A step that leaves the original calls and the environment alone. *)
Definition quiet (w w' : World) : Prop :=
  performed w' = performed w ∧ variables w' = variables w.

(** An error reaches the caller and the original did not run. *)
Definition raised {A} (w : World) (out : Completion A * World) : Prop :=
  (∃ e, out.1 = Throw e) ∧ performed out.2 = performed w.

(** Every denied operation raises, whatever the coming writes do. *)
Definition every_denial_raises : Prop :=
  (∀ g w op, node_denies g op = true → raised w (node_run g op w))
  ∧ (∀ g w op, py_denies g op = true → raised w (py_run g op w)).

(** The operations whose denial is signalled by an error: all but the
    reads that answer [undefined] or the default, an assignment in sloppy
    code, and [os.putenv]. *)
Definition node_raising (op : NodeOp) : bool :=
  match op with
  | ChildProcess _ | FsWrite _ _ | Request _ _ _ | Fetch _ => true
  | EnvGet _ => false
  | EnvSet strict _ _ => strict
  end.

Definition py_raising (op : PyOp) : bool :=
  match op with
  | PyEnvGet _ _ | PyPutenv _ _ => false
  | _ => true
  end.

(** The path rule without the two special cases of the guards. *)
Definition path_rule (g : Guard) (allowed : bool) (target : string) : Prop :=
  allowed = true ↔
  ∃ d, d ∈ allowedDirs (config g)
       ∧ within (sep (rt g)) (NodeGuard.normalizePath (rt g) d)
                (NodeGuard.normalizePath (rt g) target).

(** The path rule of the guards: an empty target is refused, the audit
    file is always let through. *)
Definition guard_path_rule (g : Guard) (allowed : bool) (target : string) : Prop :=
  allowed = true ↔
  target ≠ EmptyString
  ∧ (NodeGuard.normalizePath (rt g) target = NodeGuard.normalizePath (rt g) (auditPath g)
     ∨ ∃ d, d ∈ allowedDirs (config g)
            ∧ within (sep (rt g)) (NodeGuard.normalizePath (rt g) d)
                     (NodeGuard.normalizePath (rt g) target)).

Definition domain_rule (g : Guard) (allowed : bool) (host : string) : Prop :=
  allowed = true ↔
  ∃ d, d ∈ allowedDomains (config g) ∧ subdomain (Str.toLowerCase d) (hostname host).

End GuardSpec.

(** ** Concrete processes, files and skills *)

Module Examples.
Import JS.

(** [path.resolve] on a POSIX host whose working directory is [cwd]. *)
Fixpoint normalize (stack segments : list string) : list string :=
  match segments with
  | [] => rev stack
  | s :: rest =>
      if String.eqb s "" || String.eqb s "." then normalize stack rest
      else if String.eqb s ".." then normalize (tail stack) rest
      else normalize (s :: stack) rest
  end.

Definition posix_resolve (cwd p : string) : string :=
  let full := if Str.startsWith p "/" then p else cwd +:+ "/" +:+ p in
  "/" +:+ Str.join "/" (normalize [] (Str.split "/" full)).

Definition home_audit : string := "/home/u/.clawshield/audit.jsonl".

Definition posix (vars : list (string * string)) : Guard.Runtime :=
  Guard.mkRuntime (λ k, assoc k vars) (posix_resolve "/work") false home_audit.

(** A guard on that host with a given policy. *)
Definition guardOf (cfg : Guard.Config) : Guard.Guard :=
  Guard.mkGuard (posix []) home_audit "blocked" (Some "demo") (Some "demo") cfg.

Definition policy (shell network fsWrite secrets : bool) (dirs domains : list string)
    : Guard.Config :=
  Guard.mkConfig shell network fsWrite secrets dirs domains [].

(** A fresh process whose audit writes fail as [faults] says. *)
Definition world (faults : list bool) : Guard.World :=
  Guard.mkWorld None faults [] (list_to_map [("API_KEY", "s3cret"); ("PATH", "/bin")]).

(** [JSON.stringify] on strings without escapes and on objects of them. *)
Fixpoint stringify (v : json) : string :=
  match v with
  | JNull => "null"
  | JBool true => "true"
  | JBool false => "false"
  | JNum _ => "0"
  | JStr s => dq +:+ s +:+ dq
  | JArr l => "[" +:+ Str.join "," (map stringify l) +:+ "]"
  | JObj l =>
      "{" +:+ Str.join "," (map (λ kv, dq +:+ kv.1 +:+ dq +:+ ":" +:+ stringify kv.2) l)
      +:+ "}"
  end.

(** A parser that knows the records of [known] by their text. *)
Definition parseKnown (known : list json) (text : string) : option json :=
  assoc text (map (λ v, (stringify v, v)) known).

Definition extname (p : string) : string :=
  match rev (Str.split "." p) with
  | ext :: _ :: _ => "." +:+ ext
  | _ => ""
  end.

(** A host with the given files, file listing, audit records to parse,
    pattern matcher and syntax trees. *)
Definition hostOf (files : list (string * string)) (listing : list (string * list string))
    (known : list json) (matcher : RegExp → string → bool)
    (trees : list (string * list Scanner.Node)) : Scanner.Env :=
  Scanner.mkEnv
    (λ pattern, Some (default [] (assoc pattern listing)))
    (λ _ _, Some [])
    (λ p, bool_decide (is_Some (assoc p files)))
    (λ p, assoc p files)
    (λ a b, a +:+ "/" +:+ b)
    extname
    matcher
    (λ content, assoc content trees)
    (parseKnown known)
    (λ _, "0")
    "/home/u/.clawshield".



(** An audit trail with the same blocked call recorded twice. *)
Definition shellRecord : json :=
  JObj [ ("action", JStr "runtime"); ("result", JStr "blocked"); ("skillId", JStr "demo");
         ("details", JObj [("kind", JStr "shell"); ("fn", JStr "exec")]) ].

(** A record of the same skill that carries no result. *)
Definition bareRecord : json :=
  JObj [ ("action", JStr "runtime"); ("skillId", JStr "demo");
         ("details", JObj [("kind", JStr "network"); ("host", JStr "evil.test")]) ].

Definition NL : string := String Scanner.LF EmptyString.

Definition demo : Scanner.Skill := Scanner.mkSkill "demo" "demo" "/skills/demo".

Definition repeatedHost : Scanner.Env :=
  hostOf [ ("/home/u/.clawshield/audit.jsonl",
            stringify shellRecord +:+ NL +:+ stringify shellRecord +:+ NL) ]
         [] [shellRecord] (λ _ _, false) [].

Definition bareHost : Scanner.Env :=
  hostOf [ ("/home/u/.clawshield/audit.jsonl", stringify bareRecord +:+ NL) ]
         [] [bareRecord] (λ _ _, false) [].

(** A skill of one script that spawns a process and reads the environment,
    with one blocked call on record. *)
Definition script : string :=
  "child_process.exec(cmd);" +:+ NL +:+ "fetch(process.env.URL);" +:+ NL.

Definition scriptTree : list Scanner.Node :=
  [ Scanner.CallExpression
      (Scanner.MemberExpr (Scanner.Identifier "child_process") (Scanner.Identifier "exec"))
      [Scanner.Identifier "cmd"] (Some 1%nat);
    Scanner.MemberExpression (Scanner.Identifier "child_process") (Scanner.Identifier "exec")
      (Some 1%nat);
    Scanner.CallExpression (Scanner.Identifier "fetch")
      [Scanner.MemberExpr
         (Scanner.MemberExpr (Scanner.Identifier "process") (Scanner.Identifier "env"))
         (Scanner.Identifier "URL")] (Some 2%nat);
    Scanner.MemberExpression
      (Scanner.MemberExpr (Scanner.Identifier "process") (Scanner.Identifier "env"))
      (Scanner.Identifier "URL") (Some 2%nat);
    Scanner.MemberExpression (Scanner.Identifier "process") (Scanner.Identifier "env")
      (Some 2%nat) ].

(** The patterns of the tables that match a line of [script]. *)
Definition scriptMatcher (r : RegExp) (text : string) : bool :=
  (String.eqb (pattern r) "child_process" && Str.includes text "child_process")
  || (String.eqb (pattern r) "\bexec\s*\(" && Str.includes text "exec(")
  || (String.eqb (pattern r) "\bfetch\s*\(" && Str.includes text "fetch(")
  || (String.eqb (pattern r) "process\.env\." && Str.includes text "process.env.").

Definition demoHost : Scanner.Env :=
  hostOf [ ("/skills/demo/index.js", script);
           ("/home/u/.clawshield/audit.jsonl", stringify shellRecord +:+ NL) ]
         [ ("/skills/demo/**/*.js", ["/skills/demo/index.js"]) ]
         [shellRecord] scriptMatcher [(script, scriptTree)].

End Examples.

(** ** Invariants of the detectors, used by the proofs *)

Module Inv.
Import JS Shared Scanner Spec.

(** The contribution of one entry of the count table. *)
Definition entryContribution (entry : string * Z) : Q :=
  (weightOf entry.1 + Qmin (inject_Z (entry.2 - 1)) 3 * (weightOf entry.1 / 4))%Q.

(** What tells the findings of one file apart: the category, and whether
    there is evidence. *)
Definition tag (f : RiskFlag) : string * bool :=
  (type f, bool_decide (is_Some (evidence f))).

(** The findings of one call of [checkPatterns]. *)
Definition patternFlags (filePath flagType : string) (flags : list RiskFlag) : Prop :=
  NoDup (line <$> flags)
  ∧ Forall (λ f, type f = flagType ∧ location f = Some filePath
                 ∧ evidence f = None ∧ source f = Some regex) flags.

(** The categories the syntax-tree visitors emit, with or without
    evidence. *)
Definition astTags : list (string * bool) :=
  [ ("sensitive_import", true); ("shell_execution", true); ("obfuscation", true);
    ("network_call", true); ("dynamic_require", false); ("filesystem_delete", true);
    ("filesystem_write", true); ("dynamic_import", false); ("credential_access", true) ].

(** The key under which [scanAst] remembers a finding. *)
Definition astKeyOf (filePath : string) (f : RiskFlag) : string :=
  astKey filePath (mkAstCall (type f) (severity f) (description f) (line f) (evidence f)).

Definition astInv (filePath : string) (st : list RiskFlag * gset string) : Prop :=
  NoDup (astKeyOf filePath <$> st.1)
  ∧ (∀ f, f ∈ st.1 → astKeyOf filePath f ∈ st.2)
  ∧ Forall (λ f, location f = Some filePath ∧ source f = Some ast ∧ tag f ∈ astTags) st.1.

(** The categories of the dependency scan. *)
Definition depTypes : list string :=
  ["dependency_script"; "dependency_unpinned"; "dependency_url"; "dependency_index";
   "native_binary"].

(** The key under which [scanDependencies] remembers a finding. *)
Definition depKeyOf (f : RiskFlag) : string :=
  depKey (mkDepCall (type f) (severity f) (description f) (location f) (evidence f)).

Definition depInv (st : list RiskFlag * gset string) : Prop :=
  NoDup (depKeyOf <$> st.1)
  ∧ (∀ f, f ∈ st.1 → depKeyOf f ∈ st.2)
  ∧ Forall (λ f, source f = Some dependency ∧ type f ∈ depTypes) st.1.

(** The findings of one file: distinct keys, one location, known tags. *)
Definition fileFlags (filePath : string) (tags : list (string * bool))
    (flags : list RiskFlag) : Prop :=
  NoDup (key <$> flags)
  ∧ Forall (λ f, location f = Some filePath ∧ source f ≠ Some behavior ∧ tag f ∈ tags) flags.

Definition fileTags : list (string * bool) :=
  [ ("shell_execution", false); ("filesystem_write", false); ("filesystem_delete", false);
    ("network_call", false); ("remote_script_exec", false); ("obfuscation", false);
    ("credential_access", false); ("suspicious_long_line", false) ] ++ astTags.

(** The findings of several files. *)
Definition filesFlags (files : list string) (flags : list RiskFlag) : Prop :=
  NoDup (key <$> flags)
  ∧ Forall (λ f, (∃ p, p ∈ files ∧ location f = Some p)
                 ∧ source f ≠ Some behavior ∧ tag f ∈ fileTags) flags.

End Inv.

(** ** The scanner: quantities the laws of the score and of the pattern
    scan are stated with *)

Module ScanLaws.
Import JS Shared Scanner Spec.

(** What one more finding adds to the total before rounding: the weight
    of a new category, a quarter of it for the second to the fourth
    finding of a category, nothing after. *)
Definition increment (fs : list RiskFlag) (f : RiskFlag) : Q :=
  if decide (count (type f) fs = 0) then weight (type f)
  else if decide (count (type f) fs < 4) then (weight (type f) / 4)%Q
  else 0%Q.

(** The names every object inherits from [Object.prototype].  The count
    table and the weight table of [calculateScore] are plain objects: read
    at one of these names they answer with the inherited member, and the
    score comes out as NaN, or the finding is not counted ([__proto__]).
    The tables of the model are finite maps, which agree with the objects
    at every other name. *)
Definition inherited : list string :=
  ["constructor"; "__defineGetter__"; "__defineSetter__"; "hasOwnProperty";
   "__lookupGetter__"; "__lookupSetter__"; "isPrototypeOf"; "propertyIsEnumerable";
   "toString"; "valueOf"; "__proto__"; "toLocaleString"].

(** Findings of which no category is an inherited name. *)
Definition plain (fs : list RiskFlag) : Prop := Forall (λ f, type f ∉ inherited) fs.


End ScanLaws.

(** ** skill-discovery.ts: the id and the description of a skill *)

Module Discovery.

Definition alphabet : string :=
  "ABCDEFGHIJKLMNOPQRSTUVWXYZabcdefghijklmnopqrstuvwxyz0123456789-_".

(** The character of a group of six bits. *)
Definition sextet (n : N) : ascii :=
  default "A"%char (String.get (N.to_nat (N.land n 63)) alphabet).

(** The bytes [Buffer.from(s)] holds, the UTF-8 form of [s]: one byte for
    a code unit below 128, two for one from 128 to 255. *)
Fixpoint utf8 (s : string) : string :=
  match s with
  | EmptyString => EmptyString
  | String c rest =>
      let n := N_of_ascii c in
      if (n <? 128)%N then String c (utf8 rest)
      else String (ascii_of_N (192 + N.shiftr n 6))
             (String (ascii_of_N (128 + N.land n 63)) (utf8 rest))
  end.

(** [toString('base64url')] of a buffer with the bytes [s]: three bytes
    give four characters, and the last group is not padded. *)
Fixpoint base64url (s : string) : string :=
  match s with
  | EmptyString => EmptyString
  | String a EmptyString =>
      let n := N.shiftl (N_of_ascii a) 16 in
      String (sextet (N.shiftr n 18)) (String (sextet (N.shiftr n 12)) EmptyString)
  | String a (String b EmptyString) =>
      let n := N.lor (N.shiftl (N_of_ascii a) 16) (N.shiftl (N_of_ascii b) 8) in
      String (sextet (N.shiftr n 18)) (String (sextet (N.shiftr n 12))
        (String (sextet (N.shiftr n 6)) EmptyString))
  | String a (String b (String c rest)) =>
      let n := N.lor (N.lor (N.shiftl (N_of_ascii a) 16) (N.shiftl (N_of_ascii b) 8))
                     (N_of_ascii c) in
      String (sextet (N.shiftr n 18)) (String (sextet (N.shiftr n 12))
        (String (sextet (N.shiftr n 6)) (String (sextet n) (base64url rest))))
  end.

(** The id [parseSkill] gives the skill at [skillPath], and the run
    command the skill it starts. *)
Definition skillId (skillPath : string) : string :=
  Str.slice0 16 (base64url (utf8 skillPath)).

(** The loop of [extractDescription] from a given line on, with the two
    variables it updates; both [break]s end it. *)
Fixpoint collect (foundContent : bool) (description : string) (lines : list string) : string :=
  match lines with
  | [] => description
  | line :: rest =>
      let trimmed := Str.trim line in
      if negb (Str.nonempty trimmed) || Str.startsWith trimmed "#" then
        if foundContent then description else collect foundContent description rest
      else
        let description :=
          description +:+ (if Str.nonempty description then " " else "") +:+ trimmed in
        if (200 <? String.length description)%nat then description
        else collect true description rest
  end.

Definition extractDescription (content : string) : string :=
  let description := Str.slice0 200 (collect false "" (Str.split Scanner.LF content)) in
  if Str.nonempty description then description else "No description available".

(** A line the loop passes over: blank, or a heading. *)
Definition passed (line : string) : Prop :=
  Str.trim line = "" ∨ Str.startsWith (Str.trim line) "#" = true.

End Discovery.

(** ** The guarded operations, their originals and their audit records *)

Module GuardLaws.
Import Guard GuardSpec.

(** The details of the record a denial writes. *)
Definition node_details (op : NodeOp) : list (string * option string) :=
  match op with
  | ChildProcess fn => [("kind", Some "shell"); ("fn", Some fn)]
  | FsWrite fnName target => [("kind", Some "fs_write"); ("fn", Some fnName); ("target", target)]
  | Request module fnName host =>
      [("kind", Some "network"); ("host", host); ("fn", Some fnName); ("module", Some module)]
  | Fetch host => [("kind", Some "network"); ("host", host); ("fn", Some "fetch")]
  | EnvGet key => [("kind", Some "env"); ("key", Some key)]
  | EnvSet _ key _ => [("kind", Some "env_set"); ("key", Some key)]
  end.

Definition py_details (op : PyOp) : list (string * option string) :=
  match op with
  | PyShell fn => [("kind", Some "shell"); ("fn", Some fn)]
  | PyWrite fn target => [("kind", Some "fs_write"); ("fn", Some fn); ("target", Some target)]
  | PyConnect fn host => [("kind", Some "network"); ("fn", Some fn); ("host", host)]
  | PyEnvGetItem key | PyEnvGet key _ => [("kind", Some "env"); ("key", Some key)]
  | PyEnvSetItem key _ | PyPutenv key _ => [("kind", Some "env_set"); ("key", Some key)]
  | PyEnvDelItem key => [("kind", Some "env_delete"); ("key", Some key)]
  end.

(** The record of a denial. *)
Definition blockedEntry (g : Guard) (details : list (string * option string)) : AuditEntry :=
  mkEntry "runtime" "blocked" (skillId g) (skillName g) details.

(** The records of the audit file, none when it is absent. *)
Definition trail (w : World) : list AuditEntry := default [] (auditFile w).

(** An entry of a list in the environment as [clawshield run] may pass
    it: not empty, free of commas and semicolons, and neither starting nor
    ending with a character that [ws] takes for white space. *)
Fixpoint lastChar (a : ascii) (s : string) : ascii :=
  match s with
  | EmptyString => a
  | String b s' => lastChar b s'
  end.


End GuardLaws.

Module TrailLaws.
Import Guard GuardLaws.

(** What one write of a record [e] may do to the state: nothing else
    than add [e] at the end of the trail, and it does add it when no
    write fails. *)
Definition recorded (e : AuditEntry) (w w' : World) : Prop :=
  performed w' = performed w ∧ variables w' = variables w
  ∧ (trail w' = trail w ∨ trail w' = trail w ++ [e])
  ∧ (faults w = [] → auditFile w' = Some (trail w ++ [e]) ∧ faults w' = []).

End TrailLaws.

(** ** types.ts: the stored configuration *)

Module Types.

Inductive DirectoryMode := read | readwrite.

#[export] Instance DirectoryMode_eq_dec : EqDecision DirectoryMode.
Proof. solve_decision. Defined.

Record DirectoryPermission := mkDir { dir_path : string; dir_mode : DirectoryMode }.

(** The default policy of a configuration. *)
Record Policy := mkPolicy {
  allowedDirs : list DirectoryPermission;
  allowedDomains : list string;
  blockShell : bool;
  blockSecrets : bool;
  blockNetwork : bool;
  blockFsWrite : bool;
}.

Record ClawShieldConfig := mkClawShieldConfig {
  openclawPath : option string;
  workspacePaths : list string;
  defaultPolicy : Policy;
  enabledSkills : list string;
  disabledSkills : list string;
}.

(** A policy some fields of which are left out, as in a request to
    update it and as the configuration file may hold it. *)
Record PartialPolicy := mkPartialPolicy {
  partial_allowedDirs : option (list DirectoryPermission);
  partial_allowedDomains : option (list string);
  partial_blockShell : option bool;
  partial_blockSecrets : option bool;
  partial_blockNetwork : option bool;
  partial_blockFsWrite : option bool;
}.

(** [{ ...base, ...partial }] *)
Definition merge (base : Policy) (partial : PartialPolicy) : Policy :=
  {| allowedDirs := default (allowedDirs base) (partial_allowedDirs partial);
     allowedDomains := default (allowedDomains base) (partial_allowedDomains partial);
     blockShell := default (blockShell base) (partial_blockShell partial);
     blockSecrets := default (blockSecrets base) (partial_blockSecrets partial);
     blockNetwork := default (blockNetwork base) (partial_blockNetwork partial);
     blockFsWrite := default (blockFsWrite base) (partial_blockFsWrite partial) |}.

(** The policy of a configuration that was never written. *)
Definition initialPolicy : Policy := mkPolicy [] [] true true false false.

End Types.

(** ** run.ts: the environment of a guarded skill *)

Module Run.
Import Types.

(** The object literal of defaults, overridden by the fields of the
    default policy that the configuration file holds. *)
Definition policy (stored : PartialPolicy) : Policy := merge initialPolicy stored.

(** What [loadConfig] of the command answers when there is no file, or
    one that it cannot read or parse. *)
Definition fallbackConfig : ClawShieldConfig :=
  mkClawShieldConfig None [] initialPolicy [] [].

(** [loadConfig] of the command on the file as the policy manager writes
    it: [JSON.parse] gives back the configuration that was written. *)
Definition loadConfig (file : option ClawShieldConfig) : ClawShieldConfig :=
  default fallbackConfig file.



Definition allowedWriteDirs (policy : Policy) : list string :=
  dir_path <$> filter (λ d, dir_mode d = readwrite) (allowedDirs policy).

Definition flag (b : bool) : string := if b then "1" else "0".

(** The variables the command sets, after those of its own process; for
    a Python entry [pythonPath] is the directory of the guard followed by
    the path delimiter. *)
Definition overrides (processEnv : string → option string) (policy : Policy)
    (auditPath : string) (audit : option string) (basename : string → string)
    (resolvedPath : string) (pythonPath : option string) : list (string * string) :=
  match pythonPath with
  | Some guardDir =>
      [("PYTHONPATH", guardDir +:+ NodeGuard.orElse (processEnv "PYTHONPATH") "")]
  | None => []
  end
  ++ [ ("CLAWSHIELD_BLOCK_SHELL", flag (blockShell policy));
       ("CLAWSHIELD_BLOCK_NETWORK", flag (blockNetwork policy));
       ("CLAWSHIELD_BLOCK_SECRETS", flag (blockSecrets policy));
       ("CLAWSHIELD_BLOCK_FS_WRITE", flag (blockFsWrite policy));
       ("CLAWSHIELD_ALLOWED_DIRS", Str.join ";" (allowedWriteDirs policy));
       ("CLAWSHIELD_ALLOWED_DOMAINS", Str.join "," (allowedDomains policy));
       ("CLAWSHIELD_AUDIT_PATH", auditPath);
       ("CLAWSHIELD_AUDIT_LEVEL", NodeGuard.orElse audit "blocked");
       ("CLAWSHIELD_SKILL_ID", Discovery.skillId resolvedPath);
       ("CLAWSHIELD_SKILL_NAME", basename resolvedPath) ].

(** [{ ...process.env, CLAWSHIELD_BLOCK_SHELL: ..., ... }] *)
Definition env (processEnv : string → option string) (policy : Policy)
    (auditPath : string) (audit : option string) (basename : string → string)
    (resolvedPath : string) (pythonPath : option string) : string → option string :=
  λ key,
    match JS.assoc key
            (overrides processEnv policy auditPath audit basename resolvedPath pythonPath) with
    | Some value => Some value
    | None => processEnv key
    end.


End Run.

Module RunLaws.
Import Types Run.


End RunLaws.

(** ** policy-manager.ts *)

Module PolicyManager.
Import Types.
Export Guard (Completion, Normal, Throw, Exn, mkExn).

(** The service: the configuration it holds in memory, the configuration
    file (absent, or the configuration last written), and the outcomes of
    the coming writes ([true]: the write throws). *)
Record Service := mkService {
  config : ClawShieldConfig;
  saved : option ClawShieldConfig;
  faults : list bool;
}.

Definition PM (A : Type) : Type := Service → Completion A * Service.

Definition ret {A} (a : A) : PM A := λ s, (Normal a, s).

Definition andThen {A B} (m : PM A) (k : PM B) : PM B :=
  λ s, match m s with
       | (Normal _, s') => k s'
       | (Throw e, s') => (Throw e, s')
       end.

(** An assignment to a field of [this.config]. *)
Definition assign (f : ClawShieldConfig → ClawShieldConfig) : PM unit :=
  λ s, (Normal (), mkService (f (config s)) (saved s) (faults s)).

Definition saveError : Exn := mkExn "Error" "Failed to save configuration" None.

Definition saveConfig : PM unit :=
  λ s, match faults s with
       | true :: rest => (Throw saveError, mkService (config s) (saved s) rest)
       | _ => (Normal (), mkService (config s) (Some (config s)) (tail (faults s)))
       end.

Definition setDefaultPolicy (p : Policy) (c : ClawShieldConfig) : ClawShieldConfig :=
  mkClawShieldConfig (openclawPath c) (workspacePaths c) p (enabledSkills c) (disabledSkills c).
Definition setEnabledSkills (l : list string) (c : ClawShieldConfig) : ClawShieldConfig :=
  mkClawShieldConfig (openclawPath c) (workspacePaths c) (defaultPolicy c) l (disabledSkills c).
Definition setDisabledSkills (l : list string) (c : ClawShieldConfig) : ClawShieldConfig :=
  mkClawShieldConfig (openclawPath c) (workspacePaths c) (defaultPolicy c) (enabledSkills c) l.
Definition setAllowedDomains (l : list string) (p : Policy) : Policy :=
  mkPolicy (allowedDirs p) l (blockShell p) (blockSecrets p) (blockNetwork p)
    (blockFsWrite p).

(** [l.push(x)] unless [l.includes(x)] *)
Definition pushNew (x : string) (l : list string) : list string :=
  if bool_decide (x ∈ l) then l else l ++ [x].

(** [l.filter(y => y !== x)] *)
Definition without (x : string) (l : list string) : list string :=
  filter (λ y, y ≠ x) l.




Definition isSkillEnabled (s : Service) (skillId : string) : bool :=
  if bool_decide (skillId ∈ disabledSkills (config s)) then false
  else if bool_decide (skillId ∈ enabledSkills (config s)) then true
  else true.

Definition enableSkill (skillId : string) : PM unit :=
  andThen
    (andThen (assign (λ c, setDisabledSkills (without skillId (disabledSkills c)) c))
             (assign (λ c, setEnabledSkills (pushNew skillId (enabledSkills c)) c)))
    saveConfig.

Definition disableSkill (skillId : string) : PM unit :=
  andThen
    (andThen (assign (λ c, setEnabledSkills (without skillId (enabledSkills c)) c))
             (assign (λ c, setDisabledSkills (pushNew skillId (disabledSkills c)) c)))
    saveConfig.




Definition addAllowedDomain (domain : string) : PM unit :=
  λ s, if bool_decide (domain ∈ allowedDomains (defaultPolicy (config s))) then ret () s
       else andThen
              (assign (λ c,
                 setDefaultPolicy
                   (setAllowedDomains (allowedDomains (defaultPolicy c) ++ [domain])
                      (defaultPolicy c)) c))
              saveConfig s.

Definition removeAllowedDomain (domain : string) : PM unit :=
  andThen
    (assign (λ c,
       setDefaultPolicy
         (setAllowedDomains (without domain (allowedDomains (defaultPolicy c)))
            (defaultPolicy c)) c))
    saveConfig.





End PolicyManager.

Module PolicyLaws.
Import Types PolicyManager.

(** No skill is listed twice, and none is both enabled and disabled. *)
Definition apart (c : ClawShieldConfig) : Prop :=
  NoDup (enabledSkills c) ∧ NoDup (disabledSkills c)
  ∧ enabledSkills c ## disabledSkills c.


End PolicyLaws.

(** ** audit-logger.ts *)

Module AuditLogger.
Import JS.

(** The file system as the service sees it: the audit file (absent, or
    its text), whether reading it succeeds, and the outcomes of the
    coming writes ([true]: the write throws). *)
Record Disk := mkDisk {
  file : option string;
  readable : bool;
  faults : list bool;
}.

(** [JSON.stringify] and [JSON.parse]. *)
Record Json := mkJson {
  stringify : json → string;
  parse : string → option json;
}.

Definition NL : string := String Scanner.LF EmptyString.

Definition optional (key : string) (value : option string) : list (string * json) :=
  match value with
  | Some v => [(key, JStr v)]
  | None => []
  end.

(** The entry [log] builds, given the id and the time it draws; a skill
    id or name that is not passed is [undefined] and has no key. *)
Definition entry (id timestamp action result : string) (details : json)
    (skillId skillName : option string) : json :=
  JObj ([("id", JStr id); ("timestamp", JStr timestamp); ("action", JStr action)]
        ++ optional "skillId" skillId ++ optional "skillName" skillName
        ++ [("details", details); ("result", JStr result)]).

(** [fs.appendFileSync(this.auditPath, text)] inside its [try]. *)
Definition append (text : string) (d : Disk) : Disk :=
  match faults d with
  | true :: rest => mkDisk (file d) (readable d) rest
  | _ => mkDisk (Some (default "" (file d) +:+ text)) (readable d) (tail (faults d))
  end.

Definition log (J : Json) (id timestamp action result : string) (details : json)
    (skillId skillName : option string) (d : Disk) : json * Disk :=
  let entry := entry id timestamp action result details skillId skillName in
  (entry, append (stringify J entry +:+ NL) d).

Definition logScan (J : Json) (id timestamp skillId skillName : string) (score : Q)
    (flags : list string) : Disk → json * Disk :=
  log J id timestamp "scan" "success"
    (JObj [("score", JNum score); ("flagCount", JNum (inject_Z (Z.of_nat (length flags))));
           ("flags", JArr (JStr <$> take 5 flags))])
    (Some skillId) (Some skillName).

Definition logInstall (J : Json) (id timestamp skillId skillName source : string)
    : Disk → json * Disk :=
  log J id timestamp "install" "success" (JObj [("source", JStr source)])
    (Some skillId) (Some skillName).

Definition logBlock (J : Json) (id timestamp skillId skillName reason : string)
    : Disk → json * Disk :=
  log J id timestamp "block" "blocked" (JObj [("reason", JStr reason)])
    (Some skillId) (Some skillName).

Definition logPolicyChange (J : Json) (id timestamp : string) (change : json)
    : Disk → json * Disk :=
  log J id timestamp "policy_change" "success" change None None.

Definition logToggle (J : Json) (id timestamp skillId skillName : string) (enabled : bool)
    : Disk → json * Disk :=
  log J id timestamp (if enabled then "enable" else "disable") "success"
    (JObj [("enabled", JBool enabled)]) (Some skillId) (Some skillName).

(** [content.trim().split('\n').filter(line => line.length > 0)] *)
Definition lines (content : string) : list string :=
  filter (λ line, (0 < String.length line)%nat) (Str.split Scanner.LF (Str.trim content)).

(** The loop of [getRecentEntries] over the lines it has yet to visit,
    the last line of the file first. *)
Fixpoint recent (J : Json) (limit : Z) (entries : list json) (pending : list string)
    : list json :=
  match pending with
  | [] => entries
  | line :: rest =>
      if Z.of_nat (length entries) <? limit then
        recent J limit
          (match parse J line with
           | Some e => entries ++ [e]
           | None => entries
           end) rest
      else entries
  end.

Definition getRecentEntries (J : Json) (limit : Z) (d : Disk) : list json :=
  match file d with
  | None => []
  | Some content =>
      if readable d then recent J limit [] (rev (lines content)) else []
  end.

Definition getAllEntries (J : Json) (d : Disk) : list json := getRecentEntries J 10000 d.

Definition clear (d : Disk) : Disk :=
  match faults d with
  | true :: rest => mkDisk (file d) (readable d) rest
  | _ => mkDisk (Some "") (readable d) (tail (faults d))
  end.

End AuditLogger.

Module LoggerLaws.
Import JS AuditLogger.

(** A text that is empty or ends with a line break. *)
Definition ended (content : string) : Prop :=
  content = "" ∨ ∃ before, content = before +:+ NL.

(** A text of one line that neither starts nor ends with white space. *)
Definition oneLine (text : string) : bool :=
  match text with
  | EmptyString => false
  | String a s =>
      negb (Str.js_ws a) && negb (Str.js_ws (GuardLaws.lastChar a s))
      && forallb (λ c, negb (Ascii.eqb Scanner.LF c)) (list_ascii_of_string text)
  end.

(** The entries the five logging calls of the service return and write. *)
Inductive written (J : Json) (d : Disk) : json → Prop :=
| written_scan id timestamp skillId skillName score flags :
    written J d (logScan J id timestamp skillId skillName score flags d).1
| written_install id timestamp skillId skillName source :
    written J d (logInstall J id timestamp skillId skillName source d).1
| written_block id timestamp skillId skillName reason :
    written J d (logBlock J id timestamp skillId skillName reason d).1
| written_policy_change id timestamp change :
    written J d (logPolicyChange J id timestamp change d).1
| written_toggle id timestamp skillId skillName enabled :
    written J d (logToggle J id timestamp skillId skillName enabled d).1.

End LoggerLaws.

(** ** The records of the guards, as the scanner reads them back *)

Module Trail.
Import JS Guard.

(** The members of the details that are defined. *)
Definition defined (details : list (string * option string)) : list (string * json) :=
  details ≫= λ '(key, value), AuditLogger.optional key value.

(** What [JSON.parse] gives for a record written by the Node guard,
    whatever values its details hold: the host of a network record is what
    [extractHost] returned and the target of a write is the argument of
    the call, neither of them checked to be a string.  [JSON.stringify]
    leaves out the members that are [undefined]. *)
Definition nodeRecord (id timestamp action result : string)
    (skillId skillName : option string) (details : list (string * json)) : json :=
  JObj ([("id", JStr id); ("timestamp", JStr timestamp); ("action", JStr action);
         ("result", JStr result)]
        ++ AuditLogger.optional "skillId" skillId
        ++ AuditLogger.optional "skillName" skillName
        ++ [("details", JObj details)]).

Definition orNull (value : option string) : json :=
  match value with
  | Some v => JStr v
  | None => JNull
  end.

(** The same for the Python guard: [json.dumps] writes [None] as [null]. *)
Definition pyRecord (id timestamp action result : string)
    (skillId skillName : option string) (details : list (string * json)) : json :=
  JObj [("id", JStr id); ("timestamp", JStr timestamp); ("action", JStr action);
        ("result", JStr result); ("skillId", orNull skillId);
        ("skillName", orNull skillName); ("details", JObj details)].

(** The records of the operations of the model, whose arguments are
    strings or missing. *)
Definition nodeJson (id timestamp : string) (e : AuditEntry) : json :=
  nodeRecord id timestamp (action e) (result e) (entrySkillId e) (entrySkillName e)
    (defined (details e)).

Definition pyJson (id timestamp : string) (e : AuditEntry) : json :=
  pyRecord id timestamp (action e) (result e) (entrySkillId e) (entrySkillName e)
    (map (λ '(key, value), (key, orNull value)) (details e)).

(** [String] converts every value of these details. *)
Definition convertible (env : Scanner.Env) (details : list (string * json)) : Prop :=
  Forall (λ kv, is_Some (String_of (Scanner.Number_toString env) kv.2)) details.

End Trail.

(** ** routes/preflight.ts: the install decision *)

Module Preflight.
Import Shared Scanner.

Definition hasType (flagType : string) (flags : list RiskFlag) : bool :=
  existsb (λ f, String.eqb (type f) flagType) flags.

Definition shellReason : string :=
  "Skill executes shell commands and shell execution is blocked by policy".
Definition networkReason : string :=
  "Skill makes network calls and network access is blocked by policy".
Definition scoreReason : string := "High risk score - manual review required".

(** [canInstall] and [blockReason] after the checks of the scan result
    against the default policy. *)
Definition decision (policy : Types.Policy) (risk : RiskScanResult) : bool * option string :=
  let canInstall := true in
  let blockReason : option string := None in
  let '(canInstall, blockReason) :=
    if WARNING_MAX <? score risk then
      let '(canInstall, blockReason) :=
        if Types.blockShell policy && hasType "shell_execution" (flags risk)
        then (false, Some shellReason) else (canInstall, blockReason) in
      if Types.blockNetwork policy && hasType "network_call" (flags risk)
      then (false, Some networkReason) else (canInstall, blockReason)
    else (canInstall, blockReason) in
  match recommendation risk with
  | block => (false, Some (NodeGuard.orElse blockReason scoreReason))
  | _ => (canInstall, blockReason)
  end.

End Preflight.

(** ** risk-scanner.ts: the explanation of a result *)

Module Explanation.
Import Shared Scanner.

(** [typeCounts[flag.type] = (typeCounts[flag.type] || 0) + 1] on an
    object whose keys keep the order in which they were first set. *)
Fixpoint bump (flagType : string) (typeCounts : list (string * Z)) : list (string * Z) :=
  match typeCounts with
  | [] => [(flagType, 1)]
  | (t, n) :: rest =>
      if String.eqb t flagType then (t, n + 1) :: rest else (t, n) :: bump flagType rest
  end.

Definition typeCounts (flags : list RiskFlag) : list (string * Z) :=
  foldl (λ counts flag, bump (type flag) counts) [] flags.

Definition typeDescriptions : list (string * string) :=
  [ ("shell_execution", "executes shell commands");
    ("filesystem_write", "writes to the filesystem");
    ("filesystem_delete", "deletes files or directories");
    ("network_call", "makes network requests");
    ("remote_script_exec", "downloads and executes remote scripts");
    ("obfuscation", "uses code obfuscation");
    ("credential_access", "accesses credentials/environment variables");
    ("suspicious_long_line", "contains suspiciously long lines");
    ("dependency_script", "runs install scripts");
    ("dependency_url", "uses non-registry dependencies");
    ("dependency_index", "uses custom package indexes");
    ("dependency_unpinned", "uses unpinned dependencies");
    ("native_binary", "bundles native binaries");
    ("dynamic_require", "uses dynamic require");
    ("dynamic_import", "uses dynamic import");
    ("sensitive_import", "imports sensitive modules");
    ("runtime_blocked", "was blocked by runtime guard") ].

Definition Z_to_string (n : Z) : string := nat_to_string (Z.to_nat n).

Definition part (entry : string * Z) : string :=
  let '(flagType, count) := entry in
  let desc :=
    match JS.assoc flagType typeDescriptions with
    | Some d => d
    | None => flagType
    end in
  desc +:+ " (" +:+ Z_to_string count +:+ " occurrence"
    +:+ (if 1 <? count then "s" else "") +:+ ")".

Definition safeText : string := "Safe to use with standard precautions.".
Definition warningText : string :=
  "Review carefully before enabling. Consider running in a sandbox.".
Definition dangerText : string :=
  "High risk detected. Strongly recommend blocking or thorough manual review.".

Definition generateExplanation (flags : list RiskFlag) (score : Z) : string :=
  match flags with
  | [] => "No security risks detected. This skill appears safe to use."
  | _ =>
      let parts := map part (typeCounts flags) in
      let recommendation :=
        if score <=? SAFE_MAX then safeText
        else if score <=? WARNING_MAX then warningText
        else dangerText in
      "This skill " +:+ Str.join ", " parts +:+ ". " +:+ recommendation
  end.

(** The [explanation] of the result of [scanSkill]. *)
Definition explanation (env : Env) (skill : Skill) : option string :=
  match listSkillFiles env (path skill) with
  | None => None
  | Some files =>
      let flags := staticFlags env skill files ++ scanBehavior env skill in
      Some (generateExplanation flags (calculateScore flags))
  end.

(** The closing sentence that goes with a recommendation. *)
Definition verdict (r : RiskRecommendation) : string :=
  match r with
  | allow => safeText
  | sandbox => warningText
  | block => dangerText
  end.

End Explanation.

(** ** policy-manager.ts: loading the configuration file *)

Module ConfigFile.
Import JS.

(** A member of an object literal written after a spread: it takes the
    place of the member of that name, or comes last. *)
Fixpoint set (key : string) (v : json) (members : list (string * json))
    : list (string * json) :=
  match members with
  | [] => [(key, v)]
  | (k, x) :: rest =>
      if String.eqb k key then (k, v) :: rest else (k, x) :: set key v rest
  end.

(** [v || d] *)
Definition orElse (v : value) (d : json) : json :=
  match v with
  | Some j => if truthy v then j else d
  | None => d
  end.

(** [v ?? d] *)
Definition nullish (v : value) (d : json) : json :=
  match v with
  | None | Some JNull => d
  | Some j => j
  end.

Definition policyDefaults : json :=
  JObj [ ("allowedDirs", JArr []); ("allowedDomains", JArr []); ("blockShell", JBool true);
         ("blockSecrets", JBool true); ("blockNetwork", JBool false);
         ("blockFsWrite", JBool false) ].

Definition configDefaults : json :=
  JObj [ ("workspacePaths", JArr []); ("defaultPolicy", policyDefaults);
         ("enabledSkills", JArr []); ("disabledSkills", JArr []) ].

(** [loadConfig], given whether the file exists, its text ([None] when
    reading throws) and the parser.  Reading a member of [null] throws,
    and every throw ends in the default configuration. *)
Definition loadConfig (existsSync : bool) (readFileSync : option string)
    (JSON_parse : string → option json) : json :=
  if existsSync then
    match readFileSync with
    | None => configDefaults
    | Some content =>
        match JSON_parse content with
        | None | Some JNull => configDefaults
        | Some parsed =>
            let defaultPolicy := orElse (prop parsed "defaultPolicy") policyDefaults in
            JObj
              (set "defaultPolicy"
                 (JObj [ ("allowedDirs", orElse (prop defaultPolicy "allowedDirs") (JArr []));
                         ("allowedDomains",
                          orElse (prop defaultPolicy "allowedDomains") (JArr []));
                         ("blockShell", nullish (prop defaultPolicy "blockShell") (JBool true));
                         ("blockSecrets",
                          nullish (prop defaultPolicy "blockSecrets") (JBool true));
                         ("blockNetwork",
                          nullish (prop defaultPolicy "blockNetwork") (JBool false));
                         ("blockFsWrite",
                          nullish (prop defaultPolicy "blockFsWrite") (JBool false)) ])
                 (set "disabledSkills" (orElse (prop parsed "disabledSkills") (JArr []))
                    (set "enabledSkills" (orElse (prop parsed "enabledSkills") (JArr []))
                       (set "workspacePaths" (orElse (prop parsed "workspacePaths") (JArr []))
                          (Object_entries parsed)))))
        end
    end
  else configDefaults.

(** A value that is neither [undefined] nor [null]. *)
Definition present (v : value) : Prop := v ≠ None ∧ v ≠ Some JNull.

(** A configuration all of whose lists and switches are there. *)
Definition complete (config : json) : Prop :=
  truthy (prop config "workspacePaths") = true
  ∧ truthy (prop config "enabledSkills") = true
  ∧ truthy (prop config "disabledSkills") = true
  ∧ ∃ policy, prop config "defaultPolicy" = Some (JObj policy)
      ∧ truthy (assoc "allowedDirs" policy) = true
      ∧ truthy (assoc "allowedDomains" policy) = true
      ∧ present (assoc "blockShell" policy)
      ∧ present (assoc "blockSecrets" policy)
      ∧ present (assoc "blockNetwork" policy)
      ∧ present (assoc "blockFsWrite" policy).

End ConfigFile.

(** ** Concrete inputs of the added services *)

Module Samples.
Import JS.

Definition shellFinding : Scanner.RiskFlag :=
  Scanner.mkFlag "shell_execution" Scanner.high "Executes shell commands"
    (Some "/skills/demo/index.js") (Some 1%nat) (Some Scanner.regex) None.

Definition networkFinding : Scanner.RiskFlag :=
  Scanner.mkFlag "network_call" Scanner.medium "Makes network requests"
    (Some "/skills/demo/index.js") (Some 2%nat) (Some Scanner.regex) None.

(** A guard under the id of the demo skill that blocks everything. *)
Definition strict : Guard.Guard :=
  Examples.guardOf (Examples.policy true true true true ["/ws/data"] ["example.com"]).

(** A guard under the same id that leaves the writes to the file system
    alone. *)
Definition lenient : Guard.Guard :=
  Examples.guardOf (Examples.policy true true false true [] ["example.com"]).

(** A stored policy with a directory for writing and one for reading. *)
Definition stored : Types.Policy :=
  Types.mkPolicy [Types.mkDir "/ws/data" Types.readwrite; Types.mkDir "/ws/docs" Types.read]
    ["example.com"; "api.test"] true true false true.

Definition basename (p : string) : string := default "" (last (Str.split "/" p)).

Definition service : PolicyManager.Service :=
  PolicyManager.mkService
    (Types.mkClawShieldConfig None ["/ws"] stored ["alpha"] ["beta"]) None [true].


(** The record of a blocked shell call of the demo skill, as each guard
    writes it. *)
Definition denial : Guard.AuditEntry :=
  GuardLaws.blockedEntry strict [("kind", Some "shell"); ("fn", Some "exec")].

Definition nodeRecord : json := Trail.nodeJson "0001" "2026-01-01T00:00:00.000Z" denial.

Definition nodeHost : Scanner.Env := Examples.hostOf [] [] [nodeRecord] (λ _ _, false) [].

(** A block that the backend logs under the id of the demo skill. *)
Definition blockRecord : json :=
  AuditLogger.entry "0002" "2026-01-01T00:00:00.000Z" "block" "blocked"
    (JObj [("reason", JStr "manual")]) (Some "demo") (Some "demo").

Definition knownJson (known : list json) : AuditLogger.Json :=
  AuditLogger.mkJson Examples.stringify (Examples.parseKnown known).

Definition loggerHost : Scanner.Env := Examples.hostOf [] [] [blockRecord] (λ _ _, false) [].

(** An audit file with one line. *)
Definition disk : AuditLogger.Disk :=
  AuditLogger.mkDisk (Some ("{}" +:+ AuditLogger.NL)) true [].

End Samples.

(** ** Tactics *)

(** Unfolding the append of strings on a constructor. *)
Ltac str_simpl :=
  repeat match goal with
  | |- context [String ?a ?s +:+ ?t] =>
      change (String a s +:+ t) with (String a (s +:+ t))
  | |- context [EmptyString +:+ ?t] => change (EmptyString +:+ t) with t
  | H : context [String ?a ?s +:+ ?t] |- _ =>
      change (String a s +:+ t) with (String a (s +:+ t)) in H
  | H : context [EmptyString +:+ ?t] |- _ => change (EmptyString +:+ t) with t in H
  end.

(** Membership in a list given in full. *)
Ltac listed := simpl; solve [repeat first [apply list_elem_of_here | apply list_elem_of_further]].

(** Case analysis on a call taken from a list built by tests and
    matches. *)
Ltac call_cases :=
  repeat match goal with
  | H : _ ∈ [] |- _ => by apply elem_of_nil in H
  | H : _ ∈ _ ++ _ |- _ => apply elem_of_app in H as [H|H]
  | H : _ ∈ _ :: _ |- _ => apply elem_of_cons in H as [->|H]
  | H : _ ∈ _ ≫= _ |- _ => apply list_elem_of_bind in H as (? & H & _)
  | H : _ ∈ _ <$> _ |- _ => apply list_elem_of_fmap in H as (? & -> & _)
  | H : _ ∈ map _ _ |- _ => apply list_elem_of_fmap in H as (? & -> & _)
  | H : _ ∈ (if ?b then _ else _) |- _ => destruct b
  | H : _ ∈ (let '(_, _) := ?x in _) |- _ => destruct x
  | H : _ ∈ match ?x with _ => _ end |- _ => destruct x
  end.

(** * Proofs *)

(** ** Strings *)

Lemma startsWith_spec (s p : string) :
  Str.startsWith s p = true ↔ ∃ rest, s = p +:+ rest.
Proof.
  revert s. induction p as [|a p IH]; intros s; simpl.
  - split; [intros _; by exists s | by destruct s].
  - destruct s as [|b s]; simpl.
    + split; [done | intros [rest H]; discriminate].
    + destruct (Ascii.eqb_spec a b) as [->|Hne].
      * rewrite IH. split; intros [rest H]; exists rest; str_simpl; congruence.
      * split; [done | intros [rest H]; str_simpl; congruence].
Qed.

Lemma endsWith_unfold (s p : string) :
  Str.endsWith s p =
  if String.eqb s p then true
  else match s with EmptyString => false | String _ s' => Str.endsWith s' p end.
Proof. by destruct s. Qed.

Lemma endsWith_spec (s p : string) :
  Str.endsWith s p = true ↔ ∃ pre, s = pre +:+ p.
Proof.
  induction s as [|a s IH]; rewrite endsWith_unfold.
  - destruct (String.eqb_spec "" p) as [<-|Hne].
    + split; [by exists "" | done].
    + split; [done|]. intros [pre H]. destruct pre; str_simpl; [done | discriminate].
  - destruct (String.eqb_spec (String a s) p) as [<-|Hne].
    + split; [by exists "" | done].
    + rewrite IH. split.
      * intros [pre ->]. by exists (String a pre).
      * intros [pre H]. destruct pre as [|b pre]; str_simpl; [congruence|].
        exists pre. congruence.
Qed.

Lemma lower_colon (a : ascii) :
  Ascii.eqb (Str.lower_ascii a) ":" = Ascii.eqb a ":".
Proof. by destruct a as [[] [] [] [] [] [] [] []]. Qed.

Lemma toLowerCase_before (h : string) :
  Str.toLowerCase (Str.before ":" h) = Str.before ":" (Str.toLowerCase h).
Proof.
  induction h as [|a h IH]; [done|]. simpl.
  rewrite lower_colon. destruct (Ascii.eqb a ":"); simpl; congruence.
Qed.

Lemma toLowerCase_empty (s : string) : Str.toLowerCase s = "" → s = "".
Proof. by destruct s. Qed.

Lemma nonempty_spec (s : string) : Str.nonempty s = true ↔ s ≠ "".
Proof. destruct s; simpl; split; done. Qed.

Lemma existsb_elem_of {A} (f : A → bool) (l : list A) :
  existsb f l = true ↔ ∃ x, x ∈ l ∧ f x = true.
Proof.
  rewrite existsb_exists. by setoid_rewrite list_elem_of_In.
Qed.

Lemma str_app_assoc (s t u : string) : (s +:+ t) +:+ u = s +:+ t +:+ u.
Proof. induction s as [|a s IH]; str_simpl; [done | by rewrite IH]. Qed.

(** ** Allow-lists of the guards *)

Section allow_lists.
Import Guard GuardSpec.

Lemma within_spec (separator d t : string) :
  String.eqb t d || Str.startsWith t (d +:+ separator) = true ↔ within separator d t.
Proof.
  rewrite orb_true_iff, String.eqb_eq, startsWith_spec. unfold within.
  by setoid_rewrite str_app_assoc.
Qed.

Lemma node_path_rule (g : Guard) (target : string) :
  guard_path_rule g (NodeGuard.isPathAllowed g (Some target)) target.
Proof.
  unfold guard_path_rule, NodeGuard.isPathAllowed.
  destruct (Str.nonempty target) eqn:Hne; simpl.
  2: { split; [done|]. intros [H _]. apply nonempty_spec in H. congruence. }
  apply nonempty_spec in Hne.
  destruct (String.eqb_spec (NodeGuard.normalizePath (rt g) target)
              (NodeGuard.normalizePath (rt g) (auditPath g))) as [Heq|Hneq].
  { split; [intros _; split; [done | by left] | done]. }
  assert (Hex : existsb
            (λ allowed, String.eqb (NodeGuard.normalizePath (rt g) target) allowed
                        || Str.startsWith (NodeGuard.normalizePath (rt g) target)
                             (allowed +:+ sep (rt g)))
            (elements (NodeGuard.allowedDirSet g)) = true
          ↔ ∃ d, d ∈ allowedDirs (config g)
                 ∧ within (sep (rt g)) (NodeGuard.normalizePath (rt g) d)
                     (NodeGuard.normalizePath (rt g) target)).
  { rewrite existsb_elem_of. unfold NodeGuard.allowedDirSet. split.
    - intros (a & Ha & Hw). apply elem_of_elements, elem_of_list_to_set in Ha.
      apply list_elem_of_fmap in Ha as (d & -> & Hd). exists d. split; [done|].
      by apply within_spec.
    - intros (d & Hd & Hw). exists (NodeGuard.normalizePath (rt g) d). split.
      + apply elem_of_elements, elem_of_list_to_set, list_elem_of_fmap. eauto.
      + by apply within_spec. }
  case_bool_decide as Hsize.
  - split; [done|]. intros [_ [?|Hd]]; [done|]. apply Hex in Hd.
    apply size_empty_inv, elements_empty_iff in Hsize.
    unfold NodeGuard.allowedDirSet in *. by rewrite Hsize in Hd.
  - rewrite Hex. split; [intros H; split; [done | by right] | by intros [_ [?|?]]].
Qed.

Lemma py_path_rule (g : Guard) (target : string) :
  guard_path_rule g (PyGuard._is_path_allowed g target) target.
Proof.
  unfold guard_path_rule, PyGuard._is_path_allowed.
  destruct (Str.nonempty target) eqn:Hne; simpl.
  2: { split; [done|]. intros [H _]. apply nonempty_spec in H. congruence. }
  apply nonempty_spec in Hne.
  change (PyGuard._norm_path (rt g)) with (NodeGuard.normalizePath (rt g)).
  destruct (String.eqb_spec (NodeGuard.normalizePath (rt g) target)
              (NodeGuard.normalizePath (rt g) (auditPath g))) as [Heq|Hneq].
  { split; [intros _; split; [done | by left] | done]. }
  case_bool_decide as Hnil.
  - split; [done|]. intros [_ [?|(d & Hd & _)]]; [done|].
    rewrite Hnil in Hd. by apply elem_of_nil in Hd.
  - rewrite existsb_elem_of. setoid_rewrite within_spec.
    split; [intros H; split; [done | by right] | by intros [_ [?|?]]].
Qed.

End allow_lists.

Section domains.
Import Guard GuardSpec.

Lemma subdomain_spec (d h : string) :
  String.eqb h d || Str.endsWith h ("." +:+ d) = true ↔ subdomain d h.
Proof. by rewrite orb_true_iff, String.eqb_eq, endsWith_spec. Qed.

Lemma subdomain_nonempty (d h : string) : d ≠ "" → subdomain d h → h ≠ "".
Proof.
  intros Hd [->|[label ->]]; [done|]. by destruct label.
Qed.

(** The rule holds for a list without an empty entry. *)
Lemma node_domain_rule (g : Guard) (host : string) :
  "" ∉ allowedDomains (config g) →
  domain_rule g (NodeGuard.isDomainAllowed g (Some host)) host.
Proof.
  intros Hno. unfold domain_rule, NodeGuard.isDomainAllowed, hostname.
  rewrite <- toLowerCase_before.
  assert (Hex : existsb
            (λ domain, String.eqb (Str.toLowerCase (Str.before ":" host))
                         (Str.toLowerCase domain)
                       || Str.endsWith (Str.toLowerCase (Str.before ":" host))
                            ("." +:+ Str.toLowerCase domain))
            (allowedDomains (config g)) = true
          ↔ ∃ d, d ∈ allowedDomains (config g)
                 ∧ subdomain (Str.toLowerCase d) (Str.toLowerCase (Str.before ":" host))).
  { rewrite existsb_elem_of. by setoid_rewrite subdomain_spec. }
  destruct (Str.nonempty host) eqn:Hne; simpl.
  - case_bool_decide as Hlen; [|done].
    split; [done|]. intros (d & Hd & _).
    apply length_zero_iff_nil in Hlen. rewrite Hlen in Hd. by apply elem_of_nil in Hd.
  - split; [done|]. intros (d & Hd & Hsub).
    destruct host; [|done]. simpl in Hsub.
    apply subdomain_nonempty in Hsub; [done|].
    intros H%toLowerCase_empty. by subst.
Qed.

Lemma py_domain_rule (g : Guard) (host : string) :
  "" ∉ allowedDomains (config g) →
  domain_rule g (PyGuard._is_domain_allowed g (Some host)) host.
Proof.
  intros Hno. unfold domain_rule, PyGuard._is_domain_allowed, hostname.
  setoid_rewrite <- subdomain_spec. rewrite <- existsb_elem_of.
  destruct (Str.nonempty host) eqn:Hne; simpl.
  - case_bool_decide as Hnil; [|done]. by rewrite Hnil.
  - split; [done|]. rewrite existsb_elem_of. setoid_rewrite subdomain_spec.
    intros (d & Hd & Hsub). destruct host; [|done]. simpl in Hsub.
    apply subdomain_nonempty in Hsub; [done|].
    intros H%toLowerCase_empty. by subst.
Qed.

Lemma parseList_nonempty (v : option string) : "" ∉ NodeGuard.parseList v.
Proof.
  destruct v as [v|]; simpl; [|apply not_elem_of_nil].
  destruct (Str.nonempty v); simpl; [|apply not_elem_of_nil].
  by intros [H _]%list_elem_of_filter.
Qed.

Lemma _parse_list_nonempty (v : option string) : "" ∉ PyGuard._parse_list v.
Proof.
  destruct v as [v|]; simpl; [|apply not_elem_of_nil].
  destruct (Str.nonempty v); simpl; [|apply not_elem_of_nil].
  by intros [H _]%list_elem_of_filter.
Qed.

(** The two checks agree on every policy and host. *)
Lemma domain_checks_agree (g : Guard) (host : option string) :
  NodeGuard.isDomainAllowed g host = PyGuard._is_domain_allowed g host.
Proof.
  unfold NodeGuard.isDomainAllowed, PyGuard._is_domain_allowed.
  destruct host as [h|]; [|done]. destruct (Str.nonempty h); simpl; [|done].
  rewrite toLowerCase_before.
  destruct (allowedDomains (config g)) as [|d l]; [done|].
  by rewrite !bool_decide_eq_false_2.
Qed.

(** The network decisions agree when blocking is on or no domain is
    listed. *)
Lemma network_decisions_agree (g : Guard) (host : option string) :
  blockNetwork (config g) = true ∨ allowedDomains (config g) = [] →
  NodeGuard.networkAllowed g host = PyGuard.network_allowed g host.
Proof.
  unfold NodeGuard.networkAllowed, PyGuard.network_allowed.
  rewrite <- domain_checks_agree. intros [Hb|Hnil].
  - rewrite Hb. simpl. case_bool_decide as Hlen; [done|].
    unfold NodeGuard.isDomainAllowed. destruct host as [h|]; [|done].
    destruct (Str.nonempty h); simpl; [|done].
    rewrite bool_decide_eq_true_2; [done|]. lia.
  - unfold NodeGuard.isDomainAllowed. rewrite Hnil. simpl.
    destruct host as [h|]; [destruct (Str.nonempty h)|];
      by destruct (blockNetwork (config g)).
Qed.

End domains.

(** ** Denials under a failing audit write *)

Section denials.
Import Guard GuardSpec.

Lemma node_writeAudit_swallows g a r d w :
  ∃ w', NodeGuard.writeAudit g a r d w = (Normal (), w') ∧ quiet w w'.
Proof.
  unfold NodeGuard.writeAudit, NodeGuard.ensureAuditFile, try_catch, bind, auditExists,
    createAuditFile, appendAuditFile, nextFault, bind, throw, ret, quiet.
  destruct w as [af fl pf vars]. simpl.
  destruct af as [l|], fl as [|[] [|[] fl]]; simpl; eauto.
Qed.

Lemma py_write_audit_swallows g a r d w :
  ∃ w', PyGuard._write_audit g a r d w = (Normal (), w') ∧ quiet w w'.
Proof. apply node_writeAudit_swallows. Qed.

Lemma node_logBlocked_then_throw {A} g d (e : Exn) w :
  raised (A := A) w ((NodeGuard.logBlocked g d ;; throw e) w).
Proof.
  unfold NodeGuard.logBlocked, bind.
  destruct (node_writeAudit_swallows g "runtime" "blocked" d w) as (w' & -> & Hp & _).
  split; [by exists e | done].
Qed.

Lemma py_log_blocked_then_throw {A} g d (e : Exn) w :
  raised (A := A) w ((PyGuard._log_blocked g d ;; throw e) w).
Proof. apply (node_logBlocked_then_throw g d e w). Qed.

Lemma raised_bind {A B} (m : M A) (k : A → M B) w :
  raised w (m w) → raised w (bind m k w).
Proof.
  unfold raised, bind. destruct (m w) as [[a|e] w']; simpl.
  - by intros [[e ?] _].
  - intros [_ Hp]. split; [by exists e | done].
Qed.

Lemma node_denied_raises g w op :
  node_raising op = true → node_denies g op = true → raised w (node_run g op w).
Proof.
  destruct op as [fn|fnName target|module fnName host|host|key|strict key value];
    simpl; intros Hr Hd; try done; apply raised_bind.
  - unfold NodeGuard.childProcess. rewrite Hd. apply node_logBlocked_then_throw.
  - unfold NodeGuard.wrapWrite. rewrite Hd. apply node_logBlocked_then_throw.
  - unfold NodeGuard.wrapRequest, NodeGuard.handleNetwork. apply raised_bind.
    rewrite Hd. apply node_logBlocked_then_throw.
  - unfold NodeGuard.fetch, NodeGuard.handleNetwork. apply raised_bind.
    rewrite Hd. apply node_logBlocked_then_throw.
  - unfold NodeGuard.envSet. rewrite Hd, Hr. apply node_logBlocked_then_throw.
Qed.

Lemma py_denied_raises g w op :
  py_raising op = true → py_denies g op = true → raised w (py_run g op w).
Proof.
  destruct op as [fn|fn target|fn host|key|key dflt|key value|key|key value];
    simpl; intros Hr Hd; try done; apply raised_bind.
  - unfold PyGuard._block_shell. rewrite Hd. apply py_log_blocked_then_throw.
  - unfold PyGuard.guarded_write, PyGuard._guard_path_write. apply raised_bind.
    rewrite Hd. apply py_log_blocked_then_throw.
  - unfold PyGuard.guarded_connect, PyGuard._handle_network. apply raised_bind.
    rewrite Hd. apply py_log_blocked_then_throw.
  - unfold PyGuard.environ_getitem. rewrite Hd. apply py_log_blocked_then_throw.
  - unfold PyGuard.environ_setitem. rewrite Hd. apply py_log_blocked_then_throw.
  - unfold PyGuard.environ_delitem. rewrite Hd. apply py_log_blocked_then_throw.
Qed.

Lemma node_denied_read g w key :
  node_denies g (EnvGet key) = true →
  ∃ w', node_run g (EnvGet key) w = (Normal None, w') ∧ quiet w w'.
Proof.
  simpl. intros Hd. unfold NodeGuard.envGet. rewrite Hd.
  unfold NodeGuard.logBlocked, bind.
  destruct (node_writeAudit_swallows g "runtime" "blocked"
              [("kind", Some "env"); ("key", Some key)] w) as (w' & -> & Hq).
  by exists w'.
Qed.

Lemma py_denied_get g w key dflt :
  py_denies g (PyEnvGet key dflt) = true →
  ∃ w', py_run g (PyEnvGet key dflt) w = (Normal dflt, w') ∧ quiet w w'.
Proof.
  simpl. intros Hd. unfold PyGuard.environ_get. rewrite Hd.
  unfold PyGuard._log_blocked, bind.
  destruct (py_write_audit_swallows g "runtime" "blocked"
              [("kind", Some "env"); ("key", Some key)] w) as (w' & -> & Hq).
  by exists w'.
Qed.

Lemma node_logBlocked_quiet g d w :
  ∃ w', NodeGuard.logBlocked g d w = (Normal (), w') ∧ quiet w w'.
Proof. apply node_writeAudit_swallows. Qed.

Lemma py_log_blocked_quiet g d w :
  ∃ w', PyGuard._log_blocked g d w = (Normal (), w') ∧ quiet w w'.
Proof. apply node_writeAudit_swallows. Qed.

(** After the blocked record, a continuation that throws or returns. *)
Lemma quiet_after_log {A B} (m : M unit) (k : M A) (f : A → M B) w :
  (∃ w', m w = (Normal (), w') ∧ quiet w w') →
  (∀ w', (∃ e, k w' = (Throw e, w')) ∨ (∃ a, k w' = (Normal a, w') ∧ ∀ w'', (f a w'').2 = w'')) →
  quiet w (bind (m ;; k) f w).2.
Proof.
  intros (w' & Hm & Hq) Hk. unfold bind. rewrite Hm.
  destruct (Hk w') as [[e ->]|(a & -> & Hf)]; simpl; [done|]. by rewrite Hf.
Qed.

Lemma node_denied_quiet g w op :
  node_denies g op = true → quiet w (node_run g op w).2.
Proof.
  destruct op as [fn|fnName target|module fnName host|host|key|strict key value];
    simpl; intros Hd.
  - unfold NodeGuard.childProcess. rewrite Hd.
    apply quiet_after_log; [apply node_logBlocked_quiet | by left; eexists].
  - unfold NodeGuard.wrapWrite. rewrite Hd.
    apply quiet_after_log; [apply node_logBlocked_quiet | by left; eexists].
  - unfold NodeGuard.wrapRequest, NodeGuard.handleNetwork. rewrite Hd. simpl.
    destruct (node_logBlocked_quiet g
      (("kind", Some "network") :: ("host", host)
       :: [("fn", Some fnName); ("module", Some module)]) w) as (w' & Hl & Hq).
    unfold bind. by rewrite Hl.
  - unfold NodeGuard.fetch, NodeGuard.handleNetwork. rewrite Hd. simpl.
    destruct (node_logBlocked_quiet g
      (("kind", Some "network") :: ("host", host) :: [("fn", Some "fetch")]) w)
      as (w' & Hl & Hq).
    unfold bind. by rewrite Hl.
  - unfold NodeGuard.envGet. rewrite Hd.
    destruct (node_logBlocked_quiet g [("kind", Some "env"); ("key", Some key)] w)
      as (w' & Hl & Hq).
    unfold bind. by rewrite Hl.
  - unfold NodeGuard.envSet. rewrite Hd.
    apply quiet_after_log; [apply node_logBlocked_quiet|].
    intros w'. destruct strict; [by left; eexists | right; by exists ()].
Qed.

Lemma py_denied_quiet g w op :
  py_denies g op = true → quiet w (py_run g op w).2.
Proof.
  destruct op as [fn|fn target|fn host|key|key dflt|key value|key|key value];
    simpl; intros Hd.
  - unfold PyGuard._block_shell. rewrite Hd.
    apply quiet_after_log; [apply py_log_blocked_quiet | by left; eexists].
  - unfold PyGuard.guarded_write, PyGuard._guard_path_write. rewrite Hd.
    destruct (py_log_blocked_quiet g
      [("kind", Some "fs_write"); ("fn", Some fn); ("target", Some target)] w)
      as (w' & Hl & Hq).
    unfold bind. by rewrite Hl.
  - unfold PyGuard.guarded_connect, PyGuard._handle_network. rewrite Hd. simpl.
    destruct (py_log_blocked_quiet g
      [("kind", Some "network"); ("fn", Some fn); ("host", host)] w) as (w' & Hl & Hq).
    unfold bind. by rewrite Hl.
  - unfold PyGuard.environ_getitem. rewrite Hd.
    destruct (py_log_blocked_quiet g [("kind", Some "env"); ("key", Some key)] w)
      as (w' & Hl & Hq).
    unfold bind. by rewrite Hl.
  - unfold PyGuard.environ_get. rewrite Hd.
    destruct (py_log_blocked_quiet g [("kind", Some "env"); ("key", Some key)] w)
      as (w' & Hl & Hq).
    unfold bind. by rewrite Hl.
  - unfold PyGuard.environ_setitem. rewrite Hd.
    apply quiet_after_log; [apply py_log_blocked_quiet | by left; eexists].
  - unfold PyGuard.environ_delitem. rewrite Hd.
    apply quiet_after_log; [apply py_log_blocked_quiet | by left; eexists].
  - unfold PyGuard.putenv. rewrite Hd.
    destruct (py_log_blocked_quiet g [("kind", Some "env_set"); ("key", Some key)] w)
      as (w' & Hl & Hq).
    unfold bind. by rewrite Hl.
Qed.

End denials.

(** ** The risk score *)

Section scoring.
Import JS Shared Scanner Spec Inv.

Lemma recommendation_tiers (score : Z) :
  (getRecommendation score = allow ↔ score ≤ 30)
  ∧ (getRecommendation score = sandbox ↔ 31 ≤ score ≤ 60)
  ∧ (getRecommendation score = block ↔ 61 ≤ score).
Proof.
  unfold getRecommendation, SAFE_MAX, WARNING_MAX.
  destruct (Z.leb_spec score 30); [|destruct (Z.leb_spec score 60)];
    repeat split; intros; try done; lia.
Qed.

Lemma recommendation_clamped (total : Z) :
  getRecommendation (Z.min 100 total) = getRecommendation total.
Proof.
  unfold getRecommendation, SAFE_MAX, WARNING_MAX.
  destruct (Z.leb_spec total 30), (Z.leb_spec total 60),
    (Z.leb_spec (Z.min 100 total) 30), (Z.leb_spec (Z.min 100 total) 60); try done; lia.
Qed.

Lemma count_cons (c : string) (f : RiskFlag) (fs : list RiskFlag) :
  count c (f :: fs) = (if decide (type f = c) then 1 else 0) + count c fs.
Proof.
  unfold count. rewrite filter_cons. destruct (decide (type f = c)); simpl length; lia.
Qed.

Lemma count_nonneg (c : string) (fs : list RiskFlag) : 0 ≤ count c fs.
Proof. unfold count. lia. Qed.

Lemma count_zero (c : string) (fs : list RiskFlag) :
  count c fs = 0 ↔ c ∉ type <$> fs.
Proof.
  induction fs as [|f fs IH]; [by split; [intros _; apply not_elem_of_nil|]|].
  rewrite count_cons, fmap_cons, not_elem_of_cons, <- IH.
  pose proof (count_nonneg c fs). destruct (decide (type f = c)); split; try lia.
  - intros [? _]. congruence.
  - intros H0. split; [congruence | lia].
Qed.

Lemma typeCount_lookup_from (m : gmap string Z) (fs : list RiskFlag) (c : string) :
  foldl (λ m flag, <[type flag := default 0 (m !! type flag) + 1]> m) m fs !! c
  = if decide (count c fs = 0) then m !! c
    else Some (default 0 (m !! c) + count c fs).
Proof.
  revert m. induction fs as [|f fs IH]; intros m; [done|].
  simpl foldl. rewrite IH, count_cons. pose proof (count_nonneg c fs).
  destruct (decide (type f = c)) as [->|Hne].
  - rewrite lookup_insert_eq. simpl.
    repeat case_decide; try lia; f_equal; lia.
  - rewrite lookup_insert_ne by done.
    repeat case_decide; try lia; done.
Qed.

Lemma typeCount_lookup (fs : list RiskFlag) (c : string) :
  typeCount fs !! c = if decide (count c fs = 0) then None else Some (count c fs).
Proof.
  unfold typeCount. rewrite typeCount_lookup_from, lookup_empty. simpl.
  case_decide; [done | f_equal; lia].
Qed.

(** The entries of the count table are the distinct categories with their
    counts. *)
Lemma typeCount_entries (fs : list RiskFlag) :
  map_to_list (typeCount fs) ≡ₚ (λ c, (c, count c fs)) <$> categories fs.
Proof.
  apply NoDup_Permutation.
  - apply NoDup_map_to_list.
  - apply NoDup_fmap_2; [by intros ?? [= ->] | apply NoDup_remove_dups].
  - intros [c n]. rewrite elem_of_map_to_list, typeCount_lookup, list_elem_of_fmap.
    unfold categories. setoid_rewrite elem_of_remove_dups. split.
    + case_decide as Hz; [done|]. intros [= <-]. exists c. split; [done|].
      destruct (decide (c ∈ type <$> fs)); [done|]. by apply count_zero in n.
    + intros (c' & [= -> ->] & Hin). rewrite decide_False; [done|].
      intros Hz%count_zero. done.
Qed.

Lemma foldl_addContribution (a : Q) (l : list (string * Z)) :
  (foldl addContribution a l == a + sumQ (entryContribution <$> l))%Q.
Proof.
  revert a. induction l as [|e l IH]; intros a.
  - cbn. ring.
  - rewrite fmap_cons.
    change (foldl addContribution a (e :: l))
      with (foldl addContribution (addContribution a e) l).
    change (sumQ (entryContribution e :: (entryContribution <$> l)))
      with (entryContribution e + sumQ (entryContribution <$> l))%Q.
    rewrite IH.
    assert (addContribution a e == a + entryContribution e)%Q as ->
      by (destruct e; reflexivity).
    ring.
Qed.

Lemma sumQ_perm (l l' : list Q) : l ≡ₚ l' → (sumQ l == sumQ l')%Q.
Proof.
  induction 1 as [|x l l' _ IH|x y l|l l' l'' _ IH1 _ IH2]; simpl.
  - reflexivity.
  - by rewrite IH.
  - ring.
  - by rewrite IH1.
Qed.

Lemma typeWeights_nonzero (c : string) (w : Q) :
  typeWeights !! c = Some w → Qeq_bool w 0 = false ∧ (0 <= w)%Q.
Proof.
  intros H. apply elem_of_list_to_map_2 in H.
  repeat (apply elem_of_cons in H as [[= -> ->]|H]; [by split|]).
  by apply elem_of_nil in H.
Qed.

Lemma weightOf_weight (c : string) : weightOf c = weight c.
Proof.
  unfold weightOf, weight. destruct (typeWeights !! c) as [w|] eqn:E; [|done].
  apply typeWeights_nonzero in E as [-> _]. done.
Qed.

Lemma weight_nonneg (c : string) : (0 <= weight c)%Q.
Proof.
  unfold weight. destruct (typeWeights !! c) as [w|] eqn:E; [|done].
  by apply typeWeights_nonzero in E as [_ ?].
Qed.

Lemma calculateScore_total (fs : list RiskFlag) :
  calculateScore fs = Math_round (total fs).
Proof.
  unfold calculateScore, Math_round, total. apply Qfloor_comp.
  rewrite foldl_addContribution, (sumQ_perm _ _ (fmap_Permutation _ _ _ (typeCount_entries fs))).
  rewrite <- list_fmap_compose.
  assert (Heq : (entryContribution ∘ (λ c, (c, count c fs))) <$> categories fs
                = contribution fs <$> categories fs).
  { apply list_fmap_ext. intros _ c _. unfold entryContribution, contribution. simpl.
    by rewrite weightOf_weight. }
  rewrite Heq. ring.
Qed.

Lemma contribution_nonneg (fs : list RiskFlag) (c : string) : (0 <= contribution fs c)%Q.
Proof.
  unfold contribution. pose proof (weight_nonneg c) as Hw.
  set (w := weight c) in *. set (q := Qmin (inject_Z (count c fs - 1)) 3).
  assert (Hq : (-1 <= q)%Q).
  { apply Q.min_glb; [|done]. change (-1)%Q with (inject_Z (-1)).
    rewrite <- Zle_Qle. pose proof (count_nonneg c fs). lia. }
  setoid_replace (w + q * (w / 4))%Q with ((w / 4) * (4 + q))%Q using relation Qeq
    by (unfold Qdiv; change (/ 4)%Q with (1 # 4)%Q; ring).
  apply Qmult_le_0_compat.
  - apply Qle_shift_div_l; [done|]. by rewrite Qmult_0_l.
  - setoid_replace 0%Q with (4 + -4)%Q using relation Qeq by ring. apply Qplus_le_r.
    apply Qle_trans with (-1)%Q; [done | exact Hq].
Qed.

Lemma total_nonneg (fs : list RiskFlag) : (0 <= total fs)%Q.
Proof.
  unfold total. induction (categories fs) as [|c l IH]; simpl; [done|].
  setoid_replace 0%Q with (0 + 0)%Q using relation Qeq by ring.
  apply Qplus_le_compat; [apply contribution_nonneg | exact IH].
Qed.

Lemma Math_round_nonneg (x : Q) : (0 <= x)%Q → 0 ≤ Math_round x.
Proof.
  intros Hx. unfold Math_round. change 0 with (Qfloor 0). apply Qfloor_resp_le.
  setoid_replace 0%Q with (0 + 0)%Q using relation Qeq by ring.
  by apply Qplus_le_compat.
Qed.

End scoring.

(** ** The behaviour scan *)

Section behaviour.
Import JS Shared Scanner Spec Inv.

Lemma foldl_push {A B} (f : A → option B) (acc : list B) (l : list A) :
  foldl (λ flags x, match f x with Some y => flags ++ [y] | None => flags end) acc l
  = acc ++ omap f l.
Proof.
  revert acc. induction l as [|x l IH]; intros acc; csimpl.
  - by rewrite app_nil_r.
  - rewrite IH. destruct (f x); [by rewrite <- app_assoc | done].
Qed.

Lemma omap_filter {A B} (p : A → bool) (g : A → B) (l : list A) :
  omap (λ x, if p x then Some (g x) else None) l = g <$> filter (λ x, p x = true) l.
Proof.
  induction l as [|x l IH]; [done|]. rewrite filter_cons. csimpl.
  destruct (p x) eqn:E; csimpl; [by rewrite IH | done].
Qed.

Lemma behaviorSeverity_severityOf (kind : string) :
  behaviorSeverity kind = severityOf kind.
Proof.
  unfold behaviorSeverity, severityOf.
  destruct (String.eqb_spec kind "shell") as [->|H1]; [done|].
  destruct (String.eqb_spec kind "network") as [->|H2]; [done|].
  rewrite bool_decide_eq_false_2 by (by intros [?|?]).
  by destruct (String.eqb kind "env" || String.eqb kind "env_set"),
    (String.eqb kind "fs_write").
Qed.

Lemma is_string_truthy (v : value) (s : string) :
  is_string v s = true → truthy v = Str.nonempty s.
Proof.
  destruct v as [[]|]; simpl; try done. by intros ->%String.eqb_eq.
Qed.

Lemma allSome_printed (f : json → option string) (l : list (string * json)) :
  allSome (map (λ '(key, v), match f v with
                             | Some text => Some (key +:+ "=" +:+ text)
                             | None => None
                             end) l)
  = if forallb (λ '(k, v), bool_decide (is_Some (f v))) l
    then Some (map (λ '(k, v), k +:+ "=" +:+ default "" (f v)) l)
    else None.
Proof.
  induction l as [|[k v] l IH]; [done|]. cbn [map allSome forallb]. rewrite IH.
  destruct (f v) as [text|]; [|done].
  rewrite bool_decide_eq_true_2 by (by eexists). cbn [andb default].
  by destruct (forallb _ l).
Qed.

Lemma behaviorFlag_counted (env : Env) (skill : Skill) (text : string) :
  behaviorFlag env skill (auditPath env) text
  = if countedLine env skill text then Some (finding env text) else None.
Proof.
  unfold behaviorFlag, countedLine, finding, kindOf, evidenceOf, printable.
  destruct (JSON_parse env text) as [entry|]; [|done]. simpl.
  assert (Hnull : entry = JNull → is_string (prop entry "action") "runtime" = false)
    by (by intros ->).
  destruct (is_string (prop entry "action") "runtime") eqn:Ha; simpl.
  2: { by destruct entry. }
  assert (Hbody :
    (if negb (truthy (prop entry "skillId"))
        || negb (is_string (prop entry "skillId") (id skill))
     then false
     else is_string (if truthy (prop entry "result") then prop entry "result"
                     else Some (JStr "blocked")) "blocked")
    = Str.nonempty (id skill) && is_string (prop entry "skillId") (id skill)
      && (is_string (prop entry "result") "blocked" || negb (truthy (prop entry "result")))).
  { destruct (is_string (prop entry "skillId") (id skill)) eqn:Hs.
    - rewrite (is_string_truthy _ _ Hs). destruct (Str.nonempty (id skill)); simpl; [|done].
      destruct (truthy (prop entry "result")) eqn:Ht; simpl; [by rewrite orb_false_r|].
      by rewrite orb_true_r.
    - by rewrite orb_true_r, andb_false_r. }
  rewrite <- Hbody. rewrite behaviorSeverity_severityOf, allSome_printed.
  destruct entry; try done;
    destruct (negb _ || negb _); try done;
    destruct (is_string _ "blocked"); try done;
    cbn [negb andb]; by destruct (forallb _ _).
Qed.

Lemma trim_nonBlank (text : string) :
  (0 < String.length (Str.trim text))%nat ↔ nonBlank text = true.
Proof.
  unfold nonBlank, Str.trim, Str.strip.
  induction text as [|a s IH]; [simpl; split; [lia | done]|].
  cbn [Str.dropWhile list_ascii_of_string existsb]. destruct (Str.js_ws a) eqn:Ea.
  - exact IH.
  - cbn [negb orb Str.dropWhileEnd]. split; [done|]. intros _.
    destruct (Str.dropWhileEnd Str.js_ws s); [rewrite Ea|]; simpl; lia.
Qed.

(** The window of the scan: the last 2000 of the non-blank lines. *)
Lemma recentLines_window (content : string) :
  ∃ older, trailLines content = older ++ recentLines content
           ∧ length (recentLines content) = Nat.min 2000 (length (trailLines content)).
Proof.
  assert (Hl : filter (λ text, (0 < String.length (Str.trim text))%nat) (Str.split LF content)
               = trailLines content).
  { unfold trailLines. apply list_filter_iff. intros text. apply trim_nonBlank. }
  unfold recentLines, Str.lastN. rewrite Hl.
  exists (take (length (trailLines content) - Z.to_nat 2000) (trailLines content)).
  split; [by rewrite take_drop|]. rewrite length_drop. lia.
Qed.

Lemma scanBehavior_counted (env : Env) (skill : Skill) :
  scanBehavior env skill =
  if existsSync env (auditPath env) then
    match readFile env (auditPath env) with
    | Some content =>
        finding env <$> filter (λ text, countedLine env skill text = true)
                          (recentLines content)
    | None => []
    end
  else [].
Proof.
  unfold scanBehavior. destruct (existsSync env (auditPath env)); simpl; [|done].
  destruct (readFile env (auditPath env)) as [content|]; [|done].
  rewrite foldl_push. simpl. rewrite <- omap_filter.
  apply list_omap_ext, Forall2_same_length_lookup_2; [done|].
  intros i x y Hx Hy. rewrite Hx in Hy. injection Hy as <-. apply behaviorFlag_counted.
Qed.

End behaviour.

(** ** De-duplication in the static detectors *)

Section uniqueness.
Import JS Shared Scanner Spec Inv.

Lemma foldl_invariant {A B} (P : A → Prop) (step : A → B → A) (init : A) (l : list B) :
  P init → (∀ acc x, P acc → P (step acc x)) → P (foldl step init l).
Proof.
  intros Hinit Hstep. revert init Hinit.
  induction l as [|x l IH]; intros init Hinit; simpl; auto.
Qed.

Lemma NoDup_fmap_factor {A B C} (f : A → B) (g : B → C) (l : list A) :
  NoDup (g ∘ f <$> l) → NoDup (f <$> l).
Proof. rewrite list_fmap_compose. apply NoDup_fmap_1. Qed.

Lemma NoDup_keys_app (l1 l2 : list RiskFlag) :
  NoDup (key <$> l1) → NoDup (key <$> l2) →
  (∀ f1 f2, f1 ∈ l1 → f2 ∈ l2 → key f1 ≠ key f2) →
  NoDup (key <$> l1 ++ l2).
Proof.
  intros H1 H2 Hne. rewrite fmap_app. apply NoDup_app. split; [done|]. split; [|done].
  intros k (f1 & -> & Hf1)%list_elem_of_fmap (f2 & Heq & Hf2)%list_elem_of_fmap.
  by eapply Hne.
Qed.

Lemma tag_key (f1 f2 : RiskFlag) : key f1 = key f2 → tag f1 = tag f2.
Proof. unfold key, tag. by intros [= -> _ _ ->]. Qed.

Lemma checkPatterns_flags env lines filePath lang patterns flagType description severity :
  patternFlags filePath flagType
    (checkPatterns env lines filePath lang patterns flagType description severity
       (Some regex)).
Proof.
  unfold checkPatterns. apply foldl_invariant.
  - split; [apply NoDup_nil_2 | apply Forall_nil_2].
  - intros flags [i text] [Hnd Hall]. unfold checkLine.
    destruct (existsb _ (patternsToCheck lang patterns)); [|done].
    destruct (existsb _ flags) eqn:Hex; [done|].
    split.
    + rewrite fmap_app. apply NoDup_app. split; [done|]. split; [|apply NoDup_singleton].
      intros ln (f & -> & Hf)%list_elem_of_fmap Hin. simpl in Hin.
      apply list_elem_of_singleton in Hin.
      apply not_true_iff_false in Hex. apply Hex, existsb_elem_of. exists f.
      split; [done|]. apply bool_decide_eq_true.
      rewrite Forall_forall in Hall. destruct (Hall f Hf) as (? & ? & _). done.
    + apply Forall_app. split; [done|]. by apply Forall_singleton.
Qed.

Lemma line_key (f1 f2 : RiskFlag) : key f1 = key f2 → line f1 = line f2.
Proof. unfold key. by intros [= _ _ -> _]. Qed.

Lemma NoDup_lines_keys (flags : list RiskFlag) :
  NoDup (line <$> flags) → NoDup (key <$> flags).
Proof. apply (NoDup_fmap_factor key (λ k, k.1.2)). Qed.

Lemma longLines_from (filePath : string) (n : nat) (lines : list string) :
  let flags :=
    mjoin (imap (λ i text,
      if (500 <? String.length text)%nat && negb (Str.includes text "//")
         && negb (Str.includes text "#")
      then [mkFlag "suspicious_long_line" medium
              "Contains suspiciously long line (potential obfuscation)"
              (Some filePath) (Some (n + i + 1)%nat) (Some regex) None]
      else []) lines) in
  NoDup (line <$> flags)
  ∧ Forall (λ f, type f = "suspicious_long_line" ∧ location f = Some filePath
                 ∧ evidence f = None ∧ source f = Some regex
                 ∧ ∃ k, line f = Some k ∧ (n < k)%nat) flags.
Proof.
  revert n. induction lines as [|text lines IH]; intros n.
  - split; [apply NoDup_nil_2 | apply Forall_nil_2].
  - rewrite imap_cons. simpl mjoin.
    destruct (IH (S n)) as [Hnd Hall].
    assert (Hext : imap ((λ i text0,
                if (500 <? String.length text0)%nat && negb (Str.includes text0 "//")
                   && negb (Str.includes text0 "#")
                then [mkFlag "suspicious_long_line" medium
                        "Contains suspiciously long line (potential obfuscation)"
                        (Some filePath) (Some (n + i + 1)%nat) (Some regex) None]
                else []) ∘ S) lines
            = imap (λ i text0,
                if (500 <? String.length text0)%nat && negb (Str.includes text0 "//")
                   && negb (Str.includes text0 "#")
                then [mkFlag "suspicious_long_line" medium
                        "Contains suspiciously long line (potential obfuscation)"
                        (Some filePath) (Some (S n + i + 1)%nat) (Some regex) None]
                else []) lines).
    { apply imap_ext. intros i x _. simpl. by replace (n + S i)%nat with (S (n + i)) by lia. }
    rewrite Hext. clear Hext. set (rest := mjoin _) in *.
    assert (Hall' : Forall (λ f, type f = "suspicious_long_line" ∧ location f = Some filePath
                 ∧ evidence f = None ∧ source f = Some regex
                 ∧ ∃ k, line f = Some k ∧ (n < k)%nat) rest).
    { eapply Forall_impl; [exact Hall|]. intros f (? & ? & ? & ? & k & ? & ?).
      repeat split; try done. exists k. split; [done | lia]. }
    destruct (_ && _ && _); simpl; [|done]. split.
    + apply NoDup_cons. split; [|done].
      intros (f & Heq & Hf)%list_elem_of_fmap. rewrite Forall_forall in Hall.
      destruct (Hall f Hf) as (_ & _ & _ & _ & k & Hk & Hlt). simpl in Heq.
      rewrite Hk in Heq. injection Heq as Heq. lia.
    + apply Forall_cons. split; [|done]. repeat split; try done.
      exists (n + 0 + 1)%nat. split; [done | lia].
Qed.

Lemma longLines_flags (filePath : string) (lines : list string) :
  patternFlags filePath "suspicious_long_line" (longLines filePath lines).
Proof.
  destruct (longLines_from filePath 0 lines) as [Hnd Hall]. split; [exact Hnd|].
  eapply Forall_impl; [exact Hall|]. by intros f (? & ? & ? & ? & _).
Qed.

Lemma foldl_invariant_in {A B} (P : A → Prop) (step : A → B → A) (init : A) (l : list B) :
  P init → (∀ acc x, x ∈ l → P acc → P (step acc x)) → P (foldl step init l).
Proof.
  revert init. induction l as [|x l IH]; intros init Hinit Hstep; simpl; [done|].
  apply IH.
  - apply Hstep; [apply list_elem_of_here | done].
  - intros acc y Hy. apply Hstep. by apply list_elem_of_further.
Qed.

(** *** Syntax-tree findings *)

Lemma visit_tags (node : Node) (c : AstCall) :
  c ∈ visit node → (a_type c, bool_decide (is_Some (a_evidence c))) ∈ astTags.
Proof.
  intros H. destruct node; unfold visit, visitCall, visitMember in H;
    call_cases; listed.
Qed.

Lemma addAstFlag_inv (filePath : string) st (c : AstCall) :
  (a_type c, bool_decide (is_Some (a_evidence c))) ∈ astTags →
  astInv filePath st → astInv filePath (addAstFlag filePath st c).
Proof.
  intros Htag Hinv. destruct c as [t sv ds ln ev]. unfold addAstFlag.
  destruct (bool_decide (astKey filePath _ ∈ st.2)) eqn:Hin; [done|].
  apply bool_decide_eq_false in Hin. destruct Hinv as (Hnd & Hseen & Hall).
  destruct st as [flags seen]. unfold astInv. cbn [fst snd] in *.
  split; [|split].
  - rewrite fmap_app. apply NoDup_app. split; [done|]. split; [|apply NoDup_singleton].
    intros k (f & -> & Hf)%list_elem_of_fmap Hk. apply list_elem_of_singleton in Hk.
    apply Hin. unfold astKeyOf in Hk. simpl in Hk. rewrite <- Hk. by apply Hseen.
  - intros f [Hf| ->%list_elem_of_singleton]%elem_of_app.
    + apply elem_of_union_r. by apply Hseen.
    + by apply elem_of_union_l, elem_of_singleton.
  - apply Forall_app. split; [done|]. by apply Forall_singleton.
Qed.

Lemma scanAst_flags (env : Env) (filePath content : string) :
  NoDup (key <$> scanAst env filePath content)
  ∧ Forall (λ f, location f = Some filePath ∧ source f = Some ast ∧ tag f ∈ astTags)
      (scanAst env filePath content).
Proof.
  unfold scanAst. destruct (negb _); [by split; [apply NoDup_nil_2 | apply Forall_nil_2]|].
  destruct (babel env content) as [nodes|];
    [|by split; [apply NoDup_nil_2 | apply Forall_nil_2]].
  assert (Hinv : astInv filePath (foldl (addAstFlag filePath) ([], ∅) (nodes ≫= visit))).
  { apply foldl_invariant_in.
    - split; [apply NoDup_nil_2|]. split; [|apply Forall_nil_2].
      by intros f ?%elem_of_nil.
    - intros acc c (node & Hc & _)%list_elem_of_bind. apply addAstFlag_inv.
      by eapply visit_tags. }
  destruct Hinv as (Hnd & _ & Hall). split; [|done].
  apply (NoDup_fmap_factor key
           (λ k, k.1.1.1 +:+ ":" +:+ filePath +:+ ":" +:+ nat_to_string (default 0%nat k.1.2)
                 +:+ ":" +:+ default "" k.2)).
  exact Hnd.
Qed.

(** *** Dependency findings *)

Lemma depCalls_types (env : Env) (skillPath : string) (c : DepCall) :
  c ∈ depCalls env skillPath → d_type c ∈ depTypes.
Proof.
  unfold depCalls, packageJsonCalls, scriptCalls, depGroupCalls, lockfileCalls,
    requirementsCalls, manifestCalls, binaryCalls.
  intros H. call_cases; listed.
Qed.

Lemma addDepFlag_inv st (c : DepCall) :
  d_type c ∈ depTypes → depInv st → depInv (addDepFlag st c).
Proof.
  intros Htag Hinv. destruct c as [t sv ds lc ev]. unfold addDepFlag.
  destruct (bool_decide (depKey _ ∈ st.2)) eqn:Hin; [done|].
  apply bool_decide_eq_false in Hin. destruct Hinv as (Hnd & Hseen & Hall).
  destruct st as [flags seen]. unfold depInv. cbn [fst snd] in *.
  split; [|split].
  - rewrite fmap_app. apply NoDup_app. split; [done|]. split; [|apply NoDup_singleton].
    intros k (f & -> & Hf)%list_elem_of_fmap Hk. apply list_elem_of_singleton in Hk.
    apply Hin. unfold depKeyOf in Hk. simpl in Hk. rewrite <- Hk. by apply Hseen.
  - intros f [Hf| ->%list_elem_of_singleton]%elem_of_app.
    + apply elem_of_union_r. by apply Hseen.
    + by apply elem_of_union_l, elem_of_singleton.
  - apply Forall_app. split; [done|]. by apply Forall_singleton.
Qed.

Lemma scanDependencies_flags (env : Env) (skillPath : string) :
  NoDup (key <$> scanDependencies env skillPath)
  ∧ Forall (λ f, source f = Some dependency ∧ type f ∈ depTypes)
      (scanDependencies env skillPath).
Proof.
  unfold scanDependencies.
  assert (Hinv : depInv (foldl addDepFlag ([], ∅) (depCalls env skillPath))).
  { apply foldl_invariant_in.
    - split; [apply NoDup_nil_2|]. split; [|apply Forall_nil_2].
      by intros f ?%elem_of_nil.
    - intros acc c Hc. apply addDepFlag_inv. by eapply depCalls_types. }
  destruct Hinv as (Hnd & _ & Hall). split; [|done].
  apply (NoDup_fmap_factor key
           (λ k, k.1.1.1 +:+ ":" +:+ default "" k.1.1.2 +:+ ":" +:+ default "" k.2)).
  exact Hnd.
Qed.

(** *** The findings of one file *)

Lemma patternFlags_fileFlags (filePath flagType : string) (flags : list RiskFlag) :
  patternFlags filePath flagType flags → fileFlags filePath [(flagType, false)] flags.
Proof.
  intros [Hnd Hall]. split; [by apply NoDup_lines_keys|].
  eapply Forall_impl; [exact Hall|]. intros f (Ht & Hl & He & Hs).
  split; [done|]. split; [by rewrite Hs|]. unfold tag. rewrite Ht, He.
  apply list_elem_of_here.
Qed.

Lemma scanAst_fileFlags (env : Env) (filePath content : string) :
  fileFlags filePath astTags (scanAst env filePath content).
Proof.
  destruct (scanAst_flags env filePath content) as [Hnd Hall]. split; [done|].
  eapply Forall_impl; [exact Hall|]. intros f (Hl & Hs & Ht).
  split; [done|]. split; [by rewrite Hs | done].
Qed.

Lemma fileFlags_app (filePath : string) (T1 T2 : list (string * bool))
    (l1 l2 : list RiskFlag) :
  Forall (λ x, x ∉ T2) T1 →
  fileFlags filePath T1 l1 → fileFlags filePath T2 l2 →
  fileFlags filePath (T1 ++ T2) (l1 ++ l2).
Proof.
  intros Hdis [Hnd1 Hall1] [Hnd2 Hall2]. rewrite Forall_forall in Hdis. split.
  - apply NoDup_keys_app; [done..|]. intros f1 f2 Hf1 Hf2 Heq%tag_key.
    rewrite Forall_forall in Hall1, Hall2.
    destruct (Hall1 f1 Hf1) as (_ & _ & Ht1), (Hall2 f2 Hf2) as (_ & _ & Ht2).
    apply (Hdis _ Ht1). by rewrite Heq.
  - apply Forall_app. split; (eapply Forall_impl; [eassumption|]);
      intros f (? & ? & ?); repeat split; try done; apply elem_of_app; auto.
Qed.

Lemma scanFile_flags (env : Env) (filePath : string) :
  fileFlags filePath fileTags (scanFile env filePath).
Proof.
  unfold scanFile. destruct (readFile env filePath) as [content|].
  2: { split; [apply NoDup_nil_2 | apply Forall_nil_2]. }
  repeat (apply (fileFlags_app _ [_]);
          [compute_done | apply patternFlags_fileFlags, checkPatterns_flags |]).
  apply (fileFlags_app _ [_]);
    [compute_done | apply patternFlags_fileFlags, longLines_flags
    | apply scanAst_fileFlags].
Qed.

(** *** The findings of the whole static scan *)

Lemma location_key (f1 f2 : RiskFlag) : key f1 = key f2 → location f1 = location f2.
Proof. unfold key. by intros [= _ -> _ _]. Qed.

Lemma type_key (f1 f2 : RiskFlag) : key f1 = key f2 → type f1 = type f2.
Proof. unfold key. by intros [= -> _ _ _]. Qed.

Lemma fileFlags_filesFlags (p : string) (flags : list RiskFlag) :
  fileFlags p fileTags flags → filesFlags [p] flags.
Proof.
  intros [Hnd Hall]. split; [done|]. eapply Forall_impl; [exact Hall|].
  intros f (? & ? & ?). split; [|done]. exists p. split; [apply list_elem_of_here | done].
Qed.

Lemma filesFlags_app (ps qs : list string) (l1 l2 : list RiskFlag) :
  (∀ p, p ∈ ps → p ∉ qs) →
  filesFlags ps l1 → filesFlags qs l2 → filesFlags (ps ++ qs) (l1 ++ l2).
Proof.
  intros Hdis [Hnd1 Hall1] [Hnd2 Hall2]. split.
  - apply NoDup_keys_app; [done..|]. intros f1 f2 Hf1 Hf2 Heq%location_key.
    rewrite Forall_forall in Hall1, Hall2.
    destruct (Hall1 f1 Hf1) as ((p & Hp & Hl1) & _), (Hall2 f2 Hf2) as ((q & Hq & Hl2) & _).
    apply (Hdis p Hp). congruence.
  - apply Forall_app. split; (eapply Forall_impl; [eassumption|]);
      intros f ((p & ? & ?) & ? & ?); repeat split; try done; exists p;
      (split; [apply elem_of_app; auto | done]).
Qed.

Lemma bind_scanFile_flags (env : Env) (files : list string) :
  NoDup files → filesFlags files (files ≫= scanFile env).
Proof.
  induction 1 as [|p files Hp Hnd IH].
  - split; [apply NoDup_nil_2 | apply Forall_nil_2].
  - apply (filesFlags_app [p] files).
    + by intros q ->%list_elem_of_singleton.
    + apply fileFlags_filesFlags, scanFile_flags.
    + exact IH.
Qed.

Lemma staticFlags_unique (env : Env) (skill : Skill) (files : list string) :
  NoDup files → path_join env (path skill) "SKILL.md" ∉ files →
  NoDup (key <$> staticFlags env skill files)
  ∧ Forall (λ f, source f ≠ Some behavior) (staticFlags env skill files).
Proof.
  intros Hnd Hmd. unfold staticFlags.
  set (skillMdPath := path_join env (path skill) "SKILL.md") in *.
  set (md := if existsSync env skillMdPath then scanFile env skillMdPath else []).
  assert (Hmdf : filesFlags [skillMdPath] md).
  { unfold md. destruct (existsSync env skillMdPath).
    - apply fileFlags_filesFlags, scanFile_flags.
    - split; [apply NoDup_nil_2 | apply Forall_nil_2]. }
  pose proof (filesFlags_app files [skillMdPath] _ _
                (λ p Hp Hq, Hmd (eq_ind _ (λ q, q ∈ files) Hp _
                                   (proj1 (list_elem_of_singleton _ _) Hq)))
                (bind_scanFile_flags env files Hnd) Hmdf) as [Hnd1 Hall1].
  destruct (scanDependencies_flags env (path skill)) as [Hnd2 Hall2].
  rewrite app_assoc. split.
  - apply NoDup_keys_app; [done..|]. intros f1 f2 Hf1 Hf2 Heq%type_key.
    rewrite Forall_forall in Hall1, Hall2.
    destruct (Hall1 f1 Hf1) as (_ & _ & Ht1), (Hall2 f2 Hf2) as (_ & Ht2).
    rewrite <- Heq in Ht2. revert Ht1 Ht2. generalize (bool_decide (is_Some (evidence f1))).
    unfold tag. generalize (type f1). clear. intros t b H1 H2.
    assert (Hdis : Forall (λ x, x.1 ∉ depTypes) fileTags) by compute_done.
    rewrite Forall_forall in Hdis. by apply (Hdis _ H1).
  - apply Forall_app. split.
    + eapply Forall_impl; [exact Hall1|]. by intros f (_ & ? & _).
    + eapply Forall_impl; [exact Hall2|]. intros f [Hs _]. by rewrite Hs.
Qed.

Lemma scanBehavior_source (env : Env) (skill : Skill) :
  Forall (λ f, source f = Some behavior) (scanBehavior env skill).
Proof.
  rewrite scanBehavior_counted. destruct (existsSync _ _); [|done].
  destruct (readFile _ _); [|done]. by apply Forall_fmap, Forall_true.
Qed.

Lemma filter_static (static dynamic : list RiskFlag) :
  Forall (λ f, source f ≠ Some behavior) static →
  Forall (λ f, source f = Some behavior) dynamic →
  filter (λ f, source f ≠ Some behavior) (static ++ dynamic) = static.
Proof.
  intros Hs Hd. rewrite filter_app.
  assert (filter (λ f, source f ≠ Some behavior) static = static) as ->.
  { clear Hd. induction Hs as [|f l Hf _ IH]; [done|].
    rewrite filter_cons, decide_True by done. by rewrite IH. }
  assert (filter (λ f, source f ≠ Some behavior) dynamic = []) as ->.
  { clear Hs. induction Hd as [|f l Hf _ IH]; [done|].
    rewrite filter_cons, decide_False by (by intros ?). done. }
  apply app_nil_r.
Qed.

End uniqueness.

(** ** A skill path that does not exist *)

Section missing_path.
Import JS Shared Scanner Spec Inv.




End missing_path.

(** ** The properties of the specification *)

Section scanner_claims.
Import JS Shared Scanner Spec Inv Examples.

(** C1. The risk score of a scan is the rounded sum, over the distinct
    categories present, of [weight + min(count - 1, 3) * weight / 4], with
    unknown categories weighing 5, clamped to at most 100 and never
    negative. *)
Theorem C1_score_formula (env : Env) (skill : Skill) (r : RiskScanResult) :
  scanSkill env skill = Returned r →
  score r = Z.min 100 (Math_round (total (flags r))) ∧ 0 ≤ score r ≤ 100.
Proof.
  unfold scanSkill. destruct (listSkillFiles env (path skill)) as [files|]; [|done].
  intros [= <-]. simpl. rewrite calculateScore_total.
  pose proof (Math_round_nonneg _
                (total_nonneg (staticFlags env skill files ++ scanBehavior env skill))).
  split; [done | lia].
Qed.

Lemma C1_score_formula_witness :
  ∃ r, scanSkill demoHost demo = Returned r
       ∧ score r = Z.min 100 (Math_round (total (flags r))) ∧ 0 ≤ score r ≤ 100.
Proof.
  eexists. split; [vm_compute; reflexivity|].
  apply (C1_score_formula demoHost demo). vm_compute. reflexivity.
Defined.

(** C2. On the scores from 0 to 100 the recommendation is allow exactly up
    to 30, sandbox exactly from 31 to 60 and block exactly from 61 on; the
    three ranges cover the interval and do not overlap. *)
Theorem C2_recommendation_partition (score : Z) :
  0 ≤ score ≤ 100 →
  (getRecommendation score = allow ↔ score ≤ 30)
  ∧ (getRecommendation score = sandbox ↔ 31 ≤ score ≤ 60)
  ∧ (getRecommendation score = block ↔ 61 ≤ score)
  ∧ (score ≤ 30 ∨ 31 ≤ score ≤ 60 ∨ 61 ≤ score)
  ∧ ¬ (score ≤ 30 ∧ 31 ≤ score) ∧ ¬ (score ≤ 60 ∧ 61 ≤ score).
Proof.
  intros Hrange. destruct (recommendation_tiers score) as (Ha & Hs & Hb).
  repeat split; try tauto; lia.
Qed.

Lemma C2_recommendation_partition_witness :
  0 ≤ 31 ≤ 100 ∧ getRecommendation 31 = sandbox.
Proof.
  split; [lia|].
  destruct (C2_recommendation_partition 31) as (_ & [_ H] & _); [lia|].
  apply H. lia.
Defined.

(** C10. The recommendation of a returned result is the tier of its
    returned score: a total above 100 and the clamped 100 both give
    block. *)
Theorem C10_recommendation_agrees (env : Env) (skill : Skill) (r : RiskScanResult) :
  scanSkill env skill = Returned r → recommendation r = getRecommendation (score r).
Proof.
  unfold scanSkill. destruct (listSkillFiles env (path skill)) as [files|]; [|done].
  intros [= <-]. simpl. by rewrite recommendation_clamped.
Qed.

Lemma C10_recommendation_agrees_witness :
  ∃ r, scanSkill demoHost demo = Returned r
       ∧ score r = 100 ∧ recommendation r = getRecommendation (score r).
Proof.
  eexists. split; [vm_compute; reflexivity|]. split; [reflexivity|].
  apply (C10_recommendation_agrees demoHost demo). vm_compute. reflexivity.
Defined.




(** C8, as stated, fails: a record of the skill without a result field is
    counted as blocked. *)
Lemma C8_missing_result_counterexample :
  blockedLine bareHost demo (stringify bareRecord) = false
  ∧ length (scanBehavior bareHost demo) = 1%nat
  ∧ ¬ behavior_as_stated bareHost demo.
Proof.
  split; [vm_compute; reflexivity|]. split; [vm_compute; reflexivity|].
  intros H. specialize (H _ eq_refl eq_refl). vm_compute in H. discriminate.
Qed.

(** C8, amended. The behaviour scan gives one runtime_blocked finding of
    source behavior for exactly those of the last 2000 non-blank lines of
    the audit trail that parse as JSON with action runtime, a non-empty
    skillId equal to the skill's id, a result that is blocked or missing,
    and details of which every value has a text; its severity is high for
    the kinds shell and network and medium otherwise; other lines are
    skipped, among them a record whose details hold an object with a key
    toString of its own, on which the conversion to text throws; a trail
    that is absent or unreadable gives no finding.  The window is the
    end of the list of the lines that have a character other than white
    space: all of them up to 2000, the last 2000 beyond. *)
Theorem C8_behavior_findings (env : Env) (skill : Skill) :
  scanBehavior env skill
  = (if existsSync env (auditPath env) then
       match readFile env (auditPath env) with
       | Some content =>
           finding env <$> filter (λ text, countedLine env skill text = true)
                             (recentLines content)
       | None => []
       end
     else [])
  ∧ (∀ f, f ∈ scanBehavior env skill →
      type f = "runtime_blocked" ∧ source f = Some behavior
      ∧ ∃ kind, description f = "Runtime guard blocked " +:+ kind +:+ " action"
                ∧ severity f = if bool_decide (kind = "shell" ∨ kind = "network")
                               then high else medium)
  ∧ (∀ content, ∃ older,
       trailLines content = older ++ recentLines content
       ∧ length (recentLines content) = Nat.min 2000 (length (trailLines content)))
  ∧ (∀ text entry key own,
       JSON_parse env text = Some entry →
       assoc key (Object_entries (orEmpty (prop entry "details"))) = Some (JObj own) →
       is_Some (assoc "toString" own) →
       countedLine env skill text = false).
Proof.
  split; [apply scanBehavior_counted|]. split; [|split; [apply recentLines_window|]].
  - intros f. rewrite scanBehavior_counted.
    destruct (existsSync _ _); [|by intros ?%elem_of_nil].
    destruct (readFile _ _); [|by intros ?%elem_of_nil].
    intros (text & -> & _)%list_elem_of_fmap. repeat split.
    by eexists.
  - intros text entry key own Hparse Hkey [x Hown]. unfold countedLine. rewrite Hparse.
    apply andb_false_intro2. unfold printable.
    induction (Object_entries (orEmpty (prop entry "details"))) as [|[k v] rest IH]; [done|].
    cbn [assoc] in Hkey. cbn [forallb]. destruct (String.eqb k key).
    + injection Hkey as ->. cbn [String_of]. rewrite Hown.
      rewrite bool_decide_eq_false_2; [done|]. by intros [? [=]].
    + rewrite (IH Hkey). apply andb_false_r.
Qed.

(** C9, as stated, fails: two blocked calls recorded with the same details
    give two findings with the same key. *)
Lemma C9_repeated_behavior_counterexample :
  (∃ r f, scanSkill repeatedHost demo = Returned r ∧ flags r = [f; f])
  ∧ ¬ scan_unique repeatedHost demo.
Proof.
  split; [do 2 eexists; split; vm_compute; reflexivity|].
  intros H. specialize (H _ eq_refl). unfold unique_findings in H.
  vm_compute in H. apply NoDup_cons in H as [Hin _]. apply Hin, list_elem_of_here.
Qed.

(** C9, amended. When the listing names each file once, no two findings
    of the pattern, syntax-tree and dependency detectors have the same
    category, file, line and evidence; the behaviour findings, one per
    counted record, are not de-duplicated. *)
Theorem C9_static_findings_unique (env : Env) (skill : Skill) (files : list string)
    (r : RiskScanResult) :
  listSkillFiles env (path skill) = Some files →
  NoDup files →
  path_join env (path skill) "SKILL.md" ∉ files →
  scanSkill env skill = Returned r →
  NoDup (key <$> filter (λ f, source f ≠ Some behavior) (flags r)).
Proof.
  intros Hfiles Hnd Hmd. unfold scanSkill. rewrite Hfiles. intros [= <-]. simpl.
  destruct (staticFlags_unique env skill files Hnd Hmd) as [Hkeys Hsrc].
  by rewrite (filter_static _ _ Hsrc (scanBehavior_source env skill)).
Qed.

Lemma C9_static_findings_unique_witness :
  ∃ r, scanSkill demoHost demo = Returned r
       ∧ length (flags r) = 8%nat
       ∧ NoDup (key <$> filter (λ f, source f ≠ Some behavior) (flags r)).
Proof.
  eexists. split; [vm_compute; reflexivity|]. split; [reflexivity|].
  apply (C9_static_findings_unique demoHost demo ["/skills/demo/index.js"]).
  - vm_compute. reflexivity.
  - apply NoDup_singleton.
  - intros H%list_elem_of_singleton. vm_compute in H. discriminate.
  - vm_compute. reflexivity.
Defined.

End scanner_claims.

Section guard_claims.
Import Guard GuardSpec Examples.

(** C3, as stated, fails: with no directory listed, the guard still lets
    its own audit file through. *)
Lemma C3_audit_path_counterexample :
  let g := guardOf (policy true false true false [] []) in
  NodeGuard.isPathAllowed g (Some home_audit) = true
  ∧ PyGuard._is_path_allowed g home_audit = true
  ∧ ¬ path_rule g (NodeGuard.isPathAllowed g (Some home_audit)) home_audit.
Proof.
  split; [vm_compute; reflexivity|]. split; [vm_compute; reflexivity|].
  intros [H _]. destruct H as (d & Hd & _); [vm_compute; reflexivity|].
  by apply elem_of_nil in Hd.
Qed.

(** C3, amended. For every allow-list of directories, both guards allow a
    target path exactly when it is not empty and its canonical form equals
    that of the audit file, or equals the canonical form of a listed
    directory or extends it followed by the path separator; a missing
    target is refused.  Under the listed directory /ws/skills/foo the path
    /ws/skills/foo/data.txt is allowed and /ws/skills/foobar/x is not. *)
Theorem C3_path_allow_list :
  (∀ g target, guard_path_rule g (NodeGuard.isPathAllowed g (Some target)) target)
  ∧ (∀ g target, guard_path_rule g (PyGuard._is_path_allowed g target) target)
  ∧ (∀ g, NodeGuard.isPathAllowed g None = false)
  ∧ (let g := guardOf (policy true false true false ["/ws/skills/foo"] []) in
     NodeGuard.isPathAllowed g (Some "/ws/skills/foo/data.txt") = true
     ∧ NodeGuard.isPathAllowed g (Some "/ws/skills/foobar/x") = false
     ∧ PyGuard._is_path_allowed g "/ws/skills/foo/data.txt" = true
     ∧ PyGuard._is_path_allowed g "/ws/skills/foobar/x" = false).
Proof.
  split; [exact node_path_rule|]. split; [exact py_path_rule|]. split; [done|].
  vm_compute. done.
Qed.

(** C4. For every allow-list of domains a guard can be loaded with, both
    guards allow a host exactly when its name, in lower case and without
    what follows a colon, equals a listed domain or ends with a dot
    followed by it; a missing host is refused.  Under the listed domain
    example.com the host api.example.com is allowed and evilexample.com is
    not. *)
Theorem C4_domain_allow_list :
  (∀ rt host,
     domain_rule (NodeGuard.load rt)
       (NodeGuard.isDomainAllowed (NodeGuard.load rt) (Some host)) host)
  ∧ (∀ rt host,
       domain_rule (PyGuard.load rt)
         (PyGuard._is_domain_allowed (PyGuard.load rt) (Some host)) host)
  ∧ (∀ g, NodeGuard.isDomainAllowed g None = false
          ∧ PyGuard._is_domain_allowed g None = false)
  ∧ (let rt := posix [("CLAWSHIELD_ALLOWED_DOMAINS", "example.com")] in
     NodeGuard.isDomainAllowed (NodeGuard.load rt) (Some "api.example.com") = true
     ∧ NodeGuard.isDomainAllowed (NodeGuard.load rt) (Some "evilexample.com") = false
     ∧ PyGuard._is_domain_allowed (PyGuard.load rt) (Some "API.Example.com:443") = true
     ∧ PyGuard._is_domain_allowed (PyGuard.load rt) (Some "evilexample.com") = false).
Proof.
  split; [|split; [|split]].
  - intros rt host. apply node_domain_rule, parseList_nonempty.
  - intros rt host. apply py_domain_rule, _parse_list_nonempty.
  - done.
  - vm_compute. done.
Qed.

(** C5 fails on the code.  With blocking off and example.com listed, the
    Node guard denies the host evil.test and raises, while the Python guard
    allows it and connects. *)
Theorem C5_guards_disagree :
  let g := guardOf (policy true false false false [] ["example.com"]) in
  NodeGuard.networkAllowed g (Some "evil.test") = false
  ∧ PyGuard.network_allowed g (Some "evil.test") = true
  ∧ (NodeGuard.fetch g (Some "evil.test") (world [])).1
    = Throw (NodeGuard.blockedError "ClawShield blocked network access: evil.test")
  ∧ performed (NodeGuard.fetch g (Some "evil.test") (world [])).2 = []
  ∧ (PyGuard.guarded_connect g "socket.connect" (Some "evil.test") (world [])).1 = Normal ()
  ∧ performed (PyGuard.guarded_connect g "socket.connect" (Some "evil.test") (world [])).2
    = [mkCall "socket.connect" (Some "evil.test")].
Proof. vm_compute. done. Qed.

(** C6, as stated, fails: a denied read of an environment variable
    through the Node proxy answers [undefined] and raises nothing. *)
Lemma C6_env_read_counterexample :
  let g := guardOf (policy true false false true [] []) in
  node_denies g (EnvGet "API_KEY") = true
  ∧ (node_run g (EnvGet "API_KEY") (world [true])).1 = Normal None
  ∧ ¬ every_denial_raises.
Proof.
  split; [vm_compute; reflexivity|]. split; [vm_compute; reflexivity|].
  intros [H _].
  destruct (H (guardOf (policy true false false true [] [])) (world [true])
              (EnvGet "API_KEY") eq_refl) as [[e He] _].
  vm_compute in He. discriminate.
Qed.

(** C6, amended. Whatever the writes to the audit file do, a denied shell,
    filesystem-write or network operation (and in Python a denied access
    to [os.environ] by subscript) raises an error to the caller; no denied
    operation reaches the original function or changes the environment; a
    denied read through the Node proxy answers [undefined] and a denied
    [os.environ.get] its default, without an error; and the audit write
    itself never throws. *)
Theorem C6_denials_raise :
  (∀ g w op, node_raising op = true → node_denies g op = true → raised w (node_run g op w))
  ∧ (∀ g w op, py_raising op = true → py_denies g op = true → raised w (py_run g op w))
  ∧ (∀ g w op, node_denies g op = true → quiet w (node_run g op w).2)
  ∧ (∀ g w op, py_denies g op = true → quiet w (py_run g op w).2)
  ∧ (∀ g w key, node_denies g (EnvGet key) = true →
       (node_run g (EnvGet key) w).1 = Normal None)
  ∧ (∀ g w key dflt, py_denies g (PyEnvGet key dflt) = true →
       (py_run g (PyEnvGet key dflt) w).1 = Normal dflt)
  ∧ (∀ g a r d w, ∃ w', NodeGuard.writeAudit g a r d w = (Normal (), w') ∧ quiet w w')
  ∧ (∀ g a r d w, ∃ w', PyGuard._write_audit g a r d w = (Normal (), w') ∧ quiet w w').
Proof.
  repeat split.
  - apply node_denied_raises; done.
  - by destruct (node_denied_raises g w op) as [_ ?].
  - apply py_denied_raises; done.
  - by destruct (py_denied_raises g w op) as [_ ?].
  - by destruct (node_denied_quiet g w op) as [? _].
  - by destruct (node_denied_quiet g w op) as [_ ?].
  - by destruct (py_denied_quiet g w op) as [? _].
  - by destruct (py_denied_quiet g w op) as [_ ?].
  - intros g w key Hd. by destruct (node_denied_read g w key Hd) as (w' & -> & _).
  - intros g w key dflt Hd. by destruct (py_denied_get g w key dflt Hd) as (w' & -> & _).
  - apply node_writeAudit_swallows.
  - apply py_write_audit_swallows.
Qed.

Lemma C6_denials_raise_witness :
  let g := guardOf (policy true false true false [] []) in
  node_denies g (FsWrite "writeFileSync" (Some "/etc/passwd")) = true
  ∧ raised (world [true; true]) (node_run g (FsWrite "writeFileSync" (Some "/etc/passwd"))
                                   (world [true; true])).
Proof.
  split; [vm_compute; reflexivity|].
  apply (proj1 C6_denials_raise); vm_compute; reflexivity.
Defined.

End guard_claims.

(** * Further properties of the code *)

(** ** Laws of the score *)

Section score_laws.
Import JS Shared Scanner Spec Inv Examples ScanLaws.

Lemma count_perm (c : string) (fs fs' : list RiskFlag) :
  fs ≡ₚ fs' → count c fs = count c fs'.
Proof. intros H. unfold count. by rewrite H. Qed.

Lemma typeCount_perm (fs fs' : list RiskFlag) :
  fs ≡ₚ fs' → typeCount fs = typeCount fs'.
Proof.
  intros H. apply map_eq. intros c.
  by rewrite !typeCount_lookup, (count_perm c fs fs' H).
Qed.

Lemma calculateScore_perm (fs fs' : list RiskFlag) :
  fs ≡ₚ fs' → calculateScore fs = calculateScore fs'.
Proof. intros H. unfold calculateScore. by rewrite (typeCount_perm fs fs' H). Qed.

End score_laws.

Section score_steps.
Import JS Shared Scanner Spec Inv Examples ScanLaws.

Lemma Math_round_le (x y : Q) : (x <= y)%Q → Math_round x ≤ Math_round y.
Proof.
  intros H. unfold Math_round. apply Qfloor_resp_le. by apply Qplus_le_compat; [|apply Qle_refl].
Qed.

Lemma Qfloor_unique (x : Q) (z : Z) :
  (inject_Z z <= x)%Q → (x < inject_Z (z + 1))%Q → Qfloor x = z.
Proof.
  intros Hle Hlt. pose proof (Qfloor_le x) as H1. pose proof (Qlt_floor x) as H2.
  assert (z < Qfloor x + 1) by (rewrite Zlt_Qlt; eapply Qle_lt_trans; eauto).
  assert (Qfloor x < z + 1) by (rewrite Zlt_Qlt; eapply Qle_lt_trans; eauto).
  lia.
Qed.

Lemma Math_round_plus_Z (x : Q) (n : Z) : Math_round (x + inject_Z n) = Math_round x + n.
Proof.
  unfold Math_round. apply Qfloor_unique.
  - rewrite inject_Z_plus. pose proof (Qfloor_le (x + (1 # 2))) as H.
    setoid_replace (x + inject_Z n + (1 # 2))%Q with ((x + (1 # 2)) + inject_Z n)%Q
      using relation Qeq by ring.
    by apply Qplus_le_compat; [|apply Qle_refl].
  - pose proof (Qlt_floor (x + (1 # 2))) as H.
    setoid_replace (x + inject_Z n + (1 # 2))%Q with ((x + (1 # 2)) + inject_Z n)%Q
      using relation Qeq by ring.
    replace (Qfloor (x + (1 # 2)) + n + 1) with ((Qfloor (x + (1 # 2)) + 1) + n) by lia.
    rewrite (inject_Z_plus _ n). by apply Qplus_lt_le_compat; [|apply Qle_refl].
Qed.

Lemma sumQ_ext {A} (g h : A → Q) (l : list A) :
  (∀ c, c ∈ l → (g c == h c)%Q) → (sumQ (g <$> l) == sumQ (h <$> l))%Q.
Proof.
  induction l as [|c l IH]; intros H; [reflexivity|].
  rewrite !fmap_cons. simpl. rewrite (H c), IH; [reflexivity| |apply list_elem_of_here].
  intros c' Hc'. apply H. by apply list_elem_of_further.
Qed.

Lemma sumQ_update `{EqDecision A} (g h : A → Q) (l : list A) (c0 : A) (δ : Q) :
  NoDup l → c0 ∈ l → (∀ c, c ∈ l → c ≠ c0 → (h c == g c)%Q) → (h c0 == g c0 + δ)%Q →
  (sumQ (h <$> l) == sumQ (g <$> l) + δ)%Q.
Proof.
  induction l as [|c l IH]; intros Hnd Hin Hne H0; [by apply elem_of_nil in Hin|].
  apply NoDup_cons in Hnd as [Hc Hnd]. rewrite !fmap_cons. simpl.
  destruct (decide (c = c0)) as [->|Hcc].
  - rewrite H0, (sumQ_ext h g l); [ring|]. intros c Hcl. apply Hne.
    + by apply list_elem_of_further.
    + intros ->. done.
  - apply elem_of_cons in Hin as [->|Hin]; [done|].
    rewrite (Hne c), IH; [ring|done|done| |done|apply list_elem_of_here|done].
    intros c' Hc' Hn. apply Hne; [by apply list_elem_of_further | done].
Qed.

Lemma Qmin_Z (a b : Z) : (Qmin (inject_Z a) (inject_Z b) == inject_Z (Z.min a b))%Q.
Proof.
  destruct (Z.le_ge_cases a b) as [H|H].
  - rewrite Q.min_l, Z.min_l; [reflexivity|done|by rewrite <- Zle_Qle].
  - rewrite Q.min_r, Z.min_r; [reflexivity|done|by rewrite <- Zle_Qle].
Qed.

Lemma contribution_count (fs : list RiskFlag) (c : string) :
  (contribution fs c == weight c + inject_Z (Z.min (count c fs - 1) 3) * (weight c / 4))%Q.
Proof. unfold contribution. change 3%Q with (inject_Z 3). by rewrite Qmin_Z. Qed.

Lemma total_cons (f : RiskFlag) (fs : list RiskFlag) :
  (total (f :: fs) == total fs + increment fs f)%Q.
Proof.
  unfold total, increment, categories. rewrite fmap_cons. simpl remove_dups.
  pose proof (count_nonneg (type f) fs) as Hge.
  destruct (decide_rel elem_of (type f) (type <$> fs)) as [Hin|Hnin].
  - rewrite decide_False by (rewrite count_zero; tauto).
    apply sumQ_update with (c0 := type f).
    + apply NoDup_remove_dups.
    + by apply elem_of_remove_dups.
    + intros c _ Hne. rewrite !contribution_count, count_cons.
      rewrite decide_False by done. reflexivity.
    + rewrite !contribution_count, count_cons, decide_True by done.
      assert (count (type f) fs ≠ 0) by (rewrite count_zero; tauto).
      case_decide.
      * replace (Z.min (1 + count (type f) fs - 1) 3) with (Z.min (count (type f) fs - 1) 3 + 1)
          by lia.
        rewrite inject_Z_plus. change (inject_Z 1) with 1%Q. ring.
      * replace (Z.min (1 + count (type f) fs - 1) 3) with (Z.min (count (type f) fs - 1) 3)
          by lia.
        ring.
  - rewrite decide_True by (by rewrite count_zero).
    rewrite fmap_cons. simpl sumQ.
    rewrite contribution_count, count_cons, decide_True by done.
    replace (count (type f) fs) with 0 by (symmetry; by rewrite count_zero).
    rewrite (sumQ_ext (contribution (f :: fs)) (contribution fs)).
    + change (inject_Z (Z.min (1 + 0 - 1) 3)) with 0%Q. ring.
    + intros c Hc. rewrite elem_of_remove_dups in Hc. rewrite !contribution_count, count_cons.
      rewrite decide_False; [reflexivity|]. intros Heq. apply Hnin. by rewrite Heq.
Qed.

Lemma increment_nonneg fs f : (0 <= increment fs f)%Q.
Proof.
  unfold increment. pose proof (weight_nonneg (type f)) as Hw.
  repeat case_decide; [done| |done].
  unfold Qdiv. apply Qmult_le_0_compat; [done|]. done.
Qed.

Lemma calculateScore_snoc (fs : list RiskFlag) (f : RiskFlag) :
  calculateScore (fs ++ [f]) = Math_round (total fs + increment fs f).
Proof.
  rewrite (calculateScore_perm (fs ++ [f]) (f :: fs)).
  - rewrite calculateScore_total. unfold Math_round. apply Qfloor_comp.
    by rewrite total_cons.
  - by rewrite Permutation_app_comm.
Qed.

End score_steps.

Section score_extras.
Import JS Shared Scanner Spec Inv Examples ScanLaws.

Lemma typeWeights_integer (c : string) (w : Q) :
  typeWeights !! c = Some w → (w == inject_Z (Qfloor w))%Q ∧ (w <= 30)%Q.
Proof.
  intros H. apply elem_of_list_to_map_2 in H.
  repeat (apply elem_of_cons in H as [[= -> ->]|H]; [by split|]).
  by apply elem_of_nil in H.
Qed.

Lemma weight_integer (c : string) :
  (weight c == inject_Z (Qfloor (weight c)))%Q ∧ (weight c <= 30)%Q.
Proof.
  unfold weight. destruct (typeWeights !! c) as [w|] eqn:E; [|done].
  by apply typeWeights_integer in E.
Qed.

Lemma calculateScore_mono_snoc (fs : list RiskFlag) (f : RiskFlag) :
  calculateScore fs ≤ calculateScore (fs ++ [f]).
Proof.
  rewrite calculateScore_snoc, calculateScore_total. apply Math_round_le.
  pose proof (increment_nonneg fs f) as H.
  setoid_replace (total fs) with (total fs + 0)%Q using relation Qeq at 1 by ring.
  by apply Qplus_le_compat; [apply Qle_refl|].
Qed.

Lemma categories_single (c : string) (fs : list RiskFlag) :
  Forall (λ f, type f = c) fs → fs ≠ [] → categories fs = [c].
Proof.
  unfold categories. induction 1 as [|f fs Hf Hall IH]; [done|]. intros _.
  rewrite fmap_cons. simpl. rewrite Hf. destruct fs as [|f' fs]; [done|].
  destruct (decide_rel elem_of c (type <$> f' :: fs)) as [_|Hn]; [by apply IH|].
  exfalso. apply Hn. apply Forall_cons in Hall as [<- _]. rewrite fmap_cons.
  apply list_elem_of_here.
Qed.

Lemma contribution_bound (fs : list RiskFlag) (c : string) :
  (contribution fs c <= 105 # 2)%Q.
Proof.
  unfold contribution. destruct (weight_integer c) as [_ Hw]. pose proof (weight_nonneg c) as H0.
  set (w := weight c) in *.
  assert (Hq : (Qmin (inject_Z (count c fs - 1)) 3 * (w / 4) <= 3 * (w / 4))%Q).
  { apply Qmult_le_compat_r; [apply Q.le_min_r|].
    unfold Qdiv. apply Qmult_le_0_compat; done. }
  eapply Qle_trans; [apply Qplus_le_compat; [apply Qle_refl | exact Hq]|].
  setoid_replace (w + 3 * (w / 4))%Q with (w * (7 # 4))%Q using relation Qeq by field.
  setoid_replace (105 # 2)%Q with (30 * (7 # 4))%Q using relation Qeq by reflexivity.
  by apply Qmult_le_compat_r.
Qed.

Lemma single_category_score (c : string) (fs : list RiskFlag) :
  Forall (λ f, type f = c) fs → calculateScore fs ≤ 53.
Proof.
  intros Hall. destruct fs as [|f fs]; [by vm_compute|].
  rewrite calculateScore_total. unfold total.
  rewrite (categories_single c) by done. simpl.
  change 53 with (Math_round (105 # 2)). apply Math_round_le.
  setoid_replace (contribution (f :: fs) c + 0)%Q with (contribution (f :: fs) c)
    using relation Qeq by ring.
  apply contribution_bound.
Qed.

(** X1. The score does not depend on the order in which the findings are
    reported. *)
Theorem X1_score_order_independent (fs fs' : list RiskFlag) :
  fs ≡ₚ fs' → calculateScore fs = calculateScore fs'.
Proof.
  intros H. unfold calculateScore. by rewrite (typeCount_perm fs fs' H).
Qed.

Lemma X1_score_order_independent_witness :
  [Samples.shellFinding; Samples.networkFinding]
  ≡ₚ [Samples.networkFinding; Samples.shellFinding]
  ∧ calculateScore [Samples.shellFinding; Samples.networkFinding]
    = calculateScore [Samples.networkFinding; Samples.shellFinding].
Proof.
  split; [apply perm_swap|]. apply X1_score_order_independent. apply perm_swap.
Defined.

(** X2. Among findings of which no category is a name that every object
    inherits, the first finding of a category not yet present raises the
    score by exactly the weight of that category, an integer from 5 to
    30. *)
Theorem X2_new_category_adds_weight (fs : list RiskFlag) (f : RiskFlag) :
  plain (fs ++ [f]) →
  type f ∉ type <$> fs →
  calculateScore (fs ++ [f]) = calculateScore fs + Qfloor (weightOf (type f))
  ∧ (inject_Z (Qfloor (weightOf (type f))) == weightOf (type f))%Q
  ∧ 5 ≤ Qfloor (weightOf (type f)) ≤ 30.
Proof.
  intros _ Hnew. rewrite weightOf_weight. destruct (weight_integer (type f)) as [Hint Hle].
  split; [|split; [by rewrite <- Hint|]].
  - rewrite calculateScore_snoc, calculateScore_total, <- Math_round_plus_Z.
    unfold Math_round. apply Qfloor_comp. unfold increment.
    rewrite decide_True by (by rewrite count_zero). by rewrite <- Hint.
  - unfold weight in *. destruct (typeWeights !! type f) as [w|] eqn:E; [|by vm_compute].
    apply elem_of_list_to_map_2 in E.
    repeat (apply elem_of_cons in E as [[= _ ->]|E]; [by vm_compute|]).
    by apply elem_of_nil in E.
Qed.

Lemma X2_new_category_adds_weight_witness :
  plain ([Samples.shellFinding] ++ [Samples.networkFinding])
  ∧ (type Samples.networkFinding ∉ type <$> [Samples.shellFinding])
  ∧ calculateScore ([Samples.shellFinding] ++ [Samples.networkFinding])
    = calculateScore [Samples.shellFinding] + 20.
Proof.
  assert (Hp : plain ([Samples.shellFinding] ++ [Samples.networkFinding])).
  { unfold plain. repeat constructor; compute_done. }
  assert (H : type Samples.networkFinding ∉ type <$> [Samples.shellFinding]).
  { intros H%list_elem_of_singleton. discriminate. }
  split; [exact Hp|]. split; [exact H|].
  exact (proj1 (X2_new_category_adds_weight [Samples.shellFinding] Samples.networkFinding
                  Hp H)).
Defined.

(** X3. From the fourth finding of a category on, one more finding of
    that category leaves the score unchanged. *)
Theorem X3_score_saturates (fs : list RiskFlag) (f : RiskFlag) :
  4 ≤ count (type f) fs → calculateScore (fs ++ [f]) = calculateScore fs.
Proof.
  intros H. rewrite calculateScore_snoc, calculateScore_total.
  unfold Math_round. apply Qfloor_comp. unfold increment.
  rewrite !decide_False by lia. ring.
Qed.

Lemma X3_score_saturates_witness :
  4 ≤ count (type Samples.shellFinding) (replicate 4 Samples.shellFinding)
  ∧ calculateScore (replicate 4 Samples.shellFinding ++ [Samples.shellFinding])
    = calculateScore (replicate 4 Samples.shellFinding).
Proof.
  assert (H : 4 ≤ count (type Samples.shellFinding) (replicate 4 Samples.shellFinding)).
  { by vm_compute. }
  split; [exact H|]. exact (X3_score_saturates _ _ H).
Defined.

Lemma calculateScore_mono (fs more : list RiskFlag) :
  calculateScore fs ≤ calculateScore (fs ++ more).
Proof.
  revert fs. induction more as [|f more IH]; intros fs; [by rewrite app_nil_r|].
  etrans; [apply (calculateScore_mono_snoc fs f)|].
  rewrite (cons_middle f fs more), app_assoc. apply IH.
Qed.

Lemma listed_plain (c : string) : is_Some (typeWeights !! c) → c ∉ inherited.
Proof.
  intros Hc Hin. assert (Hnone : Forall (λ n, typeWeights !! n = None) inherited).
  { repeat constructor. }
  rewrite Forall_forall in Hnone. rewrite (Hnone _ Hin) in Hc. by destruct Hc.
Qed.

Lemma scanFile_listed (env : Env) (filePath : string) :
  Forall (λ f, is_Some (typeWeights !! type f)) (scanFile env filePath).
Proof.
  destruct (scanFile_flags env filePath) as [_ H].
  eapply Forall_impl; [exact H|]. intros f (_ & _ & Ht).
  assert (Hall : Forall (λ t : string * bool, is_Some (typeWeights !! t.1)) fileTags).
  { repeat constructor; by eexists. }
  rewrite Forall_forall in Hall. exact (Hall _ Ht).
Qed.

(** Every finding of a scan is of a category that the weight table
    lists. *)
Lemma scanSkill_listed (env : Env) (skill : Skill) (r : RiskScanResult) :
  scanSkill env skill = Returned r →
  Forall (λ f, is_Some (typeWeights !! type f)) (flags r).
Proof.
  unfold scanSkill. destruct (listSkillFiles env (path skill)) as [files|]; [|done].
  intros [= <-]. cbn [flags]. unfold staticFlags. rewrite !Forall_app. split_and!.
  - apply Forall_forall. intros f (p & Hf & _)%list_elem_of_bind.
    pose proof (scanFile_listed env p) as H. rewrite Forall_forall in H. by apply H.
  - destruct (existsSync _ _); [apply scanFile_listed | done].
  - destruct (scanDependencies_flags env (path skill)) as [_ H].
    eapply Forall_impl; [exact H|]. intros f [_ Ht].
    assert (Hall : Forall (λ t : string, is_Some (typeWeights !! t)) depTypes).
    { repeat constructor; by eexists. }
    rewrite Forall_forall in Hall. exact (Hall _ Ht).
  - rewrite scanBehavior_counted. destruct (existsSync _ _); [|done].
    destruct (readFile _ _); [|done]. apply Forall_fmap, Forall_true. intros text.
    by eexists.
Qed.

(** X4. Among findings of which no category is a name that every object
    inherits, reporting more findings never lowers the score.  The
    findings of a scan are such: each is of a category that the weight
    table lists. *)
Theorem X4_score_monotone :
  (∀ fs more, plain (fs ++ more) → calculateScore fs ≤ calculateScore (fs ++ more))
  ∧ (∀ env skill r, scanSkill env skill = Returned r →
       plain (flags r) ∧ Forall (λ f, is_Some (typeWeights !! type f)) (flags r)).
Proof.
  split; [intros fs more _; apply calculateScore_mono|].
  intros env skill r H%scanSkill_listed. split; [|done].
  eapply Forall_impl; [exact H|]. intros f. apply listed_plain.
Qed.

Lemma X4_score_monotone_witness :
  plain ([Samples.shellFinding] ++ [Samples.networkFinding])
  ∧ calculateScore [Samples.shellFinding]
    ≤ calculateScore ([Samples.shellFinding] ++ [Samples.networkFinding]).
Proof.
  assert (Hp : plain ([Samples.shellFinding] ++ [Samples.networkFinding])).
  { unfold plain. repeat constructor; compute_done. }
  split; [exact Hp|].
  exact (proj1 X4_score_monotone [Samples.shellFinding] [Samples.networkFinding] Hp).
Defined.

(** X5. A scan whose findings all fall in one category scores at most 53
    and is never recommended for blocking, however many findings there
    are. *)
Theorem X5_single_category_never_blocks (env : Env) (skill : Skill) (r : RiskScanResult)
    (c : string) :
  scanSkill env skill = Returned r →
  Forall (λ f, type f = c) (flags r) →
  score r ≤ 53 ∧ recommendation r ≠ block.
Proof.
  unfold scanSkill. destruct (listSkillFiles env (path skill)) as [files|]; [|done].
  intros [= <-]. simpl. intros Hall%single_category_score.
  split; [lia|]. intros Hb. apply recommendation_tiers in Hb. lia.
Qed.

Lemma X5_single_category_never_blocks_witness :
  ∃ r, scanSkill repeatedHost demo = Returned r
       ∧ Forall (λ f, type f = "runtime_blocked") (flags r)
       ∧ score r ≤ 53 ∧ recommendation r ≠ block.
Proof.
  eexists. split; [vm_compute; reflexivity|].
  assert (H : ∀ f : RiskFlag, type f = "runtime_blocked" → Forall (λ f, type f = "runtime_blocked") [f; f]).
  { intros f Hf. by repeat constructor. }
  split; [by apply H|].
  apply (X5_single_category_never_blocks repeatedHost demo _ "runtime_blocked").
  - vm_compute. reflexivity.
  - by apply H.
Defined.

End score_extras.

(** ** The pattern scan, line by line *)

Section pattern_scan.
Import JS Shared Scanner Spec Inv Examples ScanLaws.




End pattern_scan.

(** ** Ids and descriptions of skills *)

Section more_strings.

Lemma substring_0_0 (s : string) : String.substring 0 0 s = "".
Proof. by destruct s. Qed.

Lemma slice0_length (n : nat) (s : string) : (String.length (Str.slice0 n s) ≤ n)%nat.
Proof.
  unfold Str.slice0. revert s. induction n as [|n IH]; intros s.
  - by rewrite substring_0_0.
  - destruct s as [|a s]; simpl; [lia|]. specialize (IH s). lia.
Qed.

Lemma chars_app (s t : string) :
  list_ascii_of_string (s +:+ t) = list_ascii_of_string s ++ list_ascii_of_string t.
Proof. induction s as [|a s IH]; str_simpl; simpl; [done | by rewrite IH]. Qed.

Lemma slice0_chars (n : nat) (s : string) (c : ascii) :
  c ∈ list_ascii_of_string (Str.slice0 n s) → c ∈ list_ascii_of_string s.
Proof.
  unfold Str.slice0. revert s. induction n as [|n IH]; intros s.
  - rewrite substring_0_0. by intros ?%elem_of_nil.
  - destruct s as [|a s]; simpl; [done|].
    intros [->|H]%elem_of_cons; [apply list_elem_of_here|].
    apply list_elem_of_further. by apply IH.
Qed.

Lemma dropWhile_chars (p : ascii → bool) (s : string) (c : ascii) :
  c ∈ list_ascii_of_string (Str.dropWhile p s) → c ∈ list_ascii_of_string s.
Proof.
  induction s as [|a s IH]; simpl; [done|].
  destruct (p a); [|done]. intros H. apply list_elem_of_further. by apply IH.
Qed.

Lemma dropWhileEnd_chars (p : ascii → bool) (s : string) (c : ascii) :
  c ∈ list_ascii_of_string (Str.dropWhileEnd p s) → c ∈ list_ascii_of_string s.
Proof.
  induction s as [|a s IH]; simpl; [done|].
  destruct (Str.dropWhileEnd p s) as [|b r] eqn:E.
  - destruct (p a); simpl; [by intros ?%elem_of_nil|].
    intros [->|H]%elem_of_cons; [apply list_elem_of_here | by apply elem_of_nil in H].
  - simpl. intros [->|H]%elem_of_cons; [apply list_elem_of_here|].
    apply list_elem_of_further. by apply IH.
Qed.

Lemma strip_chars (p : ascii → bool) (s : string) (c : ascii) :
  c ∈ list_ascii_of_string (Str.strip p s) → c ∈ list_ascii_of_string s.
Proof. intros H. by apply dropWhile_chars with p, dropWhileEnd_chars with p. Qed.

Lemma splitBy_nonnil (p : ascii → bool) (s : string) : Str.splitBy p s ≠ [].
Proof.
  destruct s as [|a s]; simpl; [done|]. destruct (p a); [done|].
  by destruct (Str.splitBy p s).
Qed.

(** No piece of a split holds a separator. *)
Lemma splitBy_pieces (p : ascii → bool) (s : string) :
  Forall (λ w, ∀ c, c ∈ list_ascii_of_string w → p c = false) (Str.splitBy p s).
Proof.
  induction s as [|a s IH]; simpl.
  - apply Forall_singleton. by intros c ?%elem_of_nil.
  - destruct (p a) eqn:Hp.
    + apply Forall_cons. split; [by intros c ?%elem_of_nil | done].
    + destruct (Str.splitBy p s) as [|w ws].
      * apply Forall_singleton. intros c [->|H]%elem_of_cons; [done | by apply elem_of_nil in H].
      * apply Forall_cons in IH as [Hw Hws]. apply Forall_cons. split; [|done].
        intros c [->|H]%elem_of_cons; [done | by apply Hw].
Qed.

End more_strings.

Section skill_discovery.
Import JS Shared Scanner Discovery.








Lemma collect_line (found : bool) (description : string) (lines : list string) :
  LF ∉ list_ascii_of_string description →
  Forall (λ l, LF ∉ list_ascii_of_string l) lines →
  LF ∉ list_ascii_of_string (collect found description lines).
Proof.
  intros Hd Hl. revert found description Hd.
  induction Hl as [|line rest Hline _ IH]; intros found description Hd; simpl; [done|].
  destruct (negb _ || _).
  - destruct found; [done | by apply IH].
  - assert (Hnew : LF ∉ list_ascii_of_string
              (description +:+ (if Str.nonempty description then " " else "")
               +:+ Str.trim line)).
    { rewrite !chars_app, !elem_of_app. intros [?|[H|H]]; [done| |].
      - destruct (Str.nonempty description); simpl in H.
        + apply list_elem_of_singleton in H. discriminate.
        + by apply elem_of_nil in H.
      - by apply strip_chars in H. }
    destruct (_ <? _)%nat; [done | by apply IH].
Qed.

Lemma str_app_nil_r (s : string) : s +:+ "" = s.
Proof. induction s as [|a s IH]; str_simpl; [done | by rewrite IH]. Qed.

Lemma collect_passed (lines rest : list string) :
  Forall passed lines → collect false "" (lines ++ rest) = collect false "" rest.
Proof.
  induction 1 as [|line lines Hline _ IH]; [done|]. cbn [collect app].
  destruct Hline as [-> | ->]; [done|]. by rewrite orb_true_r.
Qed.

Lemma collect_first (line : string) (rest : list string) :
  ¬ passed line →
  ∃ more, collect false "" (line :: rest) = Str.trim line +:+ more.
Proof.
  intros Hline.
  assert (Hne : Str.trim line ≠ "") by (intros ?; apply Hline; by left).
  assert (Hhead : Str.startsWith (Str.trim line) "#" = false).
  { destruct (Str.startsWith _ _) eqn:E; [|done]. destruct Hline. by right. }
  cbn [collect]. rewrite Hhead.
  destruct (Str.trim line) as [|a t] eqn:E; [done|]. cbn [Str.nonempty negb orb].
  change ("" +:+ "" +:+ String a t) with (String a t).
  destruct (_ <? _)%nat; [exists ""; by rewrite str_app_nil_r|].
  generalize (String a t) as d. clear. intros d.
  assert (Hgen : ∀ found d0, ∃ more, collect found d0 rest = d0 +:+ more).
  { induction rest as [|l rest IH]; intros found d0.
    - exists "". by rewrite str_app_nil_r.
    - cbn [collect]. destruct (negb _ || _).
      + destruct found; [exists ""; by rewrite str_app_nil_r | apply IH].
      + destruct (_ <? _)%nat.
        * eexists. reflexivity.
        * destruct (IH true (d0 +:+ (if Str.nonempty d0 then " " else "") +:+ Str.trim l))
            as [more ->].
          rewrite str_app_assoc. eexists. reflexivity. }
  apply Hgen.
Qed.

(** X8. The description extracted from the body of SKILL.md is never
    empty, has at most 200 characters and holds no line feed.  When every
    line is blank or a heading, it is the text No description available;
    otherwise it starts with the first line that is neither, trimmed, and
    is cut after 200 characters. *)
Theorem X8_description_is_one_short_line (content : string) :
  (1 ≤ String.length (extractDescription content) ≤ 200)%nat
  ∧ (LF ∉ list_ascii_of_string (extractDescription content))
  ∧ (Forall passed (Str.split LF content) →
     extractDescription content = "No description available")
  ∧ (∀ before line rest,
       Str.split LF content = before ++ line :: rest →
       Forall passed before → ¬ passed line →
       ∃ more, extractDescription content = Str.slice0 200 (Str.trim line +:+ more)).
Proof.
  split; [|split; [|split]].
  - unfold extractDescription.
    pose proof (slice0_length 200 (collect false "" (Str.split LF content))) as Hlen.
    destruct (Str.slice0 200 _) as [|a s]; cbn [Str.nonempty]; simpl in *; lia.
  - unfold extractDescription.
    set (d := collect false "" (Str.split LF content)).
    destruct (Str.slice0 200 d) as [|a s] eqn:E; cbn [Str.nonempty].
    + compute_done.
    + rewrite <- E. intros H%slice0_chars.
      revert H. apply collect_line; [by intros ?%elem_of_nil|].
      unfold Str.split. eapply Forall_impl; [apply splitBy_pieces|].
      intros w Hw Hin. specialize (Hw _ Hin). by rewrite Ascii.eqb_refl in Hw.
  - intros H. unfold extractDescription.
    rewrite <- (app_nil_r (Str.split LF content)). by rewrite (collect_passed _ [] H).
  - intros before line rest Hsplit Hbefore Hline. unfold extractDescription.
    rewrite Hsplit, (collect_passed _ _ Hbefore).
    destruct (collect_first line rest Hline) as [more ->]. exists more.
    destruct (Str.trim line) as [|a t] eqn:E; [destruct Hline; by left|]. str_simpl.
    by cbn [Str.slice0 String.substring Str.nonempty].
Qed.

End skill_discovery.

(** ** The guards compared, and their audit trail *)

Section flag_values.
Import Guard GuardSpec GuardLaws.

Lemma lower_ascii_digit_one (a : ascii) : Str.lower_ascii a = "1"%char → a = "1"%char.
Proof. destruct a as [[] [] [] [] [] [] [] []]; by vm_compute. Qed.

Lemma toLowerCase_one (v : string) : String.eqb (Str.toLowerCase v) "1" = String.eqb v "1".
Proof.
  destruct v as [|a [|b v]]; try done.
  simpl. destruct (Ascii.eqb_spec (Str.lower_ascii a) "1") as [H|H].
  - apply lower_ascii_digit_one in H. by subst.
  - destruct (Ascii.eqb_spec a "1") as [->|_]; [|done]. by vm_compute in H.
  - simpl. by destruct (Ascii.eqb _ _), (Ascii.eqb _ _).
Qed.

(** X9. The two guards read a flag of the environment alike, except for
    a value that is [on] in some casing: the Python guard takes it as set,
    the Node guard as not set. *)
Theorem X9_flag_values_differ_on_on (rt : Runtime) (key : string) (fallback : bool) :
  (NodeGuard.envBool rt key fallback ≠ PyGuard._env_bool rt key fallback
   ↔ ∃ v, environ rt key = Some v ∧ Str.toLowerCase v = "on")
  ∧ (NodeGuard.envBool rt key fallback = true → PyGuard._env_bool rt key fallback = true).
Proof.
  unfold NodeGuard.envBool, PyGuard._env_bool, JS.has.
  destruct (environ rt key) as [v|]; [|split; [|done]; split; [done | by intros (v & ? & _)]].
  rewrite <- (toLowerCase_one v). set (l := Str.toLowerCase v).
  assert (Hpy : bool_decide (l ∈ ["1"; "true"; "yes"; "on"])
                = String.eqb l "1" || String.eqb l "true" || String.eqb l "yes"
                  || String.eqb l "on").
  { destruct (String.eqb_spec l "1") as [->|H1]; [done|].
    destruct (String.eqb_spec l "true") as [->|H2]; [done|].
    destruct (String.eqb_spec l "yes") as [->|H3]; [done|].
    destruct (String.eqb_spec l "on") as [->|H4]; [done|].
    apply bool_decide_eq_false. intros H.
    repeat (apply elem_of_cons in H as [H|H]; [done|]). by apply elem_of_nil in H. }
  rewrite Hpy. split.
  - destruct (String.eqb_spec l "on") as [Hon|Hon].
    + split; [by exists v|]. intros _. rewrite Hon. done.
    + rewrite orb_false_r. split; [done|]. intros (v' & [= <-] & ?). done.
  - intros ->. done.
Qed.

End flag_values.

Section list_values.
Import Guard GuardSpec GuardLaws.

Lemma splitBy_app (p : ascii → bool) (a b : string) (c : ascii) :
  p c = true → Str.splitBy p (a +:+ String c b) = Str.splitBy p a ++ Str.splitBy p b.
Proof.
  intros Hc. induction a as [|x a IH]; str_simpl; simpl.
  - by rewrite Hc.
  - rewrite IH. destruct (p x); [done|].
    pose proof (splitBy_nonnil p a). by destruct (Str.splitBy p a).
Qed.

Lemma parseList_Some (v : string) :
  NodeGuard.parseList (Some v)
  = filter (λ x, x ≠ EmptyString) (map Str.trim (Str.splitBy NodeGuard.isSeparator v)).
Proof. by destruct v. Qed.

Lemma _parse_list_Some (v : string) :
  PyGuard._parse_list (Some v)
  = filter (λ x, x ≠ EmptyString) (map Str.py_strip (Str.splitBy NodeGuard.isSeparator v)).
Proof. by destruct v. Qed.

Lemma parseList_app (a b : string) (c : ascii) :
  NodeGuard.isSeparator c = true →
  NodeGuard.parseList (Some (a +:+ String c b))
  = NodeGuard.parseList (Some a) ++ NodeGuard.parseList (Some b).
Proof.
  intros Hc. by rewrite !parseList_Some, splitBy_app, map_app, filter_app.
Qed.

Lemma _parse_list_app (a b : string) (c : ascii) :
  NodeGuard.isSeparator c = true →
  PyGuard._parse_list (Some (a +:+ String c b))
  = PyGuard._parse_list (Some a) ++ PyGuard._parse_list (Some b).
Proof.
  intros Hc. by rewrite !_parse_list_Some, splitBy_app, map_app, filter_app.
Qed.

(** X10. Both guards read a list of the environment piecewise: the
    entries of two texts joined by a comma or a semicolon are the entries
    of the first followed by those of the second. *)
Theorem X10_list_of_joined_texts (a b : string) :
  NodeGuard.parseList (Some (a +:+ "," +:+ b))
  = NodeGuard.parseList (Some a) ++ NodeGuard.parseList (Some b)
  ∧ NodeGuard.parseList (Some (a +:+ ";" +:+ b))
    = NodeGuard.parseList (Some a) ++ NodeGuard.parseList (Some b)
  ∧ PyGuard._parse_list (Some (a +:+ "," +:+ b))
    = PyGuard._parse_list (Some a) ++ PyGuard._parse_list (Some b)
  ∧ PyGuard._parse_list (Some (a +:+ ";" +:+ b))
    = PyGuard._parse_list (Some a) ++ PyGuard._parse_list (Some b).
Proof.
  repeat split; first [by apply parseList_app | by apply _parse_list_app].
Qed.

Lemma dropWhileEnd_last (ws : ascii → bool) (a : ascii) (s : string) :
  ws (lastChar a s) = false → Str.dropWhileEnd ws (String a s) = String a s.
Proof.
  revert a. induction s as [|b s IH]; intros a H; simpl in *.
  - by rewrite H.
  - specialize (IH b H). simpl in IH. by rewrite IH.
Qed.


Lemma splitBy_none (p : ascii → bool) (x : string) :
  forallb (λ c, negb (p c)) (list_ascii_of_string x) = true → Str.splitBy p x = [x].
Proof.
  induction x as [|a x IH]; simpl; [done|].
  intros [Ha Hx]%andb_true_iff. apply negb_true_iff in Ha. by rewrite Ha, IH.
Qed.



End list_values.

Section guard_decisions.
Import Guard GuardSpec GuardLaws TrailLaws.

(** X11. On the network the Node guard is never the more permissive of
    the two: a host it allows, the Python guard allows under the same
    policy.  The two decide differently exactly when blocking is off, some
    domain is listed and the host is under none of the listed domains: the
    Node guard then denies what the Python guard allows.  With blocking
    on, or with no domain listed, they decide alike. *)
Theorem X11_guard_decisions_compared (g : Guard) :
  (∀ host, NodeGuard.networkAllowed g host = true → PyGuard.network_allowed g host = true)
  ∧ (∀ host,
       NodeGuard.networkAllowed g host ≠ PyGuard.network_allowed g host
       ↔ blockNetwork (config g) = false ∧ allowedDomains (config g) ≠ []
         ∧ NodeGuard.isDomainAllowed g host = false)
  ∧ (blockNetwork (config g) = true ∨ allowedDomains (config g) = [] →
     ∀ host, NodeGuard.networkAllowed g host = PyGuard.network_allowed g host).
Proof.
  assert (Hdiff : ∀ host,
       NodeGuard.networkAllowed g host ≠ PyGuard.network_allowed g host
       ↔ blockNetwork (config g) = false ∧ allowedDomains (config g) ≠ []
         ∧ NodeGuard.isDomainAllowed g host = false).
  { intros host. unfold NodeGuard.networkAllowed, PyGuard.network_allowed.
    rewrite <- domain_checks_agree.
    destruct (allowedDomains (config g)) as [|d l] eqn:E.
    + rewrite bool_decide_eq_false_2 by (simpl; lia).
      assert (NodeGuard.isDomainAllowed g host = false) as ->.
      { unfold NodeGuard.isDomainAllowed. rewrite E.
        destruct host as [h|]; [destruct (Str.nonempty h)|]; done. }
      rewrite orb_false_r. split; [done | by intros (_ & ? & _)].
    + rewrite bool_decide_eq_true_2 by (simpl; lia).
      destruct (blockNetwork (config g)), (NodeGuard.isDomainAllowed g host); simpl;
        split; try done; try (by intros (? & _ & ?)); by intros. }
  split; [|split; [exact Hdiff|]].
  - intros host. unfold NodeGuard.networkAllowed, PyGuard.network_allowed.
    rewrite <- domain_checks_agree. case_bool_decide; [by intros ->; rewrite orb_true_r|].
    by intros ->.
  - intros Hsame host.
    destruct (bool_decide (NodeGuard.networkAllowed g host = PyGuard.network_allowed g host))
      eqn:E; [by apply bool_decide_eq_true in E|].
    apply bool_decide_eq_false in E. apply Hdiff in E as (Hb & Hl & _).
    destruct Hsame; congruence.
Qed.

Lemma writeAudit_recorded g a r d w :
  ∃ w', NodeGuard.writeAudit g a r d w = (Normal (), w')
        ∧ recorded (mkEntry a r (skillId g) (skillName g) d) w w'.
Proof.
  unfold NodeGuard.writeAudit, NodeGuard.ensureAuditFile, try_catch, bind, auditExists,
    createAuditFile, appendAuditFile, nextFault, bind, throw, ret, recorded, trail.
  destruct w as [af fl pf vars]. simpl.
  destruct af as [l|], fl as [|[] [|[] fl]]; simpl; eexists; (split; [reflexivity|]);
    repeat split; try done; auto; by rewrite ?app_nil_r.
Qed.

Lemma logBlocked_recorded g d w :
  ∃ w', NodeGuard.logBlocked g d w = (Normal (), w') ∧ recorded (blockedEntry g d) w w'.
Proof. apply writeAudit_recorded. Qed.

Lemma _log_blocked_recorded g d w :
  ∃ w', PyGuard._log_blocked g d w = (Normal (), w') ∧ recorded (blockedEntry g d) w w'.
Proof. apply writeAudit_recorded. Qed.

(** A denied operation does what the write of its record does. *)
Lemma node_denied_state g w op :
  node_denies g op = true →
  (node_run g op w).2 = (NodeGuard.logBlocked g (node_details op) w).2.
Proof.
  destruct op as [fn|fnName target|module fnName host|host|key|strict key value];
    simpl; intros Hd.
  - unfold NodeGuard.childProcess. rewrite Hd. unfold bind, throw.
    by destruct (NodeGuard.logBlocked _ _ w) as [[[]|e] w'].
  - unfold NodeGuard.wrapWrite. rewrite Hd. unfold bind, throw.
    by destruct (NodeGuard.logBlocked _ _ w) as [[[]|e] w'].
  - unfold NodeGuard.wrapRequest, NodeGuard.handleNetwork. rewrite Hd. simpl.
    unfold bind, throw. by destruct (NodeGuard.logBlocked _ _ w) as [[[]|e] w'].
  - unfold NodeGuard.fetch, NodeGuard.handleNetwork. rewrite Hd. simpl.
    unfold bind, throw. by destruct (NodeGuard.logBlocked _ _ w) as [[[]|e] w'].
  - unfold NodeGuard.envGet. rewrite Hd. unfold bind, ret.
    by destruct (NodeGuard.logBlocked _ _ w) as [[[]|e] w'].
  - unfold NodeGuard.envSet. rewrite Hd. unfold bind, throw, ret.
    by destruct (NodeGuard.logBlocked _ _ w) as [[[]|e] w'], strict.
Qed.

Lemma py_denied_state g w op :
  py_denies g op = true →
  (py_run g op w).2 = (PyGuard._log_blocked g (py_details op) w).2.
Proof.
  destruct op as [fn|fn target|fn host|key|key dflt|key value|key|key value];
    simpl; intros Hd.
  - unfold PyGuard._block_shell. rewrite Hd. unfold bind, throw.
    by destruct (PyGuard._log_blocked _ _ w) as [[[]|e] w'].
  - unfold PyGuard.guarded_write, PyGuard._guard_path_write. rewrite Hd. unfold bind, throw.
    by destruct (PyGuard._log_blocked _ _ w) as [[[]|e] w'].
  - unfold PyGuard.guarded_connect, PyGuard._handle_network. rewrite Hd. simpl.
    unfold bind, throw. by destruct (PyGuard._log_blocked _ _ w) as [[[]|e] w'].
  - unfold PyGuard.environ_getitem. rewrite Hd. unfold bind, throw.
    by destruct (PyGuard._log_blocked _ _ w) as [[[]|e] w'].
  - unfold PyGuard.environ_get. rewrite Hd. unfold bind, ret.
    by destruct (PyGuard._log_blocked _ _ w) as [[[]|e] w'].
  - unfold PyGuard.environ_setitem. rewrite Hd. unfold bind, throw.
    by destruct (PyGuard._log_blocked _ _ w) as [[[]|e] w'].
  - unfold PyGuard.environ_delitem. rewrite Hd. unfold bind, throw.
    by destruct (PyGuard._log_blocked _ _ w) as [[[]|e] w'].
  - unfold PyGuard.putenv. rewrite Hd. unfold bind, ret.
    by destruct (PyGuard._log_blocked _ _ w) as [[[]|e] w'].
Qed.

(** X12. With the filesystem block off and an audit level other than
    [all], the patched functions let the writes of the guard itself
    through without a record of their own.  Then, when no write to the
    audit file fails, every denial of either guard (a shell call, a
    network call, an access to the environment) adds exactly one record
    to the end of the trail: a runtime record with result blocked, the id
    and the name of the guarded skill and the details of the operation;
    the records before it are kept. *)
Theorem X12_every_denial_is_recorded (g : Guard) (w : World) :
  blockFsWrite (config g) = false →
  String.eqb (auditLevel g) "all" = false →
  faults w = [] →
  (∀ op, node_denies g op = true →
     auditFile (node_run g op w).2 = Some (trail w ++ [blockedEntry g (node_details op)]))
  ∧ (∀ op, py_denies g op = true →
       auditFile (py_run g op w).2 = Some (trail w ++ [blockedEntry g (py_details op)])).
Proof.
  intros _ _ Hf. split; intros op Hd.
  - rewrite node_denied_state by done.
    destruct (logBlocked_recorded g (node_details op) w) as (w' & -> & _ & _ & _ & H).
    by apply H.
  - rewrite py_denied_state by done.
    destruct (_log_blocked_recorded g (py_details op) w) as (w' & -> & _ & _ & _ & H).
    by apply H.
Qed.

Lemma X12_every_denial_is_recorded_witness :
  blockFsWrite (config Samples.lenient) = false
  ∧ String.eqb (auditLevel Samples.lenient) "all" = false
  ∧ faults (Examples.world []) = []
  ∧ node_denies Samples.lenient (ChildProcess "exec") = true
  ∧ auditFile (node_run Samples.lenient (ChildProcess "exec") (Examples.world [])).2
    = Some (trail (Examples.world []) ++ [Samples.denial]).
Proof.
  split; [reflexivity|]. split; [reflexivity|]. split; [reflexivity|].
  split; [vm_compute; reflexivity|].
  apply (proj1 (X12_every_denial_is_recorded Samples.lenient (Examples.world [])
                  eq_refl eq_refl eq_refl) (ChildProcess "exec")).
  vm_compute. reflexivity.
Defined.

End guard_decisions.


(** ** From the stored policy to the guard *)

Section run_command.
Import Guard GuardLaws Types Run RunLaws.









End run_command.

(** ** The policy manager *)

Section policy_manager.
Import Types PolicyManager PolicyLaws.

Lemma elem_of_without (x y : string) (l : list string) : y ∈ without x l ↔ y ≠ x ∧ y ∈ l.
Proof. unfold without. by rewrite list_elem_of_filter. Qed.

Lemma elem_of_pushNew (x y : string) (l : list string) : y ∈ pushNew x l ↔ y = x ∨ y ∈ l.
Proof.
  unfold pushNew. case_bool_decide as H.
  - split; [by right | by intros [->|?]].
  - rewrite elem_of_app, list_elem_of_singleton. tauto.
Qed.

Lemma NoDup_pushNew (x : string) (l : list string) : NoDup l → NoDup (pushNew x l).
Proof.
  intros Hl. unfold pushNew. case_bool_decide as H; [done|].
  apply NoDup_app. split; [done|]. split; [|apply NoDup_singleton].
  by intros y Hy ->%list_elem_of_singleton.
Qed.

Lemma NoDup_without (x : string) (l : list string) : NoDup l → NoDup (without x l).
Proof. apply NoDup_filter. Qed.

(** The state after a change does not depend on the outcome of the write. *)
Lemma saveConfig_config (s : Service) : config (saveConfig s).2 = config s.
Proof. unfold saveConfig. by destruct (faults s) as [|[] ?]. Qed.

Lemma enableSkill_config (skillId : string) (s : Service) :
  config (enableSkill skillId s).2
  = setEnabledSkills (pushNew skillId (enabledSkills (config s)))
      (setDisabledSkills (without skillId (disabledSkills (config s))) (config s)).
Proof. unfold enableSkill, andThen, assign. simpl. by rewrite saveConfig_config. Qed.

Lemma disableSkill_config (skillId : string) (s : Service) :
  config (disableSkill skillId s).2
  = setDisabledSkills (pushNew skillId (disabledSkills (config s)))
      (setEnabledSkills (without skillId (enabledSkills (config s))) (config s)).
Proof. unfold disableSkill, andThen, assign. simpl. by rewrite saveConfig_config. Qed.

(** X16. After [enableSkill] a skill is enabled and after [disableSkill]
    it is disabled, whether or not the configuration could be saved; the
    skill is then in exactly one of the two lists, and the state of every
    other skill is as before. *)
Theorem X16_toggle_sets_the_state (s : Service) (skillId : string) :
  let on := (enableSkill skillId s).2 in
  let off := (disableSkill skillId s).2 in
  isSkillEnabled on skillId = true
  ∧ isSkillEnabled off skillId = false
  ∧ (skillId ∈ enabledSkills (config on) ∧ skillId ∉ disabledSkills (config on))
  ∧ (skillId ∈ disabledSkills (config off) ∧ skillId ∉ enabledSkills (config off))
  ∧ ∀ other, other ≠ skillId →
      isSkillEnabled on other = isSkillEnabled s other
      ∧ isSkillEnabled off other = isSkillEnabled s other.
Proof.
  intros on off. unfold isSkillEnabled, on, off.
  rewrite enableSkill_config, disableSkill_config. simpl.
  assert (Hw : ∀ l, skillId ∉ without skillId l) by (intros l [? _]%elem_of_without; done).
  assert (Hp : ∀ l, skillId ∈ pushNew skillId l) by (intros l; apply elem_of_pushNew; by left).
  split; [|split; [|split; [|split]]]; [| |done|done|].
  - rewrite bool_decide_eq_false_2 by done. by case_bool_decide.
  - by rewrite bool_decide_eq_true_2.
  - intros other Hne.
    assert (bool_decide (other ∈ without skillId (disabledSkills (config s)))
            = bool_decide (other ∈ disabledSkills (config s))) as ->.
    { apply bool_decide_ext. rewrite elem_of_without. tauto. }
    assert (bool_decide (other ∈ pushNew skillId (disabledSkills (config s)))
            = bool_decide (other ∈ disabledSkills (config s))) as ->.
    { apply bool_decide_ext. rewrite elem_of_pushNew. tauto. }
    split; by repeat case_bool_decide.
Qed.

(** X17. When the lists of enabled and of disabled skills hold no skill
    twice and share none, they still do after [enableSkill] and after
    [disableSkill]. *)
Theorem X17_toggle_keeps_lists_apart (s : Service) (skillId : string) :
  apart (config s) →
  apart (config (enableSkill skillId s).2) ∧ apart (config (disableSkill skillId s).2).
Proof.
  intros (He & Hd & Hdisj). unfold apart. split.
  - rewrite enableSkill_config. simpl. split; [by apply NoDup_pushNew|].
    split; [by apply NoDup_without|].
    intros x [->|Hx]%elem_of_pushNew [Hne Hx']%elem_of_without; [done|].
    by apply (Hdisj x).
  - rewrite disableSkill_config. simpl. split; [by apply NoDup_without|].
    split; [by apply NoDup_pushNew|].
    intros x [Hne Hx]%elem_of_without [->|Hx']%elem_of_pushNew; [done|].
    by apply (Hdisj x).
Qed.

Lemma X17_toggle_keeps_lists_apart_witness :
  apart (config Samples.service)
  ∧ apart (config (enableSkill "beta" Samples.service).2)
  ∧ apart (config (disableSkill "beta" Samples.service).2).
Proof.
  assert (H : apart (config Samples.service)).
  { split; [apply NoDup_singleton|]. split; [apply NoDup_singleton|].
    intros x H1%list_elem_of_singleton H2%list_elem_of_singleton. congruence. }
  split; [exact H|]. exact (X17_toggle_keeps_lists_apart Samples.service "beta" H).
Defined.


Lemma addAllowedDomain_domains (domain : string) (s : Service) :
  allowedDomains (defaultPolicy (config (addAllowedDomain domain s).2))
  = pushNew domain (allowedDomains (defaultPolicy (config s))).
Proof.
  unfold addAllowedDomain, pushNew, andThen, assign, ret. case_bool_decide; [done|].
  simpl. by rewrite saveConfig_config.
Qed.

Lemma removeAllowedDomain_domains (domain : string) (s : Service) :
  allowedDomains (defaultPolicy (config (removeAllowedDomain domain s).2))
  = without domain (allowedDomains (defaultPolicy (config s))).
Proof.
  unfold removeAllowedDomain, andThen, assign. simpl. by rewrite saveConfig_config.
Qed.

Lemma without_absent (x : string) (l : list string) : x ∉ l → without x l = l.
Proof.
  intros H. unfold without. induction l as [|y l IH]; [done|].
  apply not_elem_of_cons in H as [Hne Hl]. rewrite filter_cons, decide_True by done.
  by rewrite IH.
Qed.

Lemma without_app (x : string) (l k : list string) :
  without x (l ++ k) = without x l ++ without x k.
Proof. apply filter_app. Qed.

(** X19. [addAllowedDomain] lists the domain, once, after the ones that
    were listed, and does nothing when it is there; [removeAllowedDomain]
    removes every occurrence and keeps the other domains in their order;
    removing a domain that was just added to a list without it gives the
    list back. *)
Theorem X19_domain_list_edits (s : Service) (domain : string) :
  let domains := allowedDomains (defaultPolicy (config s)) in
  let added := allowedDomains (defaultPolicy (config (addAllowedDomain domain s).2)) in
  let removed := allowedDomains (defaultPolicy (config (removeAllowedDomain domain s).2)) in
  domain ∈ added
  ∧ (∀ d, d ∈ added ↔ d = domain ∨ d ∈ domains)
  ∧ (NoDup domains → NoDup added)
  ∧ (addAllowedDomain domain ((addAllowedDomain domain s).2)
     = (Normal (), (addAllowedDomain domain s).2))
  ∧ (domain ∉ removed)
  ∧ (removed = filter (λ d, d ≠ domain) domains)
  ∧ (domain ∉ domains →
     allowedDomains (defaultPolicy
       (config (removeAllowedDomain domain ((addAllowedDomain domain s).2)).2)) = domains).
Proof.
  intros domains added removed. unfold added, removed, domains.
  rewrite !removeAllowedDomain_domains, !addAllowedDomain_domains.
  split; [apply elem_of_pushNew; by left|].
  split; [intros d; apply elem_of_pushNew|].
  split; [apply NoDup_pushNew|].
  split.
  { unfold addAllowedDomain at 1. rewrite addAllowedDomain_domains.
    rewrite bool_decide_eq_true_2; [done|]. apply elem_of_pushNew. by left. }
  split; [by intros [? _]%elem_of_without|].
  split; [done|].
  intros Hno. unfold pushNew. rewrite bool_decide_eq_false_2 by done.
  rewrite without_app, without_absent by done.
  unfold without. rewrite filter_cons, decide_False by (intros H; by apply H).
  by rewrite app_nil_r.
Qed.












End policy_manager.

(** ** The audit logger *)

Section audit_logger.
Import JS AuditLogger LoggerLaws GuardLaws.

Lemma recent_spec (J : Json) (limit : Z) (entries : list json) (pending : list string) :
  recent J limit entries pending
  = entries ++ take (Z.to_nat limit - length entries) (omap (parse J) pending).
Proof.
  revert entries. induction pending as [|line rest IH]; intros entries; simpl.
  - by rewrite take_nil, app_nil_r.
  - destruct (Z.ltb_spec (Z.of_nat (length entries)) limit) as [Hlt|Hge].
    + rewrite IH. destruct (parse J line) as [e|]; [|done].
      rewrite length_app. simpl.
      replace (Z.to_nat limit - length entries)%nat
        with (S (Z.to_nat limit - (length entries + 1)))%nat by lia.
      simpl. by rewrite <- app_assoc.
    + replace (Z.to_nat limit - length entries)%nat with 0%nat by lia.
      by rewrite take_0, app_nil_r.
Qed.

Lemma getRecentEntries_take (J : Json) (limit : Z) (d : Disk) :
  getRecentEntries J limit d
  = match file d with
    | Some content =>
        if readable d then take (Z.to_nat limit) (omap (parse J) (rev (lines content)))
        else []
    | None => []
    end.
Proof.
  unfold getRecentEntries. destruct (file d) as [content|]; [|done].
  destruct (readable d); [|done]. rewrite recent_spec. simpl. by rewrite Nat.sub_0_r.
Qed.

(** X21. [getRecentEntries] returns the entries of the lines of the audit
    file that parse, the last line first, cut after [limit] entries;
    lines that do not parse are skipped without counting, and a file that
    is absent, unreadable or empty gives no entry. *)
Theorem X21_recent_entries (J : Json) (limit : Z) (d : Disk) :
  getRecentEntries J limit d
  = match file d with
    | Some content =>
        if readable d then take (Z.to_nat limit) (omap (parse J) (rev (lines content)))
        else []
    | None => []
    end
  ∧ (0 ≤ limit → Z.of_nat (length (getRecentEntries J limit d)) ≤ limit)
  ∧ getRecentEntries J limit (mkDisk (Some "") true []) = [].
Proof.
  split; [apply getRecentEntries_take|]. split; [|done].
  intros Hl. rewrite getRecentEntries_take.
  destruct (file d); [destruct (readable d)|]; simpl; try lia.
  rewrite length_take. lia.
Qed.

Lemma ended_tail (a : ascii) (c : string) : ended (String a c) → ended c.
Proof.
  intros [H|[before H]]; [done|]. destruct before as [|b before]; unfold NL in H; str_simpl.
  - injection H as _ ->. by left.
  - injection H as _ ->. right. by exists before.
Qed.

Lemma oneLine_head (s : string) :
  oneLine s = true →
  ∃ a r, s = String a r ∧ Str.js_ws a = false ∧ Str.js_ws (lastChar a r) = false
         ∧ forallb (λ c, negb (Ascii.eqb Scanner.LF c)) (list_ascii_of_string s) = true.
Proof.
  destruct s as [|a r]; [done|]. unfold oneLine.
  intros [[Ha Hl]%andb_true_iff Hs]%andb_true_iff. apply negb_true_iff in Ha, Hl.
  by exists a, r.
Qed.

Lemma dropWhile_ended (c s : string) :
  ended c → oneLine s = true →
  ∃ c1, ended c1 ∧ Str.dropWhile Str.js_ws (c +:+ s +:+ NL) = c1 +:+ s +:+ NL.
Proof.
  intros Hc (a & r & -> & Ha & _)%oneLine_head. induction c as [|b c IH].
  - exists "". split; [by left|]. str_simpl. simpl. by rewrite Ha.
  - str_simpl. simpl. destruct (Str.js_ws b).
    + apply IH. by apply ended_tail in Hc.
    + by exists (String b c).
Qed.

Lemma dropWhileEnd_app_ws (p : ascii → bool) (x t : string) :
  Str.dropWhileEnd p t = "" → Str.dropWhileEnd p (x +:+ t) = Str.dropWhileEnd p x.
Proof.
  intros Ht. induction x as [|a x IH]; str_simpl; [done|]. simpl. by rewrite IH.
Qed.

Lemma dropWhileEnd_app (p : ascii → bool) (x y : string) :
  Str.dropWhileEnd p y ≠ "" → Str.dropWhileEnd p (x +:+ y) = x +:+ Str.dropWhileEnd p y.
Proof.
  intros Hy. induction x as [|a x IH]; str_simpl; [done|]. simpl. rewrite IH.
  destruct (Str.dropWhileEnd p y) eqn:E; [done|]. by destruct x.
Qed.

Lemma trim_appended (c s : string) :
  ended c → oneLine s = true → ∃ c1, ended c1 ∧ Str.trim (c +:+ s +:+ NL) = c1 +:+ s.
Proof.
  intros Hc Hs. destruct (dropWhile_ended c s Hc Hs) as (c1 & Hc1 & Hd).
  exists c1. split; [done|]. unfold Str.trim, Str.strip. rewrite Hd.
  destruct (oneLine_head s Hs) as (a & r & -> & _ & Hl & _).
  assert (Hend : Str.dropWhileEnd Str.js_ws (String a r +:+ NL) = String a r).
  { rewrite dropWhileEnd_app_ws by done. by apply dropWhileEnd_last. }
  rewrite dropWhileEnd_app; by rewrite Hend.
Qed.

Lemma lines_appended (c s : string) :
  ended c → oneLine s = true → ∃ earlier, lines (c +:+ s +:+ NL) = earlier ++ [s].
Proof.
  intros Hc Hs. destruct (trim_appended c s Hc Hs) as (c1 & Hc1 & Ht).
  unfold lines. rewrite Ht.
  destruct (oneLine_head s Hs) as (a & r & Heq & _ & _ & Hnl).
  assert (Hsplit : Str.split Scanner.LF s = [s]) by by apply splitBy_none.
  assert (Hlen : (0 < String.length s)%nat) by (subst s; simpl; lia).
  destruct Hc1 as [->|[before ->]].
  - exists []. str_simpl. rewrite Hsplit. by rewrite filter_cons, decide_True.
  - exists (filter (λ line, (0 < String.length line)%nat) (Str.split Scanner.LF before)).
    unfold NL. rewrite str_app_assoc. str_simpl. unfold Str.split in *.
    rewrite splitBy_app by apply Ascii.eqb_refl. rewrite Hsplit, filter_app.
    by rewrite (filter_cons _ s), decide_True.
Qed.

(** X22. An entry that [log] writes is the first one [getRecentEntries]
    returns afterwards, when the write succeeds, the file was empty or
    ended with a line break, and the text of the entry is one line that
    parses back to the entry. *)
Theorem X22_logged_entry_is_read_back (J : Json) (id timestamp action result : string)
    (details : json) (skillId skillName : option string) (limit : Z) (d : Disk) :
  let e := entry id timestamp action result details skillId skillName in
  head (faults d) ≠ Some true →
  readable d = true →
  ended (default "" (file d)) →
  oneLine (stringify J e) = true →
  parse J (stringify J e) = Some e →
  1 ≤ limit →
  (log J id timestamp action result details skillId skillName d).1 = e
  ∧ head (getRecentEntries J limit
            (log J id timestamp action result details skillId skillName d).2) = Some e.
Proof.
  intros e Hf Hr Hc Hs Hp Hl. split; [done|].
  unfold log, append. fold e.
  assert (Hd : match faults d with
               | true :: rest => mkDisk (file d) (readable d) rest
               | _ => mkDisk (Some (default "" (file d) +:+ stringify J e +:+ NL))
                        (readable d) (tail (faults d))
               end
               = mkDisk (Some (default "" (file d) +:+ stringify J e +:+ NL))
                   (readable d) (tail (faults d))).
  { by destruct (faults d) as [|[] ?]. }
  rewrite Hd, getRecentEntries_take. cbn [file readable snd]. rewrite Hr.
  destruct (lines_appended _ _ Hc Hs) as (earlier & ->).
  rewrite rev_app_distr. simpl. rewrite Hp.
  by replace (Z.to_nat limit) with (S (Z.to_nat limit - 1)) by lia.
Qed.

Lemma X22_logged_entry_is_read_back_witness :
  let J := Samples.knownJson [Samples.blockRecord] in
  ended (default "" (file Samples.disk))
  ∧ oneLine (stringify J Samples.blockRecord) = true
  ∧ parse J (stringify J Samples.blockRecord) = Some Samples.blockRecord
  ∧ head (getRecentEntries J 10
            (logBlock J "0002" "2026-01-01T00:00:00.000Z" "demo" "demo" "manual"
               Samples.disk).2)
    = Some Samples.blockRecord.
Proof.
  intros J.
  assert (Hc : ended (default "" (file Samples.disk))) by (right; by exists "{}").
  assert (Hs : oneLine (stringify J Samples.blockRecord) = true) by (vm_compute; reflexivity).
  assert (Hp : parse J (stringify J Samples.blockRecord) = Some Samples.blockRecord)
    by (vm_compute; reflexivity).
  split; [exact Hc|]. split; [exact Hs|]. split; [exact Hp|].
  refine (proj2 (X22_logged_entry_is_read_back J "0002" "2026-01-01T00:00:00.000Z" "block"
                   "blocked" (JObj [("reason", JStr "manual")]) (Some "demo") (Some "demo")
                   10 Samples.disk _ eq_refl Hc Hs Hp _)); [by intros [=] | lia].
Defined.

End audit_logger.

(** ** From the audit trail to the behaviour scan *)

Section audit_trail.
Import JS Shared Scanner Guard GuardLaws Trail.

Lemma is_string_spec (v : value) (s : string) : is_string v s = true ↔ v = Some (JStr s).
Proof.
  destruct v as [[]|]; simpl; try (split; [done | by intros [=]]).
  rewrite String.eqb_eq. split; [by intros -> | by intros [= ->]].
Qed.

Lemma nodeRecord_props (id timestamp action result : string)
    (skillId skillName : option string) (details : list (string * json)) :
  let entry := nodeRecord id timestamp action result skillId skillName details in
  prop entry "action" = Some (JStr action)
  ∧ prop entry "result" = Some (JStr result)
  ∧ prop entry "skillId" = JStr <$> skillId
  ∧ prop entry "details" = Some (JObj details).
Proof. destruct skillId, skillName; by repeat split. Qed.

Lemma pyRecord_props (id timestamp action result : string)
    (skillId skillName : option string) (details : list (string * json)) :
  let entry := pyRecord id timestamp action result skillId skillName details in
  prop entry "action" = Some (JStr action)
  ∧ prop entry "result" = Some (JStr result)
  ∧ prop entry "skillId" = Some (orNull skillId)
  ∧ prop entry "details" = Some (JObj details).
Proof. by repeat split. Qed.

Lemma forallb_convertible (env : Env) (d : list (string * json)) :
  forallb (λ '(k, v), bool_decide (is_Some (String_of (Number_toString env) v))) d = true
  ↔ convertible env d.
Proof.
  unfold convertible. induction d as [|[k v] d IH]; [by split; [constructor|]|].
  cbn [forallb]. rewrite andb_true_iff, bool_decide_eq_true, Forall_cons, IH. done.
Qed.

Lemma convertible_strings (env : Env) (d : list (string * option string)) :
  convertible env (defined d) ∧ convertible env (map (λ '(key, value), (key, orNull value)) d).
Proof.
  unfold convertible, defined. split.
  - induction d as [|[k [v|]] d IH]; csimpl; [constructor| |done].
    constructor; [by eexists | done].
  - induction d as [|[k [v|]] d IH]; csimpl; constructor; try done; by eexists.
Qed.

(** A parsed record with these members is counted for the skill of this
    id alone, and only when its details have a text. *)
Lemma behaviorFlag_counts (env : Env) (skill : Skill) (ap text : string) (entry : json)
    (sid : option string) (d : list (string * json)) :
  JSON_parse env text = Some entry →
  entry ≠ JNull →
  prop entry "action" = Some (JStr "runtime") →
  prop entry "result" = Some (JStr "blocked") →
  (prop entry "skillId" = JStr <$> sid ∨ prop entry "skillId" = Some (orNull sid)) →
  prop entry "details" = Some (JObj d) →
  is_Some (behaviorFlag env skill ap text)
  ↔ sid = Some (id skill) ∧ id skill ≠ "" ∧ convertible env d.
Proof.
  intros Hparse Hnull Ha Hr Hs Hd. unfold behaviorFlag. rewrite Hparse.
  assert (Hmatch : ∀ X Y : option RiskFlag,
            match entry with JNull => X | _ => Y end = Y) by (by destruct entry).
  rewrite Hmatch, Ha, Hr, Hd. cbn [is_string truthy negb orEmpty Str.nonempty Object_entries].
  change (String.eqb "runtime" "runtime") with true.
  change (String.eqb "blocked" "blocked") with true. cbn [negb].
  assert (Hid : negb (truthy (prop entry "skillId"))
                || negb (is_string (prop entry "skillId") (id skill)) = false
                ↔ sid = Some (id skill) ∧ id skill ≠ "").
  { rewrite orb_false_iff, !negb_false_iff, is_string_spec.
    destruct Hs as [-> | ->]; destruct sid as [s|]; simpl;
      rewrite ?nonempty_spec; split; try (by intros [_ [=]]); try (by intros [[=] _]).
    - intros [Hne [= ->]]. done.
    - intros [[= ->] Hne]. done.
    - intros [Hne [= ->]]. done.
    - intros [[= ->] Hne]. done. }
  rewrite allSome_printed, <- forallb_convertible.
  destruct (negb _ || negb _) eqn:E.
  - split; [by intros [? [=]]|]. intros (H1 & H2 & _).
    assert (true = false) as [=]. by apply Hid.
  - destruct (forallb _ d).
    + split; [intros _; split_and!; [by apply Hid..|done] | by eexists].
    + split; [by intros [? [=]] | by intros (_ & _ & [=])].
Qed.

(** X23. A denial recorded by a guard is counted by the behaviour scan
    of a skill exactly when the guard ran under the id of that skill, the
    id is not empty, and every value of the details of the record has a
    text: a record whose details hold an object with a key toString of
    its own is skipped.  This holds for the records of the Node guard,
    whatever values they hold, and of the Python guard, which writes a
    missing id as null; details that are strings or missing always have a
    text. *)
Theorem X23_recorded_denials_are_counted (env : Env) (skill : Skill) (g : Guard.Guard)
    (details : list (string * json)) (uuid timestamp ap text : string) :
  JSON_parse env text
  = Some (nodeRecord uuid timestamp "runtime" "blocked" (skillId g) (skillName g) details)
  ∨ JSON_parse env text
    = Some (pyRecord uuid timestamp "runtime" "blocked" (skillId g) (skillName g) details) →
  (is_Some (behaviorFlag env skill ap text)
   ↔ skillId g = Some (id skill) ∧ id skill ≠ "" ∧ convertible env details)
  ∧ (∀ d : list (string * option string),
       details = defined d ∨ details = map (λ '(key, value), (key, orNull value)) d →
       convertible env details)
  ∧ (∀ key own, assoc key details = Some (JObj own) → is_Some (assoc "toString" own) →
       behaviorFlag env skill ap text = None).
Proof.
  intros H. split; [|split].
  - destruct H as [H|H].
    + destruct (nodeRecord_props uuid timestamp "runtime" "blocked" (skillId g) (skillName g)
                  details) as (Ha & Hr & Hs & Hd).
      eapply behaviorFlag_counts; eauto.
    + destruct (pyRecord_props uuid timestamp "runtime" "blocked" (skillId g) (skillName g)
                  details) as (Ha & Hr & Hs & Hd).
      eapply behaviorFlag_counts; eauto.
  - intros d [-> | ->]; apply convertible_strings.
  - intros key own Hkey [x Hown].
    assert (Hno : ¬ convertible env details).
    { intros Hc. clear H. induction details as [|[k v] rest IH]; [done|].
      apply Forall_cons in Hc as [Hv Hrest]. cbn [assoc] in Hkey.
      destruct (String.eqb k key).
      - injection Hkey as ->. cbn in Hv. rewrite Hown in Hv. by destruct Hv.
      - by apply IH. }
    destruct (behaviorFlag env skill ap text) eqn:E; [|done]. exfalso. apply Hno.
    assert (Hs : is_Some (behaviorFlag env skill ap text)) by (rewrite E; by eexists).
    destruct H as [H|H].
    + destruct (nodeRecord_props uuid timestamp "runtime" "blocked" (skillId g) (skillName g)
                  details) as (Ha & Hr & Hsid & Hd).
      eapply (behaviorFlag_counts env skill ap text) in Hs; eauto. by destruct Hs as (_ & _ & ?).
    + destruct (pyRecord_props uuid timestamp "runtime" "blocked" (skillId g) (skillName g)
                  details) as (Ha & Hr & Hsid & Hd).
      eapply (behaviorFlag_counts env skill ap text) in Hs; eauto. by destruct Hs as (_ & _ & ?).
Qed.

Lemma X23_recorded_denials_are_counted_witness :
  JSON_parse Samples.nodeHost (Examples.stringify Samples.nodeRecord) = Some Samples.nodeRecord
  ∧ is_Some (behaviorFlag Samples.nodeHost Examples.demo (Scanner.auditPath Samples.nodeHost)
               (Examples.stringify Samples.nodeRecord)).
Proof.
  assert (H : JSON_parse Samples.nodeHost (Examples.stringify Samples.nodeRecord)
              = Some Samples.nodeRecord) by (vm_compute; reflexivity).
  split; [exact H|].
  apply (proj1 (X23_recorded_denials_are_counted Samples.nodeHost Examples.demo Samples.strict
           [("kind", JStr "shell"); ("fn", JStr "exec")] "0001" "2026-01-01T00:00:00.000Z"
           (Scanner.auditPath Samples.nodeHost) (Examples.stringify Samples.nodeRecord)
           (or_introl H))).
  split; [reflexivity|]. split; [discriminate|].
  repeat constructor; by eexists.
Defined.

Lemma behaviorFlag_other_action (env : Env) (skill : Skill)
    (uuid timestamp action result ap text : string) (details : json)
    (skillId skillName : option string) :
  JSON_parse env text
  = Some (AuditLogger.entry uuid timestamp action result details skillId skillName) →
  action ≠ "runtime" →
  behaviorFlag env skill ap text = None.
Proof.
  intros Hparse Hne. unfold behaviorFlag. rewrite Hparse.
  unfold AuditLogger.entry. cbn [prop assoc app].
  change (String.eqb "id" "action") with false.
  change (String.eqb "timestamp" "action") with false.
  change (String.eqb "action" "action") with true. cbn [is_string].
  apply String.eqb_neq in Hne. by rewrite Hne.
Qed.

(** X24. No entry that a logging call of the backend writes (a scan, an
    install, a block, a policy change, a toggle) is counted by the
    behaviour scan, not even a block recorded with result blocked under
    the id of the scanned skill: the scan counts records of action runtime
    only. *)
Theorem X24_logger_entries_are_not_counted (env : Env) (skill : Skill)
    (J : AuditLogger.Json) (d : AuditLogger.Disk) (e : json) (ap text : string) :
  LoggerLaws.written J d e →
  JSON_parse env text = Some e →
  behaviorFlag env skill ap text = None.
Proof.
  intros [] Hparse;
    [|..|destruct enabled]; by eapply behaviorFlag_other_action; [exact Hparse|].
Qed.

Lemma X24_logger_entries_are_not_counted_witness :
  let J := Samples.knownJson [Samples.blockRecord] in
  LoggerLaws.written J Samples.disk Samples.blockRecord
  ∧ JSON_parse Samples.loggerHost (Examples.stringify Samples.blockRecord)
    = Some Samples.blockRecord
  ∧ behaviorFlag Samples.loggerHost Examples.demo (Scanner.auditPath Samples.loggerHost)
      (Examples.stringify Samples.blockRecord) = None.
Proof.
  intros J.
  assert (Hw : LoggerLaws.written J Samples.disk Samples.blockRecord).
  { exact (LoggerLaws.written_block J Samples.disk "0002" "2026-01-01T00:00:00.000Z" "demo"
             "demo" "manual"). }
  assert (Hp : JSON_parse Samples.loggerHost (Examples.stringify Samples.blockRecord)
               = Some Samples.blockRecord) by (vm_compute; reflexivity).
  split; [exact Hw|]. split; [exact Hp|].
  exact (X24_logger_entries_are_not_counted Samples.loggerHost Examples.demo J Samples.disk
           Samples.blockRecord _ _ Hw Hp).
Defined.

End audit_trail.

(** ** The install decision and the explanation *)

Section preflight_route.
Import JS Shared Scanner Spec Preflight.

Lemma scanSkill_tier (env : Env) (skill : Skill) (r : RiskScanResult) :
  scanSkill env skill = Returned r →
  ((WARNING_MAX <? score r) = true ↔ recommendation r = block).
Proof.
  unfold scanSkill. destruct (listSkillFiles env (path skill)) as [files|]; [|done].
  intros [= <-]. simpl. rewrite Z.ltb_lt. unfold WARNING_MAX.
  destruct (recommendation_tiers (calculateScore (staticFlags env skill files
                                                  ++ scanBehavior env skill)))
    as (_ & _ & Hb).
  rewrite Hb. lia.
Qed.

(** X25. The preflight route lets a skill be installed exactly when its
    scan does not recommend blocking, that is when its score is at most
    60: the switches of the policy choose the reason that is given, never
    the decision.  A reason is given exactly when the install is refused:
    the network reason when network access is blocked and a network call
    was found, else the shell reason when shell execution is blocked and a
    shell execution was found, else the reason of the score. *)
Theorem X25_install_decision (env : Env) (skill : Skill) (policy : Types.Policy)
    (r : RiskScanResult) :
  scanSkill env skill = Returned r →
  decision policy r
  = if score r <=? WARNING_MAX then (true, None)
    else (false,
          Some (if Types.blockNetwork policy && hasType "network_call" (flags r)
                then networkReason
                else if Types.blockShell policy && hasType "shell_execution" (flags r)
                     then shellReason
                     else scoreReason)).
Proof.
  intros Hscan. pose proof (scanSkill_tier env skill r Hscan) as Htier.
  unfold decision. rewrite Z.leb_antisym.
  destruct (WARNING_MAX <? score r) eqn:E; simpl.
  - rewrite (proj1 Htier eq_refl).
    by destruct (Types.blockShell policy && _), (Types.blockNetwork policy && _).
  - destruct (recommendation r) eqn:Hr; try done.
    destruct Htier as [_ H]. by specialize (H eq_refl).
Qed.

Lemma X25_install_decision_witness :
  ∃ r, scanSkill Examples.demoHost Examples.demo = Returned r
       ∧ score r = 100
       ∧ decision Samples.stored r = (false, Some shellReason).
Proof.
  eexists. split; [vm_compute; reflexivity|]. split; [reflexivity|].
  etrans; [apply (X25_install_decision Examples.demoHost Examples.demo Samples.stored);
           vm_compute; reflexivity|].
  vm_compute. reflexivity.
Defined.

End preflight_route.

Section explanations.
Import JS Shared Scanner Spec Explanation.

Lemma bump_assoc (t c : string) (l : list (string * Z)) :
  assoc c (bump t l)
  = if String.eqb t c then Some (default 0 (assoc c l) + 1) else assoc c l.
Proof.
  induction l as [|[k n] l IH]; cbn [bump assoc].
  - destruct (String.eqb t c); done.
  - destruct (String.eqb_spec k t) as [->|Hkt]; cbn [assoc].
    + destruct (String.eqb t c); done.
    + rewrite IH. destruct (String.eqb_spec k c) as [->|Hkc]; [|done].
      destruct (String.eqb_spec t c) as [->|_]; done.
Qed.

Lemma bump_keys (t : string) (l : list (string * Z)) :
  NoDup l.*1 → NoDup (bump t l).*1 ∧ ∀ c, c ∈ (bump t l).*1 ↔ c = t ∨ c ∈ l.*1.
Proof.
  induction l as [|[k n] l IH]; intros Hnd; cbn [bump].
  - split; [apply NoDup_singleton|]. intros c. simpl. rewrite list_elem_of_singleton.
    split; [by left | intros [?|?%elem_of_nil]; done].
  - rewrite fmap_cons in Hnd. apply NoDup_cons in Hnd as [Hk Hnd].
    destruct (String.eqb_spec k t) as [->|Hkt].
    + split; [rewrite fmap_cons; by apply NoDup_cons|].
      intros c. rewrite !fmap_cons, !elem_of_cons. simpl. tauto.
    + destruct (IH Hnd) as [Hnd' Hin]. split.
      * rewrite fmap_cons. apply NoDup_cons. split; [|done]. rewrite Hin. simpl.
        intros [?|?]; done.
      * intros c. rewrite !fmap_cons, !elem_of_cons, Hin. simpl. tauto.
Qed.

Lemma typeCounts_from (l : list (string * Z)) (fs : list RiskFlag) :
  NoDup l.*1 →
  let l' := foldl (λ counts flag, bump (type flag) counts) l fs in
  NoDup l'.*1
  ∧ ∀ c, assoc c l' = if decide (count c fs = 0) then assoc c l
                      else Some (default 0 (assoc c l) + count c fs).
Proof.
  revert l. induction fs as [|f fs IH]; intros l Hnd; simpl.
  - split; [done|]. intros c. by change (count c []) with 0.
  - destruct (bump_keys (type f) l Hnd) as [Hnd' _].
    destruct (IH _ Hnd') as [Hnd'' Hlook]. split; [done|].
    intros c. rewrite Hlook, bump_assoc, count_cons.
    pose proof (count_nonneg c fs).
    destruct (String.eqb_spec (type f) c) as [Heq|Hne].
    + rewrite (decide_True (P := type f = c)) by done.
      rewrite (decide_False (P := 1 + count c fs = 0)) by lia.
      case_decide as Hz; simpl; f_equal; lia.
    + rewrite (decide_False (P := type f = c)) by done. simpl.
      by rewrite !Z.add_0_l.
Qed.

Lemma assoc_elem {A} (c : string) (v : A) (l : list (string * A)) :
  NoDup l.*1 → (assoc c l = Some v ↔ (c, v) ∈ l).
Proof.
  induction l as [|[k x] l IH]; intros Hnd; cbn [assoc].
  - split; [done | by intros ?%elem_of_nil].
  - rewrite fmap_cons in Hnd. apply NoDup_cons in Hnd as [Hk Hnd].
    rewrite elem_of_cons. destruct (String.eqb_spec k c) as [->|Hne].
    + split; [intros [= ->]; by left|]. intros [[= ->]|Hin]; [done|].
      exfalso. apply Hk. simpl. by apply (list_elem_of_fmap_2 fst) in Hin.
    + rewrite (IH Hnd). split; [by right|]. intros [[= -> ->]|?]; done.
Qed.

Lemma typeCounts_elem (fs : list RiskFlag) (c : string) (n : Z) :
  (c, n) ∈ typeCounts fs ↔ c ∈ type <$> fs ∧ n = count c fs.
Proof.
  destruct (typeCounts_from [] fs (NoDup_nil_2)) as [Hnd Hlook]. fold (typeCounts fs) in *.
  rewrite <- (assoc_elem c n _ Hnd), Hlook. simpl.
  case_decide as Hz.
  - apply count_zero in Hz. split; [done | by intros [? _]].
  - split.
    + intros [= <-]. split; [|lia]. destruct (decide (c ∈ type <$> fs)) as [?|Hn]; [done|].
      by apply count_zero in Hn.
    + intros [_ ->]. f_equal; lia.
Qed.

(** X26. The explanation of a scan closes with the sentence of its
    recommendation, and names each category found once, with the number
    of its findings; a scan without findings is explained as safe, with
    score 0 and recommendation allow. *)
Theorem X26_explanation_agrees (env : Env) (skill : Skill) (r : RiskScanResult) :
  scanSkill env skill = Returned r →
  ∃ text, explanation env skill = Some text
    ∧ (flags r = [] →
       text = "No security risks detected. This skill appears safe to use."
       ∧ score r = 0 ∧ recommendation r = allow)
    ∧ (flags r ≠ [] →
       text = "This skill " +:+ Str.join ", " (map part (typeCounts (flags r)))
              +:+ ". " +:+ verdict (recommendation r))
    ∧ ∀ c n, (c, n) ∈ typeCounts (flags r) ↔ c ∈ type <$> flags r ∧ n = count c (flags r).
Proof.
  unfold scanSkill, explanation.
  destruct (listSkillFiles env (path skill)) as [files|]; [|done].
  intros [= <-]. simpl. eexists. split; [done|].
  set (fs := staticFlags env skill files ++ scanBehavior env skill).
  split; [|split; [|apply typeCounts_elem]].
  - intros ->. done.
  - intros Hne. unfold generateExplanation, getRecommendation.
    destruct fs as [|f fs']; [done|].
    by destruct (calculateScore (f :: fs') <=? SAFE_MAX),
      (calculateScore (f :: fs') <=? WARNING_MAX).
Qed.

Lemma X26_explanation_agrees_witness :
  ∃ r text, scanSkill Examples.demoHost Examples.demo = Returned r
    ∧ explanation Examples.demoHost Examples.demo = Some text
    ∧ recommendation r = block
    ∧ Str.endsWith text dangerText = true.
Proof.
  assert (Hr : ∃ r, scanSkill Examples.demoHost Examples.demo = Returned r).
  { eexists. vm_compute. reflexivity. }
  destruct Hr as [r Hr].
  destruct (X26_explanation_agrees Examples.demoHost Examples.demo r Hr)
    as (text & Htext & _).
  exists r, text. split; [exact Hr|]. split; [exact Htext|].
  vm_compute in Hr. injection Hr as <-. vm_compute in Htext. injection Htext as <-.
  split; vm_compute; reflexivity.
Defined.

End explanations.

(** ** The configuration file *)

Section configuration_file.
Import JS ConfigFile.

Lemma assoc_set (key k : string) (v : json) (l : list (string * json)) :
  assoc k (set key v l) = if String.eqb key k then Some v else assoc k l.
Proof.
  induction l as [|[k' x] l IH]; cbn [set assoc].
  - by destruct (String.eqb key k).
  - destruct (String.eqb_spec k' key) as [->|Hne]; cbn [assoc].
    + by destruct (String.eqb key k).
    + rewrite IH. destruct (String.eqb_spec k' k) as [->|_]; [|done].
      by destruct (String.eqb_spec key k) as [->|_].
Qed.

Lemma orElse_truthy (v : value) (d : json) :
  truthy (Some d) = true → truthy (Some (orElse v d)) = true.
Proof.
  intros Hd. unfold orElse. destruct v as [j|]; [|done].
  by destruct (truthy (Some j)) eqn:E.
Qed.

Lemma nullish_present (v : value) (d : json) : d ≠ JNull → present (Some (nullish v d)).
Proof.
  intros Hd. split; [done|]. unfold nullish. destruct v as [[]|]; congruence.
Qed.

Lemma nullish_kept (v : value) (d x : json) : v = Some x → x ≠ JNull → nullish v d = x.
Proof. intros -> H. by destruct x. Qed.

Lemma configDefaults_complete : complete configDefaults.
Proof.
  repeat split; try done. eexists. split; [reflexivity|]. by repeat split.
Qed.

(** X27. Whatever the configuration file holds, [loadConfig] returns a
    configuration in which the three lists, the two allow-lists of the
    default policy and its four switches are all there; a file that is
    absent, unreadable or does not parse, or that holds null, gives the
    default configuration; and a switch that the file sets to a value
    other than null keeps that value, false included. *)
Theorem X27_loaded_configuration_is_complete (existsSync : bool)
    (readFileSync : option string) (JSON_parse : string → option json) :
  complete (loadConfig existsSync readFileSync JSON_parse)
  ∧ (existsSync = false ∨ readFileSync = None
     ∨ (∃ content, readFileSync = Some content
                   ∧ (JSON_parse content = None ∨ JSON_parse content = Some JNull)) →
     loadConfig existsSync readFileSync JSON_parse = configDefaults)
  ∧ ∀ content members policy switch v,
      existsSync = true → readFileSync = Some content →
      JSON_parse content = Some (JObj members) →
      assoc "defaultPolicy" members = Some (JObj policy) →
      switch ∈ ["blockShell"; "blockSecrets"; "blockNetwork"; "blockFsWrite"] →
      assoc switch policy = Some v → v ≠ JNull →
      ∃ loaded,
        prop (loadConfig existsSync readFileSync JSON_parse) "defaultPolicy"
        = Some (JObj loaded)
        ∧ assoc switch loaded = Some v.
Proof.
  split; [|split].
  - unfold loadConfig. destruct existsSync; [|apply configDefaults_complete].
    destruct readFileSync as [content|]; [|apply configDefaults_complete].
    destruct (JSON_parse content) as [parsed|]; [|apply configDefaults_complete].
    assert (Hgen : ∀ parsed', complete (JObj
      (set "defaultPolicy"
         (JObj [ ("allowedDirs",
                  orElse (prop (orElse (prop parsed' "defaultPolicy") policyDefaults)
                            "allowedDirs") (JArr []));
                 ("allowedDomains",
                  orElse (prop (orElse (prop parsed' "defaultPolicy") policyDefaults)
                            "allowedDomains") (JArr []));
                 ("blockShell",
                  nullish (prop (orElse (prop parsed' "defaultPolicy") policyDefaults)
                             "blockShell") (JBool true));
                 ("blockSecrets",
                  nullish (prop (orElse (prop parsed' "defaultPolicy") policyDefaults)
                             "blockSecrets") (JBool true));
                 ("blockNetwork",
                  nullish (prop (orElse (prop parsed' "defaultPolicy") policyDefaults)
                             "blockNetwork") (JBool false));
                 ("blockFsWrite",
                  nullish (prop (orElse (prop parsed' "defaultPolicy") policyDefaults)
                             "blockFsWrite") (JBool false)) ])
         (set "disabledSkills" (orElse (prop parsed' "disabledSkills") (JArr []))
            (set "enabledSkills" (orElse (prop parsed' "enabledSkills") (JArr []))
               (set "workspacePaths" (orElse (prop parsed' "workspacePaths") (JArr []))
                  (Object_entries parsed'))))))).
    { intros parsed'. unfold complete. cbn [prop]. rewrite !assoc_set.
      change (String.eqb "defaultPolicy" "workspacePaths") with false.
      change (String.eqb "disabledSkills" "workspacePaths") with false.
      change (String.eqb "enabledSkills" "workspacePaths") with false.
      change (String.eqb "workspacePaths" "workspacePaths") with true.
      change (String.eqb "defaultPolicy" "enabledSkills") with false.
      change (String.eqb "disabledSkills" "enabledSkills") with false.
      change (String.eqb "enabledSkills" "enabledSkills") with true.
      change (String.eqb "defaultPolicy" "disabledSkills") with false.
      change (String.eqb "disabledSkills" "disabledSkills") with true.
      change (String.eqb "defaultPolicy" "defaultPolicy") with true. cbv iota.
      split; [by apply orElse_truthy|]. split; [by apply orElse_truthy|].
      split; [by apply orElse_truthy|]. eexists. split; [reflexivity|].
      split; [by apply orElse_truthy|]. split; [by apply orElse_truthy|].
      repeat split; try done; by apply nullish_present. }
    destruct parsed; first [apply configDefaults_complete | apply Hgen].
  - intros [->|[->|(content & -> & [H|H])]]; unfold loadConfig.
    + done.
    + by destruct existsSync.
    + destruct existsSync; [|done]. by rewrite H.
    + destruct existsSync; [|done]. by rewrite H.
  - intros content members policy switch v -> -> Hparse Hpolicy Hswitch Hv Hnn.
    unfold loadConfig. rewrite Hparse. cbn [prop]. rewrite assoc_set.
    change (String.eqb "defaultPolicy" "defaultPolicy") with true. cbv iota.
    eexists. split; [reflexivity|]. rewrite Hpolicy. cbn [orElse truthy prop].
    repeat (apply elem_of_cons in Hswitch as [->|Hswitch];
            [cbn [assoc]; rewrite Hv; simpl; f_equal; by apply nullish_kept with (v := Some v)|]).
    by apply elem_of_nil in Hswitch.
Qed.

End configuration_file.
